(** * CareCompass: the REST handlers of [server.js] over an in-memory store

    The Express handlers of [server.js] are embedded as functions from a
    request, the clock and the collections to a response and the new
    collections.  MongoDB collections are lists of documents in insertion
    order; JavaScript objects that are built from request bodies are finite
    maps from field names to JSON values.  Mongoose and the MongoDB driver are
    not part of the repository: the handful of operations the handlers call
    ([find], [findOne], [create], [deleteOne], [deleteMany], [save]) are
    modelled in the modules [Mongo] and [PatientModel] below.  Each handler
    runs to completion before the next one starts, and the database does not
    fail.  Registration, login and logout enter the reachable states only
    through their effect on the session collection; the three handlers
    themselves, the read routes and the backfill script
    [migrate-patient-assignments.js] are embedded after the routes. *)

From Stdlib Require Import ZArith List Bool Lia Floats.
From Stdlib Require Import Strings.Ascii Strings.String Sorting.Sorted.
From stdpp Require Import base decidable option list gmap strings pretty.

Local Open Scope string_scope.
Set Warnings "-clear-no-such-hyp".

(** ** JSON values and the JavaScript operations the handlers apply to them *)

Module Json.

(** A field value: JSON scalars and arrays.  Numbers are the integers that
    JavaScript prints in decimal (epoch milliseconds, counters); a number
    with a fraction is not represented, and an integer [n] stands for the
    JavaScript number of that value, which exists for every [n] of
    magnitude up to 2^53.  Nested objects are not represented: no handler
    reads into one, and a filter would read one as an operator document.
    A statement about every value of a field is therefore a statement about
    the values of this type. *)
#[warnings="-register-all"]
Inductive value : Type :=
| VNull
| VBool (b : bool)
| VNum (n : Z)
| VStr (s : string)
| VArr (l : list value).

#[global] Instance value_eq_dec : EqDecision value.
Proof.
  refine (fix go (x y : value) {struct x} : Decision (x = y) :=
    match x, y with
    | VNull, VNull => left eq_refl
    | VBool a, VBool b => cast_if (decide (a = b))
    | VNum a, VNum b => cast_if (decide (a = b))
    | VStr a, VStr b => cast_if (decide (a = b))
    | VArr a, VArr b => cast_if (@list_eq_dec _ go a b)
    | _, _ => right _
    end); abstract congruence.
Defined.

(** [!v] is false: the truthy values. *)
Definition truthy (v : value) : bool :=
  match v with
  | VNull => false
  | VBool b => b
  | VNum n => negb (n =? 0)%Z
  | VStr s => negb (String.eqb s "")
  | VArr _ => true
  end.

(** A property that may be absent: [undefined] is falsy. *)
Definition truthy_opt (o : option value) : bool :=
  match o with Some v => truthy v | None => false end.

(** [a || d] on a property that may be absent, with a string default. *)
Definition or_default (o : option value) (d : string) : value :=
  match o with
  | Some v => if truthy v then v else VStr d
  | None => VStr d
  end.

Fixpoint join (sep : string) (l : list string) : string :=
  match l with
  | [] => ""
  | [x] => x
  | x :: xs => x +:+ sep +:+ join sep xs
  end.

(** [String(v)], as template literals apply it. *)
Fixpoint toText (v : value) : string :=
  match v with
  | VNull => "null"
  | VBool true => "true"
  | VBool false => "false"
  | VNum n => pretty n
  | VStr s => s
  | VArr l =>
      join "," (map (fun x => match x with VNull => "" | _ => toText x end) l)
  end.

(** An element of [Array.prototype.join]: null joins as the empty string. *)
Definition elemText (v : value) : string :=
  match v with VNull => "" | _ => toText v end.

Definition toText_opt (o : option value) : string :=
  match o with Some v => toText v | None => "undefined" end.

End Json.
Export Json.

(** ** Strings *)

Module Str.

(** [s.includes(pat)] *)
Fixpoint includes (pat s : string) : bool :=
  String.prefix pat s ||
  match s with
  | EmptyString => false
  | String _ s' => includes pat s'
  end.

Fixpoint drop (n : nat) (s : string) : string :=
  match n, s with
  | O, _ => s
  | S n', String _ s' => drop n' s'
  | S _, EmptyString => EmptyString
  end.

(** [s.replace(pat, '')] with a string pattern: the first occurrence only. *)
Fixpoint remove_first (pat s : string) : string :=
  if String.prefix pat s then drop (String.length pat) s
  else match s with
       | EmptyString => EmptyString
       | String c s' => String c (remove_first pat s')
       end.

(** [s.slice(from, to)] for [0 <= from <= to]. *)
Definition slice (from to : nat) (s : string) : string :=
  String.substring from (to - from) s.

Definition is_lower (c : ascii) : bool :=
  (97 <=? nat_of_ascii c)%nat && (nat_of_ascii c <=? 122)%nat.
Definition is_upper (c : ascii) : bool :=
  (65 <=? nat_of_ascii c)%nat && (nat_of_ascii c <=? 90)%nat.
Definition is_digit (c : ascii) : bool :=
  (48 <=? nat_of_ascii c)%nat && (nat_of_ascii c <=? 57)%nat.

Definition upper_char (c : ascii) : ascii :=
  if is_lower c then ascii_of_nat (nat_of_ascii c - 32) else c.

(** [s.toUpperCase()] on the ASCII range. *)
Fixpoint toUpperCase (s : string) : string :=
  match s with
  | EmptyString => EmptyString
  | String c s' => String (upper_char c) (toUpperCase s')
  end.

Fixpoint forallb (p : ascii -> bool) (s : string) : bool :=
  match s with
  | EmptyString => true
  | String c s' => p c && forallb p s'
  end.

Definition nl : string := String "010"%char EmptyString.
Definition dquote : string := String "034"%char EmptyString.

End Str.

(** ** Collections and queries *)

Module Mongo.

(** A stored document: field name to value.  The [_id] and [__v] fields that
    the driver adds are not represented; a document's position in its
    collection stands for its identity. *)
Abbreviation doc := (gmap string value).

(** The operators the handlers use in their filters.  In [CEq], [None] is
    a JavaScript [undefined] that reached the filter. *)
Inductive cond : Type :=
| CEq (v : option value)
| CSize (n : nat)
| CExists (b : bool)
| CGte (z : Z).

#[warnings="-register-all"]
Inductive query : Type :=
| QAll
| QField (k : string) (c : cond)
| QAnd (q1 q2 : query)
| QOr (qs : list query).

(** Equality match of a field: the stored value is the queried one, or an
    array that has it as an element; null also matches a missing field. *)
Definition eq_value (fv : option value) (q : value) : bool :=
  match fv with
  | None => bool_decide (q = VNull)
  | Some x =>
      bool_decide (x = q) ||
      match x with VArr l => bool_decide (q ∈ l) | _ => false end
  end.

Definition gte_num (z : Z) (x : value) : bool :=
  match x with VNum n => (z <=? n)%Z | _ => false end.

(** The driver option [ignoreUndefined] decides what an [undefined] in a
    filter means: dropped from the filter when set, sent as null when not
    (the driver's default). *)
Definition holds (ignoreUndefined : bool) (fv : option value) (c : cond) : bool :=
  match c with
  | CEq (Some q) => eq_value fv q
  | CEq None => ignoreUndefined || eq_value fv VNull
  | CSize n =>
      match fv with
      | Some (VArr l) => bool_decide (length l = n)
      | _ => false
      end
  | CExists b => Bool.eqb (bool_decide (is_Some fv)) b
  | CGte z =>
      match fv with
      | Some (VArr l) => existsb (gte_num z) l
      | Some x => gte_num z x
      | None => false
      end
  end.

Fixpoint matches (ignoreUndefined : bool) (q : query) (d : doc) : bool :=
  match q with
  | QAll => true
  | QField k c => holds ignoreUndefined (d !! k) c
  | QAnd q1 q2 => matches ignoreUndefined q1 d && matches ignoreUndefined q2 d
  | QOr qs => existsb (fun q' => matches ignoreUndefined q' d) qs
  end.

(** Equality match on a field of a typed collection. *)
Definition field_eq {A} `{EqDecision A} (ignoreUndefined : bool)
    (q : option A) (x : option A) : bool :=
  match q with
  | None => ignoreUndefined || bool_decide (x = None)
  | Some _ => bool_decide (x = q)
  end.

Section Collection.
Context {A : Type}.

Definition find (p : A -> bool) (c : list A) : list A := List.filter p c.

Definition findOne (p : A -> bool) (c : list A) : option A := List.find p c.

(** The first match with its position, for a later [save]. *)
Fixpoint findOneAt (p : A -> bool) (c : list A) : option (nat * A) :=
  match c with
  | [] => None
  | x :: c' =>
      if p x then Some (O, x)
      else match findOneAt p c' with
           | Some (i, y) => Some (S i, y)
           | None => None
           end
  end.

Fixpoint deleteOne (p : A -> bool) (c : list A) : list A :=
  match c with
  | [] => []
  | x :: c' => if p x then c' else x :: deleteOne p c'
  end.

Definition deleteMany (p : A -> bool) (c : list A) : list A :=
  List.filter (fun x => negb (p x)) c.

Definition create (x : A) (c : list A) : list A := c ++ [x].

(** [document.save()] of the document found at position [i]. *)
Definition save (i : nat) (x : A) (c : list A) : list A := <[i := x]> c.

(** [.sort({ key: 1 })]: ascending, documents with equal keys in stored
    order. *)
Fixpoint insert_by (key : A -> Z) (x : A) (c : list A) : list A :=
  match c with
  | [] => [x]
  | y :: c' => if (key y <? key x)%Z then y :: insert_by key x c' else x :: y :: c'
  end.

Definition sort_asc (key : A -> Z) (c : list A) : list A :=
  fold_right (insert_by key) [] c.
End Collection.

End Mongo.
Export Mongo.

(** ** The Patient model

    The schema of [models/Patient.js]: [id] is a required, unique String;
    [assignedDoctorId] is a String with default null; [assignedDoctorIds] is
    an array of String with default []; [strict] is off, so other fields are
    stored as sent. *)

Module PatientModel.

(** [error.code === 11000] holds for [DuplicateKey] only. *)
Inductive error : Type := DuplicateKey | CastError | ValidationError.

(** The cast of a value to a String path of a document, as the mongoose
    library performs it: scalars are printed, null stays, an array is
    refused.  A number is printed digit by digit, as String prints an
    integer of magnitude up to 2^53 ([safe_number] below). *)
Definition castString (v : value) : option value :=
  match v with
  | VNull => Some VNull
  | VBool true => Some (VStr "true")
  | VBool false => Some (VStr "false")
  | VNum n => Some (VStr (pretty n))
  | VStr s => Some (VStr s)
  | VArr _ => None
  end.

(** The cast to an array of String: elements are cast, a scalar is wrapped. *)
Definition castStringArray (v : value) : option value :=
  match v with
  | VNull => Some VNull
  | VArr l => VArr <$> mapM castString l
  | x => (fun s => VArr [s]) <$> castString x
  end.

(** The filter [{ id: v }] after the cast of [v] to the type of [id], for a
    scalar [v].  (In a filter mongoose turns an array into [$in]; the
    handlers are embedded for scalar ids, and the embedding answers an
    array with the cast error of a document.) *)
Definition by_id (v : option value) : option query :=
  match v with
  | None => Some (QField "id" (CEq None))
  | Some x => (fun s => QField "id" (CEq (Some s))) <$> castString x
  end.

(** Defaults, then casts, of the three schema paths of a new document; the
    other keys are stored as sent.  This is what mongoose does with a
    payload whose keys are plain field names ([plain_payload] below): it
    reads a key with a dot as a path into the document and casts [_id] and
    [__v], which the embedding does not follow. *)
Definition cast_doc (p : doc) : option doc :=
  id' ← match p !! "id" with Some v => Some <$> castString v | None => Some None end;
  one ← castString (default VNull (p !! "assignedDoctorId"));
  many ← castStringArray (default (VArr []) (p !! "assignedDoctorIds"));
  Some (<["assignedDoctorIds" := many]>
          (<["assignedDoctorId" := one]>
             (match id' with Some s => <["id" := s]> p | None => p end))).

(** [required: true] on a String path refuses a missing, null or empty value. *)
Definition valid (d : doc) : bool :=
  match d !! "id" with
  | Some (VStr s) => negb (String.eqb s "")
  | _ => false
  end.

(** [Patient.create(p)]: the new document and the collection with it, or
    the error thrown. *)
Definition create (p : doc) (c : list doc) : error + (doc * list doc) :=
  match cast_doc p with
  | None => inl CastError
  | Some d =>
      if negb (valid d) then inl ValidationError
      else if existsb (fun x => bool_decide (x !! "id" = d !! "id")) c
      then inl DuplicateKey
      else inr (d, Mongo.create d c)
  end.

End PatientModel.

(** ** Stored records, requests and responses *)

(** The user snapshot a session carries ([req.user]). *)
Record User := {
  u_id : string;
  u_name : string;
  u_email : string;
  u_role : string
}.

(** Modelled from the spec: [models/Session.js] is missing; a session is
    { token, user snapshot, expiresAt (absolute epoch-ms) }. *)
Record Session := {
  token : string;
  user : User;
  expiresAt : Z
}.

(** Modelled from the spec: [models/ShareLink.js] is missing; a share link is
    { patientId, code, url, expiresAt }, stored as the handler builds it. *)
Record ShareLink := {
  sl_patientId : option string;
  sl_code : string;
  sl_url : string;
  sl_expiresAt : Z
}.

(** Modelled from the spec: [models/ClinicianNote.js] is missing; a note is
    { patientId, note, createdAt }, stored as the handler builds it. *)
Record Note := {
  n_patientId : option string;
  n_note : value;
  n_createdAt : Z
}.

(** Modelled from the spec: [models/Log.js] is missing; a log is stored with
    the fields it is created with (no schema validation on log content). *)
Abbreviation LogDoc := doc.

(** The collections. *)
Record State := {
  patients : list doc;
  logs : list LogDoc;
  notes : list Note;
  shareLinks : list ShareLink;
  sessions : list Session
}.

Definition empty_state : State :=
  {| patients := []; logs := []; notes := []; shareLinks := []; sessions := [] |}.

Definition set_patients (c : list doc) (st : State) : State :=
  {| patients := c; logs := logs st; notes := notes st;
     shareLinks := shareLinks st; sessions := sessions st |}.
Definition set_logs (c : list LogDoc) (st : State) : State :=
  {| patients := patients st; logs := c; notes := notes st;
     shareLinks := shareLinks st; sessions := sessions st |}.
Definition set_notes (c : list Note) (st : State) : State :=
  {| patients := patients st; logs := logs st; notes := c;
     shareLinks := shareLinks st; sessions := sessions st |}.
Definition set_shareLinks (c : list ShareLink) (st : State) : State :=
  {| patients := patients st; logs := logs st; notes := notes st;
     shareLinks := c; sessions := sessions st |}.
Definition set_sessions (c : list Session) (st : State) : State :=
  {| patients := patients st; logs := logs st; notes := notes st;
     shareLinks := shareLinks st; sessions := c |}.

(** What a handler reads of a request besides the path: the Authorization
    header, the [token] query parameter and the JSON body (an object; the
    body parser yields the empty object when there is none). *)
Record request := {
  authorization : option string;
  query_token : option string;
  body : doc
}.

(** [req.params]: the names are those of the route pattern. *)
Abbreviation params := (gmap string string).

Inductive json : Type :=
| Error (msg : string)                      (* { error: msg } *)
| OkTrue                                    (* { ok: true } *)
| EmptyObject                               (* {} *)
| Docs (l : list doc)
| Doc (d : doc)
| Assigned (patient : doc)                  (* { ok: true, patient } *)
| Link (l : ShareLink)
| NoteDoc (n : Note)
| Analysis (analysis : string) (hasData : bool) (generatedAt : option Z)
           (error note : option string).

Record response := { status : Z; payload : json }.

Definition reply (code : Z) (j : json) : response := {| status := code; payload := j |}.

(** The process environment and the services outside the process. *)
Record Env := {
  ignoreUndefined : bool;                   (* driver option, see [Mongo.holds] *)
  PORT : option string;                     (* process.env.PORT *)
  OpenAI : bool;                            (* require('openai') succeeded *)
  OPENAI_API_KEY : option string;
  OPENAI_MODEL : option string;
  toLocaleDateString : option value -> string;   (* of new Date(v) *)
  toLocaleTimeString : option value -> string;
  (** [openai.chat.completions.create] with the model, the system message
      and the user message: the content of the first choice, or a failure. *)
  chat : string -> string -> string -> option string
}.

(** [process.env.NAME || d] *)
Definition env_or (o : option string) (d : string) : string :=
  match o with
  | Some s => if String.eqb s "" then d else s
  | None => d
  end.

(** [process.env.NAME] as a condition. *)
Definition env_set (o : option string) : bool :=
  match o with
  | Some s => negb (String.eqb s "")
  | None => false
  end.

Definition port (E : Env) : string := env_or (PORT E) "3000".

(** ** Authentication middleware *)

(** [req.headers.authorization?.replace('Bearer ', '') || req.query.token] *)
Definition bearer (req : request) : option string :=
  match authorization req with
  | Some h =>
      let t := Str.remove_first "Bearer " h in
      if String.eqb t "" then query_token req else Some t
  | None => query_token req
  end.

Definition requireAuth (req : request) (now : Z) (st : State) : response + User :=
  match bearer req with
  | None => inl (reply 401 (Error "Authentication required"))
  | Some tok =>
      if String.eqb tok "" then inl (reply 401 (Error "Authentication required"))
      else
        match findOne (fun s => bool_decide (token s = tok)) (sessions st) with
        | None => inl (reply 401 (Error "Invalid or expired session"))
        | Some session =>
            if (expiresAt session <? now)%Z
            then inl (reply 401 (Error "Invalid or expired session"))
            else inr (user session)
        end
  end.

(** A route [app.METHOD(path, requireAuth, handler)]. *)
Definition authed (handler : User -> request -> State -> response * State)
    (req : request) (now : Z) (st : State) : response * State :=
  match requireAuth req now st with
  | inl r => (r, st)
  | inr u => handler u req st
  end.

(** ** Patients *)

Section Handlers.
Variable E : Env.

(** The filter of the doctor branch of [GET /api/patients]. *)
Definition visible_to (email : string) : query :=
  QOr [ QField "assignedDoctorId" (CEq (Some (VStr email)));
        QField "assignedDoctorIds" (CEq (Some (VStr email)));
        QField "assignedDoctorIds" (CSize 0);
        QField "assignedDoctorIds" (CEq (Some VNull));
        QField "assignedDoctorIds" (CExists false) ].

(** [GET /api/patients] *)
Definition listPatients (u : User) (req : request) (st : State) : response * State :=
  let found :=
    if String.eqb (u_role u) "caregiver" then find (matches (ignoreUndefined E) QAll) (patients st)
    else if String.eqb (u_role u) "doctor"
         then find (matches (ignoreUndefined E) (visible_to (u_email u))) (patients st)
         else [] in
  (reply 200 (Docs found), st).

(** [POST /api/patients] *)
Definition createPatient (u : User) (req : request) (st : State) : response * State :=
  let p := body req in
  if negb (truthy_opt (p !! "id")) then (reply 400 (Error "id required"), st)
  else
    match PatientModel.by_id (p !! "id") with
    | None => (reply 500 (Error "Server error"), st)
    | Some q =>
        match findOne (matches (ignoreUndefined E) q) (patients st) with
        | Some _ => (reply 409 (Error "patient exists"), st)
        | None =>
            let p :=
              if String.eqb (u_role u) "doctor"
              then <["assignedDoctorIds" := VArr [VStr (u_email u)]]> p
              else p in
            match PatientModel.create p (patients st) with
            | inr (patient, c) => (reply 201 (Doc patient), set_patients c st)
            | inl PatientModel.DuplicateKey => (reply 409 (Error "patient exists"), st)
            | inl _ => (reply 500 (Error "Server error"), st)
            end
        end
    end.

(** [POST /api/patients/:id/assign].  The handler destructures
    [patientId] from [req.params]. *)
Definition assignPatient (ps : params) (u : User) (req : request) (st : State)
    : response * State :=
  if negb (String.eqb (u_role u) "caregiver")
  then (reply 403 (Error "Only caregivers can assign patients"), st)
  else
    let patientId := ps !! "patientId" in
    match body req !! "doctorEmails" with
    | Some (VArr (e :: es)) =>
        let doctorEmails := VArr (e :: es) in
        match PatientModel.by_id (VStr <$> patientId) with
        | None => (reply 500 (Error "Server error"), st)
        | Some q =>
            match findOneAt (matches (ignoreUndefined E) q) (patients st) with
            | None => (reply 404 (Error "Patient not found"), st)
            | Some (i, patient) =>
                match PatientModel.castStringArray doctorEmails with
                | None => (reply 500 (Error "Server error"), st)
                | Some l =>
                    let patient := <["assignedDoctorIds" := l]> patient in
                    (reply 200 (Assigned patient),
                     set_patients (save i patient (patients st)) st)
                end
            end
        end
    | _ => (reply 400 (Error "doctorEmails array required"), st)
    end.

(** [DELETE /api/patients/:id] *)
Definition deletePatient (ps : params) (u : User) (req : request) (st : State)
    : response * State :=
  let id := ps !! "id" in
  let st1 := set_patients
               (deleteOne (matches (ignoreUndefined E) (QField "id" (CEq (VStr <$> id)))) (patients st)) st in
  let st2 := set_logs
               (deleteMany (matches (ignoreUndefined E) (QField "patientId" (CEq (VStr <$> id)))) (logs st1)) st1 in
  let st3 := set_notes
               (deleteMany (fun n => field_eq (ignoreUndefined E) id (n_patientId n)) (notes st2)) st2 in
  let st4 := set_shareLinks
               (deleteOne (fun l => field_eq (ignoreUndefined E) id (sl_patientId l)) (shareLinks st3)) st3 in
  (reply 200 OkTrue, st4).

(** ** Logs, notes and share links *)

(** The object literal { patientId: id, createdAt: now, ...payload }: the
    spread comes last, so a key of the payload replaces the one before it.
    A path parameter that is undefined leaves no field. *)
Definition log_fields (id : option string) (now : Z) (payload : doc) : doc :=
  payload ∪ <["createdAt" := VNum now]>
              (match id with Some s => {[ "patientId" := VStr s ]} | None => ∅ end).

(** [POST /api/logs/:patientId] *)
Definition createLog (ps : params) (now : Z) (u : User) (req : request) (st : State)
    : response * State :=
  let payload := body req in
  let log := log_fields (ps !! "patientId") now payload in
  (reply 201 (Doc log), set_logs (create log (logs st)) st).

(** [POST /api/notes/:patientId] *)
Definition createNote (ps : params) (now : Z) (u : User) (req : request) (st : State)
    : response * State :=
  let note := {| n_patientId := ps !! "patientId";
                 n_note := or_default (body req !! "note") "";
                 n_createdAt := now |} in
  (reply 201 (NoteDoc note), set_notes (create note (notes st)) st).

(** [(r.slice(2, 8)).toUpperCase()] of [r = Math.random().toString(36)]. *)
Definition share_code (r : string) : string := Str.toUpperCase (Str.slice 2 8 r).

Definition day_ms : Z := 24 * 60 * 60 * 1000.

(** [POST /api/share/:patientId]; [random36] is what
    [Math.random().toString(36)] evaluates to in this call. *)
Definition createShareLink (ps : params) (now : Z) (random36 : string)
    (u : User) (req : request) (st : State) : response * State :=
  let id := ps !! "patientId" in
  let code := share_code random36 in
  let url := "http://localhost:" +:+ port E +:+ "/share/" +:+ code in
  let expiresAt := (now + day_ms)%Z in
  let c := deleteOne (fun l => field_eq (ignoreUndefined E) id (sl_patientId l)) (shareLinks st) in
  let shareLink := {| sl_patientId := id; sl_code := code; sl_url := url;
                      sl_expiresAt := expiresAt |} in
  (reply 200 (Link shareLink), set_shareLinks (create shareLink c) st).

(** [GET /api/share/:patientId] *)
Definition getShareLink (ps : params) (now : Z) (u : User) (req : request) (st : State)
    : response * State :=
  let id := ps !! "patientId" in
  match findOne (fun l => field_eq (ignoreUndefined E) id (sl_patientId l)) (shareLinks st) with
  | None => (reply 404 EmptyObject, st)
  | Some link =>
      if (sl_expiresAt link <? now)%Z
      then (reply 404 EmptyObject,
            set_shareLinks
              (deleteOne (fun l => field_eq (ignoreUndefined E) id (sl_patientId l)) (shareLinks st)) st)
      else (reply 200 (Link link), st)
  end.

End Handlers.

(** ** Numbers: the percentages of the basic analysis *)

Module Num.

(** What [x.toFixed(0)] prints, read back as a number. *)
Inductive fixed : Type :=
| FNaN
| FInfinity (negative : bool)
| FInt (z : Z).

#[global] Instance fixed_eq_dec : EqDecision fixed.
Proof. solve_decision. Defined.

(** A count as a JavaScript number (a binary64 float); exact below 2^53,
    and an array is shorter than 2^32. *)
Definition of_nat (n : nat) : float :=
  PrimFloat.of_uint63 (Uint63.of_Z (Z.of_nat n)).

(** The integer nearest to [m * 2^e], the larger one at a tie. *)
Definition nearest (m : positive) (e : Z) : Z :=
  if (0 <=? e)%Z then (Z.pos m * 2 ^ e)%Z
  else ((2 * Z.pos m + 2 ^ (- e)) / (2 * 2 ^ (- e)))%Z.

(** [x.toFixed(0)] for magnitudes below 1e21.  (A negative value that
    rounds to zero prints with a minus sign in JavaScript; a percentage is
    never negative.) *)
Definition toFixed0 (x : float) : fixed :=
  match Prim2SF x with
  | S754_zero _ => FInt 0
  | S754_infinity s => FInfinity s
  | S754_nan => FNaN
  | S754_finite s m e => FInt (if s then - nearest m e else nearest m e)%Z
  end.

Definition text (f : fixed) : string :=
  match f with
  | FNaN => "NaN"
  | FInfinity false => "Infinity"
  | FInfinity true => "-Infinity"
  | FInt z => pretty z
  end.

(** [f < k] and [f >= k] after the implicit conversion to a number. *)
Definition lt (f : fixed) (k : Z) : bool :=
  match f with
  | FNaN => false
  | FInfinity negative => negative
  | FInt z => (z <? k)%Z
  end.

Definition ge (f : fixed) (k : Z) : bool :=
  match f with
  | FNaN => false
  | FInfinity negative => negb negative
  | FInt z => (k <=? z)%Z
  end.

(** [((c / n) * 100).toFixed(0)] *)
Definition percent (c n : nat) : fixed :=
  toFixed0 (PrimFloat.mul (PrimFloat.div (of_nat c) (of_nat n)) (of_nat 100)).

End Num.

(** ** Analysis *)

(** An element of [patientData.logs]. *)
Record FormattedLog := {
  date : string;
  time : string;
  mood : value;
  sleep : string;
  hydration : value;
  food : value;
  medication : value;
  antecedent : value;
  behavior : value;
  consequence : value;
  note : value
}.

Record PatientData := {
  pd_patientId : option value;
  patientName : value;
  diagnosis : value;
  daysAnalyzed : nat;
  pd_logs : list FormattedLog
}.

Module Basic.

Definition em_dash : string :=
  String "226"%char (String "128"%char (String "148"%char EmptyString)).

(** [l.mood && l.mood !== 'Not recorded' && l.mood !== em dash] *)
Definition mood_recorded (l : FormattedLog) : bool :=
  truthy (mood l)
  && negb (bool_decide (mood l = VStr "Not recorded"))
  && negb (bool_decide (mood l = VStr em_dash)).

Definition food_full (l : FormattedLog) : bool := bool_decide (food l = VStr "full").

Definition med_given (l : FormattedLog) : bool := bool_decide (medication l = VStr "given").

(** [l.hydration && (l.hydration.includes('drank') || l.hydration === 'full')];
    [None] is the TypeError of calling [includes] on a number or on [true]. *)
Definition hydrated (l : FormattedLog) : option bool :=
  if truthy (hydration l) then
    match hydration l with
    | VStr s => Some (Str.includes "drank" s || String.eqb s "full")
    | VArr a => Some (bool_decide (VStr "drank" ∈ a))
    | _ => None
    end
  else Some false.

(** [logs.filter(l => l.food === 'full').length] and its two siblings. *)
Definition foodCompliance (logs : list FormattedLog) : nat :=
  length (List.filter food_full logs).

Definition medCompliance (logs : list FormattedLog) : nat :=
  length (List.filter med_given logs).

Definition hydrationCompliance (logs : list FormattedLog) : option nat :=
  (fun bs => length (List.filter id bs)) <$> mapM hydrated logs.

Definition food_flag : string := "Monitor food intake closely. ".
Definition med_flag : string := "Review medication schedule adherence. ".
Definition hydration_flag : string := "Encourage increased hydration. ".
Definition good_plan : string := "Overall compliance is good. Continue current care plan.".

(** What is appended after the Recommendations heading. *)
Definition recommendations (foodPercent medPercent hydrationPercent : Num.fixed) : string :=
  (if Num.lt foodPercent 70 then food_flag else "")
  +:+ (if Num.lt medPercent 90 then med_flag else "")
  +:+ (if Num.lt hydrationPercent 60 then hydration_flag else "")
  +:+ (if Num.ge foodPercent 70 && Num.ge medPercent 90 && Num.ge hydrationPercent 60
       then good_plan else "").

Definition foodPercent (pd : PatientData) : Num.fixed :=
  Num.percent (foodCompliance (pd_logs pd)) (length (pd_logs pd)).

Definition medPercent (pd : PatientData) : Num.fixed :=
  Num.percent (medCompliance (pd_logs pd)) (length (pd_logs pd)).

Definition hydrationPercent (pd : PatientData) : option Num.fixed :=
  (fun c => Num.percent c (length (pd_logs pd))) <$> hydrationCompliance (pd_logs pd).

(** The text up to and including the Recommendations heading. *)
Definition report_head (pd : PatientData) (hydrationPercent : Num.fixed) : string :=
  let logs := pd_logs pd in
  let moods := map mood (List.filter mood_recorded logs) in
  let avgMood := if (0 <? length moods)%nat then Json.join ", " (map elemText moods)
                 else "Insufficient data" in
  "**7-Day Analysis for " +:+ toText (patientName pd) +:+ "**" +:+ Str.nl +:+ Str.nl
  +:+ "**Overview:** This analysis covers " +:+ pretty (length logs)
  +:+ " days of recorded data for " +:+ toText (patientName pd)
  +:+ " (" +:+ toText (diagnosis pd) +:+ ")." +:+ Str.nl +:+ Str.nl
  +:+ "**Mood Patterns:** "
  +:+ (if (0 <? length moods)%nat then "Observed moods: " +:+ avgMood
       else "Limited mood data available")
  +:+ "." +:+ Str.nl +:+ Str.nl
  +:+ "**Compliance Metrics:**" +:+ Str.nl
  +:+ "- Food intake: " +:+ Num.text (foodPercent pd) +:+ "% full meals" +:+ Str.nl
  +:+ "- Medication: " +:+ Num.text (medPercent pd) +:+ "% given on time" +:+ Str.nl
  +:+ "- Hydration: " +:+ Num.text hydrationPercent +:+ "% compliance" +:+ Str.nl +:+ Str.nl
  +:+ "**Recommendations:** ".

Definition report_tail : string :=
  Str.nl +:+ Str.nl
  +:+ "*Note: For detailed AI-powered analysis, configure OPENAI_API_KEY in your environment variables.*".

(** [generateBasicAnalysis(patientData)]; [None] when it throws. *)
Definition generateBasicAnalysis (pd : PatientData) : option string :=
  hp ← hydrationPercent pd;
  Some (report_head pd hp
        +:+ recommendations (foodPercent pd) (medPercent pd) hp
        +:+ report_tail).

End Basic.

Section AnalysisHandler.
Variable E : Env.

Definition week_ms : Z := 7 * 24 * 60 * 60 * 1000.

(** The filter { patientId, createdAt: { $gte: sevenDaysAgo } }. *)
Definition recent_logs_of (patientId : option string) (sevenDaysAgo : Z) : query :=
  QAnd (QField "patientId" (CEq (VStr <$> patientId)))
       (QField "createdAt" (CGte sevenDaysAgo)).

(** The sort key of [.sort({ createdAt: 1 })]; the logs that pass the filter
    carry a number there (the least number of an array). *)
Definition createdAt_key (log : doc) : Z :=
  match log !! "createdAt" with
  | Some (VNum n) => n
  | Some (VArr l) =>
      match omap (fun x => match x with VNum n => Some n | _ => None end) l with
      | n :: ns => fold_right Z.min n ns
      | [] => 0%Z
      end
  | _ => 0%Z
  end.

Definition format_log (log : doc) : FormattedLog :=
  {| date := toLocaleDateString E (log !! "createdAt");
     time := toLocaleTimeString E (log !! "createdAt");
     mood := or_default (log !! "mood") "Not recorded";
     sleep := if truthy_opt (log !! "sleepStart") && truthy_opt (log !! "sleepEnd")
              then toText_opt (log !! "sleepStart") +:+ " - " +:+ toText_opt (log !! "sleepEnd")
              else "Not recorded";
     hydration := or_default (log !! "hydration") "Not recorded";
     food := or_default (log !! "food") "Not recorded";
     medication := or_default (log !! "meds") "Not recorded";
     antecedent := or_default (log !! "antecedent") "";
     behavior := or_default (log !! "behavior") "";
     consequence := or_default (log !! "consequence") "";
     note := or_default (log !! "note") "" |}.

Definition patient_data (patient : doc) (logs : list doc) : PatientData :=
  {| pd_patientId := patient !! "id";
     patientName := or_default (patient !! "name")
                      ("Patient " +:+ toText_opt (patient !! "id"));
     diagnosis := or_default (patient !! "diagnosis") "Not specified";
     daysAnalyzed := length logs;
     pd_logs := map format_log logs |}.

Definition optional_line (label : string) (v : value) : string :=
  if truthy v then label +:+ toText v else "".

Definition day_block (idx : nat) (log : FormattedLog) : string :=
  Str.nl
  +:+ "Day " +:+ pretty (idx + 1)%nat +:+ " (" +:+ date log +:+ "):" +:+ Str.nl
  +:+ "- Time: " +:+ time log +:+ Str.nl
  +:+ "- Mood: " +:+ toText (mood log) +:+ Str.nl
  +:+ "- Sleep: " +:+ sleep log +:+ Str.nl
  +:+ "- Hydration: " +:+ toText (hydration log) +:+ Str.nl
  +:+ "- Food: " +:+ toText (food log) +:+ Str.nl
  +:+ "- Medication: " +:+ toText (medication log) +:+ Str.nl
  +:+ optional_line "- Antecedent: " (antecedent log) +:+ Str.nl
  +:+ optional_line "- Behavior: " (behavior log) +:+ Str.nl
  +:+ optional_line "- Consequence: " (consequence log) +:+ Str.nl
  +:+ optional_line "- Note: " (note log) +:+ Str.nl.

Definition prompt_of (pd : PatientData) : string :=
  "You are a healthcare AI assistant analyzing patient care data. Analyze the following 7-day patient data and provide a comprehensive text analysis focusing on:"
  +:+ Str.nl +:+ Str.nl
  +:+ "1. Overall condition trends (improving, stable, or concerning)" +:+ Str.nl
  +:+ "2. Sleep patterns and quality" +:+ Str.nl
  +:+ "3. Nutrition and hydration compliance" +:+ Str.nl
  +:+ "4. Medication adherence" +:+ Str.nl
  +:+ "5. Mood patterns and behavioral observations" +:+ Str.nl
  +:+ "6. Any concerning patterns or red flags" +:+ Str.nl
  +:+ "7. Recommendations for care adjustments" +:+ Str.nl +:+ Str.nl
  +:+ "Patient Information:" +:+ Str.nl
  +:+ "- Name: " +:+ toText (patientName pd) +:+ Str.nl
  +:+ "- Diagnosis: " +:+ toText (diagnosis pd) +:+ Str.nl
  +:+ "- Days with data: " +:+ pretty (daysAnalyzed pd) +:+ Str.nl +:+ Str.nl
  +:+ "Daily Logs:" +:+ Str.nl
  +:+ Json.join Str.nl (imap day_block (pd_logs pd)) +:+ Str.nl +:+ Str.nl
  +:+ "Provide a detailed, professional analysis in 3-4 paragraphs. Be specific about patterns, concerns, and recommendations.".

Definition system_message : string :=
  "You are a professional healthcare AI assistant that provides detailed, accurate, and helpful analysis of patient care data. Always be professional, empathetic, and focus on actionable insights.".

Definition no_data_message : string :=
  "No data available for the last 7 days. Please ensure patient logs are being recorded regularly.".

Definition basic_reply (pd : PatientData) (error note : option string) : response :=
  match Basic.generateBasicAnalysis pd with
  | Some analysis => reply 200 (Analysis analysis true None error note)
  | None => reply 500 (Error "Server error generating analysis")
  end.

(** [GET /api/analysis/:patientId].  [now] is the clock when the window is
    computed, [later] the clock when an AI answer is stamped.  The second
    component lists the prompts sent to the text-generation service. *)
Definition generateAnalysis (ps : params) (now later : Z) (u : User) (req : request)
    (st : State) : response * list string :=
  let patientId := ps !! "patientId" in
  match PatientModel.by_id (VStr <$> patientId) with
  | None => (reply 500 (Error "Server error generating analysis"), [])
  | Some q =>
      match findOne (matches (ignoreUndefined E) q) (patients st) with
      | None =>
          (reply 404 (Error ("Patient with ID " +:+ Str.dquote
                             +:+ toText_opt (VStr <$> patientId) +:+ Str.dquote
                             +:+ " not found in database")), [])
      | Some patient =>
          let sevenDaysAgo := (now - week_ms)%Z in
          let logs := sort_asc createdAt_key
                        (find (matches (ignoreUndefined E)
                                 (recent_logs_of patientId sevenDaysAgo)) (logs st)) in
          if (length logs =? 0)%nat
          then (reply 200 (Analysis no_data_message false None None None), [])
          else
            let patientData := patient_data patient logs in
            if OpenAI E && env_set (OPENAI_API_KEY E)
            then
              let prompt := prompt_of patientData in
              match chat E (env_or (OPENAI_MODEL E) "gpt-3.5-turbo") system_message prompt with
              | Some analysis =>
                  (reply 200 (Analysis analysis true (Some later) None None), [prompt])
              | None =>
                  (basic_reply patientData
                     (Some "AI analysis unavailable, showing basic analysis") None,
                   [prompt])
              end
            else
              (basic_reply patientData None
                 (Some "AI analysis not configured. Set OPENAI_API_KEY in .env file for AI-powered analysis."),
               [])
      end
  end.

End AnalysisHandler.

(** ** Routes and reachable states *)

Section Routes.
Variable E : Env.

(** [req.params] of a route with one named segment. *)
Definition route_params (name segment : string) : params := {[ name := segment ]}.

(** Routes of [server.js], with [requireAuth] in front.  The clock the
    middleware reads is the argument of [authed]; [t] is the clock the
    handler reads. *)
Definition GET_patients := authed (listPatients E).
Definition POST_patients := authed (createPatient E).
Definition POST_patients_assign (id : string) :=
  authed (assignPatient E (route_params "id" id)).
Definition DELETE_patients (id : string) :=
  authed (deletePatient E (route_params "id" id)).
Definition POST_logs (patientId : string) (t : Z) :=
  authed (createLog (route_params "patientId" patientId) t).
Definition POST_notes (patientId : string) (t : Z) :=
  authed (createNote (route_params "patientId" patientId) t).
Definition POST_share (patientId : string) (t : Z) (random36 : string) :=
  authed (createShareLink E (route_params "patientId" patientId) t random36).
Definition GET_share (patientId : string) (t : Z) :=
  authed (getShareLink E (route_params "patientId" patientId) t).

(** One request served from its first database call to its answer, with no
    other request in between: the states these steps reach are those of a
    server whose requests do not overlap.  (What overlapping requests add
    is modelled for the share route below.)  Registration, login and logout
    write only the user and session collections; [step_sessions] covers
    them by letting the session collection change in any way. *)
Inductive step : State -> State -> Prop :=
| step_sessions st c :
    step st (set_sessions c st)
| step_create req t0 st :
    step st (POST_patients req t0 st).2
| step_assign id req t0 st :
    step st (POST_patients_assign id req t0 st).2
| step_delete id req t0 st :
    step st (DELETE_patients id req t0 st).2
| step_log id t req t0 st :
    step st (POST_logs id t req t0 st).2
| step_note id t req t0 st :
    step st (POST_notes id t req t0 st).2
| step_share id t r req t0 st :
    step st (POST_share id t r req t0 st).2
| step_get_share id t req t0 st :
    step st (GET_share id t req t0 st).2.

Inductive reachable : State -> Prop :=
| reachable_init : reachable empty_state
| reachable_step st st' : reachable st -> step st st' -> reachable st'.

End Routes.

(** ** Requests that overlap

    A handler runs up to its next [await]; while it waits for the database
    another request may run.  What [POST /api/share/:patientId] does to the
    store are its two database calls, made in this order, and the calls of
    another request may fall between them. *)

Inductive call : Type :=
| DeleteLink (patientId : option string)   (* ShareLink.deleteOne({ patientId }) *)
| CreateLink (l : ShareLink).              (* ShareLink.create(l) *)

Section Overlap.
Variable E : Env.

Definition perform (c : call) (st : State) : State :=
  match c with
  | DeleteLink id =>
      set_shareLinks
        (deleteOne (fun l => field_eq (ignoreUndefined E) id (sl_patientId l)) (shareLinks st))
        st
  | CreateLink l => set_shareLinks (create l (shareLinks st)) st
  end.

Definition perform_all (cs : list call) (st : State) : State :=
  fold_left (fun st c => perform c st) cs st.

(** The calls of one request to [POST /api/share/:patientId]; the code, the
    url and the expiry are computed before the first call. *)
Definition createShareLink_calls (ps : params) (now : Z) (random36 : string) : list call :=
  let id := ps !! "patientId" in
  let code := share_code random36 in
  let url := "http://localhost:" +:+ port E +:+ "/share/" +:+ code in
  let expiresAt := (now + day_ms)%Z in
  [DeleteLink id;
   CreateLink {| sl_patientId := id; sl_code := code; sl_url := url;
                 sl_expiresAt := expiresAt |}].

End Overlap.

(** [interleaved a b s]: the schedule [s] makes the calls of [a] and the
    calls of [b], each in its own order. *)
Inductive interleaved {A : Type} : list A -> list A -> list A -> Prop :=
| interleaved_nil : interleaved [] [] []
| interleaved_left x a b s : interleaved a b s -> interleaved (x :: a) b (x :: s)
| interleaved_right y a b s : interleaved a b s -> interleaved a (y :: b) (y :: s).

(** The id of a stored patient and the owner of a stored link. *)
Definition patient_id (p : doc) : option value := p !! "id".

(** What the collections keep true: every patient has a string id, no two
    patients share an id, and no two share links belong to one patient. *)
Record consistent (st : State) : Prop := {
  ids_typed : Forall (fun p => exists s, patient_id p = Some (VStr s)) (patients st);
  ids_unique : NoDup (patient_id <$> patients st);
  links_unique : NoDup (sl_patientId <$> shareLinks st)
}.

(** ** The data model in logical form *)

(** The field is [x], or a list that has [x] as an element: the documents
    that the filter { field: x } selects, for [x] other than null. *)
Definition is_or_holds (x : value) (fv : option value) : Prop :=
  fv = Some x \/ exists l, fv = Some (VArr l) /\ x ∈ l.

(** The list of doctor emails has a null element (the schema's [String]
    array keeps a null that is sent in it). *)
Definition holds_null (p : doc) : Prop :=
  exists l, p !! "assignedDoctorIds" = Some (VArr l) /\ VNull ∈ l.

(** The legacy single-doctor field is absent, null, or a string other than
    [email]. *)
Definition legacy_other (email : string) (p : doc) : Prop :=
  p !! "assignedDoctorId" = None \/ p !! "assignedDoctorId" = Some VNull
  \/ exists s, p !! "assignedDoctorId" = Some (VStr s) /\ s <> email.






(** The list of doctor emails is empty, null or absent. *)
Definition unassigned (p : doc) : Prop :=
  p !! "assignedDoctorIds" = Some (VArr [])
  \/ p !! "assignedDoctorIds" = Some VNull
  \/ p !! "assignedDoctorIds" = None.

(** The link that [createShareLink] stores. *)
Definition new_link (E : Env) (id : string) (t : Z) (random36 : string) : ShareLink :=
  {| sl_patientId := Some id;
     sl_code := share_code random36;
     sl_url := "http://localhost:" +:+ port E +:+ "/share/" +:+ share_code random36;
     sl_expiresAt := (t + day_ms)%Z |}.


Definition base36_digit (c : ascii) : bool := Str.is_digit c || Str.is_lower c.

Definition upper_alnum (c : ascii) : bool := Str.is_digit c || Str.is_upper c.

(** What [toString(36)] prints for a number that is at least 0 and less
    than 1: the digit 0 alone, or 0 and a point followed by one or more
    digits in base 36. *)
Definition radix36_fraction (r : string) : Prop :=
  r = "0" \/ exists ds, r = "0." +:+ ds /\ ds <> "" /\ Str.forallb base36_digit ds = true.

(** A log whose patientId and createdAt are not arrays (the data model has
    a string and a number there). *)
Definition log_typed (l : doc) : Prop :=
  (forall a, l !! "patientId" <> Some (VArr a))
  /\ (forall a, l !! "createdAt" <> Some (VArr a)).

(** The exact percentage of [c] out of [n] is below [k - 1/2], so that it
    rounds to an integer below [k]. *)
Definition rounds_below (k : Z) (c n : nat) : bool :=
  (200 * Z.of_nat c <? (2 * k - 1) * Z.of_nat n)%Z.

(** ** Sorting as the database compares values *)

Module Bson.

(** The comparison order of values of different types: null, numbers,
    strings, arrays, booleans. *)
Definition type_rank (v : value) : nat :=
  match v with
  | VNull => 1
  | VNum _ => 2
  | VStr _ => 3
  | VArr _ => 5
  | VBool _ => 8
  end.

(** Values of one type: numbers by value, strings byte by byte, false before
    true, arrays element by element and a prefix before its extensions. *)
Fixpoint compare (a b : value) : comparison :=
  match a, b with
  | VNull, VNull => Eq
  | VNum x, VNum y => Z.compare x y
  | VStr x, VStr y => String.compare x y
  | VBool x, VBool y => Bool.compare x y
  | VArr x, VArr y =>
      (fix go (x y : list value) : comparison :=
         match x, y with
         | [], [] => Eq
         | [], _ :: _ => Lt
         | _ :: _, [] => Gt
         | v :: x', w :: y' =>
             match compare v w with
             | Eq => go x' y'
             | c => c
             end
         end) x y
  | _, _ => Nat.compare (type_rank a) (type_rank b)
  end.

(** What a field contributes to a descending sort: its value, null when it
    is missing, the largest element of a non-empty array; an empty array
    sorts below everything else ([None]). *)
Definition desc_key (fv : option value) : option value :=
  match fv with
  | None => Some VNull
  | Some (VArr []) => None
  | Some (VArr (v :: l)) =>
      Some (fold_left (fun m w => match compare m w with Lt => w | _ => m end) l v)
  | Some v => Some v
  end.

Definition compare_key (a b : option value) : comparison :=
  match a, b with
  | None, None => Eq
  | None, Some _ => Lt
  | Some _, None => Gt
  | Some x, Some y => compare x y
  end.

End Bson.

Section Sorting.
Context {A : Type}.

(** Insertion of [x], which was stored before the elements of the sorted
    list [c]: it goes in front of the first element that does not have to
    come before it. *)
Fixpoint insert_before (before : A -> A -> bool) (x : A) (c : list A) : list A :=
  match c with
  | [] => [x]
  | y :: c' => if before y x then y :: insert_before before x c' else x :: y :: c'
  end.

(** [.sort(...)] by the order [before]; documents that compare equal keep
    their stored order. *)
Definition sort_by (before : A -> A -> bool) (c : list A) : list A :=
  fold_right (insert_before before) [] c.

End Sorting.

(** [{ createdAt: -1 }] on logs: [y] has to come before [x] when its key is
    greater. *)
Definition log_newer (y x : doc) : bool :=
  match Bson.compare_key (Bson.desc_key (y !! "createdAt")) (Bson.desc_key (x !! "createdAt")) with
  | Gt => true
  | _ => false
  end.

(** [{ createdAt: -1 }] on notes. *)
Definition note_newer (y x : Note) : bool := (n_createdAt x <? n_createdAt y)%Z.

(** ** Accounts *)

(** Modelled from the spec: [models/User.js] is missing; a user is
    { id, name, email, password hash, role, createdAt }, and doctors and
    caregivers are two collections. *)
Record Account := {
  a_id : string;
  a_name : string;
  a_email : string;
  a_password : string;
  a_role : string;
  a_createdAt : Z
}.

Record Accounts := {
  doctors : list Account;
  caregivers : list Account
}.

Definition no_accounts : Accounts := {| doctors := []; caregivers := [] |}.

(** The bodies of the routes that the first response type does not have. *)
Inductive json_more : Type :=
| Plain (j : json)
| Registered (message : string) (user : User)    (* { message, user } *)
| LoggedIn (token : string) (user : User)        (* { token, user } *)
| Message (message : string)                     (* { message } *)
| Me (user : User)                               (* { user } *)
| Doctors (l : list (string * string))           (* [{ email, name }, ...] *)
| Notes (l : list Note).

Record response_more := { status_more : Z; payload_more : json_more }.

Definition reply_more (code : Z) (j : json_more) : response_more :=
  {| status_more := code; payload_more := j |}.

Definition plain (r : response) : response_more :=
  reply_more (status r) (Plain (payload r)).

(** A route [app.get(path, requireAuth, handler)] whose handler only reads. *)
Definition authed_read (handler : User -> request -> State -> response_more)
    (req : request) (now : Z) (st : State) : response_more :=
  match requireAuth req now st with
  | inl r => plain r
  | inr u => handler u req st
  end.

(** ** Reading logs and notes, the current user and the doctors *)

Section ReadHandlers.
Variable E : Env.

(** [GET /api/logs/:patientId] *)
Definition listLogs (ps : params) (u : User) (req : request) (st : State)
    : response * State :=
  let found :=
    sort_by log_newer
      (find (matches (ignoreUndefined E)
               (QField "patientId" (CEq (VStr <$> ps !! "patientId")))) (logs st)) in
  (reply 200 (Docs found), st).

(** [GET /api/notes/:patientId] *)
Definition listNotes (ps : params) (u : User) (req : request) (st : State)
    : response_more :=
  let found :=
    sort_by note_newer
      (find (fun n => field_eq (ignoreUndefined E) (ps !! "patientId") (n_patientId n))
         (notes st)) in
  reply_more 200 (Notes found).

(** [GET /api/me] *)
Definition me (u : User) (req : request) (st : State) : response_more :=
  reply_more 200 (Me u).

(** [GET /api/doctors]: the projection { email: 1, name: 1, _id: 0 } of
    every doctor. *)
Definition listDoctors (accounts : Accounts) (u : User) (req : request) (st : State)
    : response_more :=
  if negb (String.eqb (u_role u) "caregiver")
  then reply_more 403 (Plain (Error "Only caregivers can list doctors"))
  else reply_more 200 (Doctors (map (fun d => (a_email d, a_name d)) (doctors accounts))).

Definition GET_logs (patientId : string) :=
  authed (listLogs (route_params "patientId" patientId)).
Definition GET_notes (patientId : string) :=
  authed_read (listNotes (route_params "patientId" patientId)).
Definition GET_me := authed_read me.
Definition GET_doctors (accounts : Accounts) := authed_read (listDoctors accounts).

End ReadHandlers.

(** ** The backfill script [migrate-patient-assignments.js] *)

Module Migration.

(** The filter for patients with no assignment, used for the count and for
    the update. *)
Definition unassigned : query :=
  QOr [ QField "assignedDoctorIds" (CSize 0);
        QField "assignedDoctorIds" (CEq (Some VNull));
        QField "assignedDoctorIds" (CExists false) ].

(** [Model.updateMany(filter, { $set: { key: v } })]: the collection after
    the update, the number of documents matched and the number modified (a
    document that already holds [v] is matched but not modified). *)
Fixpoint updateMany (p : doc -> bool) (key : string) (v : value) (c : list doc)
    : list doc * nat * nat :=
  match c with
  | [] => ([], 0, 0)
  | d :: c' =>
      let '(c'', matched, modified) := updateMany p key v c' in
      if p d
      then (<[key := v]> d :: c'', S matched,
            if bool_decide (d !! key = Some v) then modified else S modified)
      else (d :: c'', matched, modified)
  end.

(** What a run leaves behind: the exit code, the patient collection, and the
    numbers it prints (doctors found; unassigned patients found; Updated and
    Matched when the update ran). *)
Record outcome := {
  exit_code : Z;
  patients_after : list doc;
  doctors_found : nat;
  unassigned_found : option nat;
  updated_matched : option (nat * nat)
}.

(** [migratePatients()], with the doctor and patient collections it reads.
    No filter value is undefined, so the driver option plays no part. *)
Definition migratePatients (doctors : list Account) (patients : list doc) : outcome :=
  if (length doctors =? 0)%nat
  then {| exit_code := 1; patients_after := patients; doctors_found := 0;
          unassigned_found := None; updated_matched := None |}
  else
    let doctorEmails := map a_email doctors in
    let unassignedPatients := find (matches false unassigned) patients in
    if (length unassignedPatients =? 0)%nat
    then {| exit_code := 0; patients_after := patients;
            doctors_found := length doctors;
            unassigned_found := Some 0; updated_matched := None |}
    else
      let '(after, matchedCount, modifiedCount) :=
        updateMany (matches false unassigned) "assignedDoctorIds"
          (VArr (map VStr doctorEmails)) patients in
      {| exit_code := 0; patients_after := after;
         doctors_found := length doctors;
         unassigned_found := Some (length unassignedPatients);
         updated_matched := Some (modifiedCount, matchedCount) |}.

End Migration.

(** ** Text as JavaScript sees it *)

Module Utf8.

(** A string of the embedding is the UTF-8 encoding of a JavaScript string
    (a lone surrogate is encoded like any other three-byte code point).
    [decode] reads the code points back; a byte that starts no sequence is
    read as U+FFFD. *)
Definition cont (b : ascii) : option N :=
  let n := N_of_ascii b in
  if (128 <=? n)%N && (n <? 192)%N then Some (n - 128)%N else None.

Definition replacement : N := 65533.

Fixpoint decode (s : string) : list N :=
  match s with
  | EmptyString => []
  | String b1 s1 =>
      let n1 := N_of_ascii b1 in
      if (n1 <? 128)%N then n1 :: decode s1
      else
        match s1 with
        | String b2 s2 =>
            match cont b2 with
            | Some c2 =>
                if (192 <=? n1)%N && (n1 <? 224)%N
                then ((n1 - 192) * 64 + c2)%N :: decode s2
                else
                  match s2 with
                  | String b3 s3 =>
                      match cont b3 with
                      | Some c3 =>
                          if (224 <=? n1)%N && (n1 <? 240)%N
                          then ((n1 - 224) * 4096 + c2 * 64 + c3)%N :: decode s3
                          else
                            match s3 with
                            | String b4 s4 =>
                                match cont b4 with
                                | Some c4 =>
                                    if (240 <=? n1)%N && (n1 <? 248)%N
                                    then ((n1 - 240) * 262144 + c2 * 4096 + c3 * 64 + c4)%N
                                         :: decode s4
                                    else replacement :: decode s1
                                | None => replacement :: decode s1
                                end
                            | EmptyString => replacement :: decode s1
                            end
                      | None => replacement :: decode s1
                      end
                  | EmptyString => replacement :: decode s1
                  end
            | None => replacement :: decode s1
            end
        | EmptyString => [replacement]
        end
  end.

(** [s.length]: UTF-16 code units, two for a code point above U+FFFF. *)
Definition length16 (s : string) : nat :=
  fold_right (fun cp n => if (65536 <=? cp)%N then S (S n) else S n) 0%nat (decode s).

End Utf8.

Module Regex.

(** Regular expressions over code points, with the derivative matcher. *)
Inductive re : Type :=
| Void
| Eps
| Cls (p : N -> bool)
| Cat (r1 r2 : re)
| Alt (r1 r2 : re)
| Star (r : re).

(** [r+] *)
Definition Plus (r : re) : re := Cat r (Star r).

Fixpoint nullable (r : re) : bool :=
  match r with
  | Void => false
  | Eps => true
  | Cls _ => false
  | Cat r1 r2 => nullable r1 && nullable r2
  | Alt r1 r2 => nullable r1 || nullable r2
  | Star _ => true
  end.

Fixpoint deriv (c : N) (r : re) : re :=
  match r with
  | Void => Void
  | Eps => Void
  | Cls p => if p c then Eps else Void
  | Cat r1 r2 =>
      if nullable r1 then Alt (Cat (deriv c r1) r2) (deriv c r2)
      else Cat (deriv c r1) r2
  | Alt r1 r2 => Alt (deriv c r1) (deriv c r2)
  | Star r1 => Cat (deriv c r1) (Star r1)
  end.

(** [/^r$/.test(w)] *)
Definition test (r : re) (w : list N) : bool :=
  nullable (fold_left (fun r c => deriv c r) w r).

(** [\s]: the white space and line terminator code points. *)
Definition space (c : N) : bool :=
  bool_decide (c ∈ [9; 10; 11; 12; 13; 32; 160; 5760; 8232; 8233; 8239; 8287; 12288; 65279]%N)
  || ((8192 <=? c)%N && (c <=? 8202)%N).

Definition at_sign : N := 64.
Definition dot : N := 46.

(** [[^\s@]] *)
Definition word (c : N) : bool := negb (space c) && negb (c =? at_sign)%N.

(** [/^[^\s@]+@[^\s@]+\.[^\s@]+$/] *)
Definition emailRegex : re :=
  Cat (Plus (Cls word))
    (Cat (Cls (N.eqb at_sign))
       (Cat (Plus (Cls word))
          (Cat (Cls (N.eqb dot)) (Plus (Cls word))))).

(** The words of a regular expression. *)
Inductive lang : re -> list N -> Prop :=
| lang_eps : lang Eps []
| lang_cls p c : p c = true -> lang (Cls p) [c]
| lang_cat r1 r2 w1 w2 : lang r1 w1 -> lang r2 w2 -> lang (Cat r1 r2) (w1 ++ w2)
| lang_alt_l r1 r2 w : lang r1 w -> lang (Alt r1 r2) w
| lang_alt_r r1 r2 w : lang r2 w -> lang (Alt r1 r2) w
| lang_star_nil r : lang (Star r) []
| lang_star_cons r w1 w2 : lang r w1 -> lang (Star r) w2 -> lang (Star r) (w1 ++ w2).

End Regex.

(** ** Password hashing and session tokens *)

(** [crypto.createHash('sha256').update(s).digest('hex')], a function of the
    string that is hashed. *)
Record Crypto := { sha256_hex : string -> string }.

Module Hex.

Definition digit (n : nat) : ascii :=
  nth n (list_ascii_of_string "0123456789abcdef") "0"%char.

(** [buffer.toString('hex')] *)
Fixpoint encode (bytes : list Byte.byte) : string :=
  match bytes with
  | [] => EmptyString
  | b :: bytes' =>
      String (digit (Byte.to_nat b / 16))
        (String (digit (Byte.to_nat b mod 16)) (encode bytes'))
  end.

Definition is_digit (c : ascii) : bool :=
  Str.is_digit c || ((97 <=? nat_of_ascii c)%nat && (nat_of_ascii c <=? 102)%nat).

(** Reading the encoding back, to show that no two buffers share one. *)
Definition value_of (c : ascii) : nat :=
  if Str.is_digit c then nat_of_ascii c - 48 else nat_of_ascii c - 87.

Fixpoint decode (s : string) : list Byte.byte :=
  match s with
  | String hi (String lo s') =>
      match Byte.of_nat (16 * value_of hi + value_of lo) with
      | Some b => b :: decode s'
      | None => []
      end
  | _ => []
  end.

End Hex.

Section Auth.
Variable C : Crypto.

(** [hashPassword(password)]; [None] is the TypeError that [update] throws
    for an argument that is not a string. *)
Definition hashPassword (password : value) : option string :=
  match password with
  | VStr s => Some (sha256_hex C s)
  | _ => None
  end.

(** [verifyPassword(password, hashedPassword)] *)
Definition verifyPassword (password : value) (hashedPassword : string) : option bool :=
  (fun h => String.eqb h hashedPassword) <$> hashPassword password.

(** [generateToken()], with the 32 bytes that [crypto.randomBytes(32)]
    returns in this call. *)
Definition generateToken (randomBytes : list Byte.byte) : string := Hex.encode randomBytes.

(** [v.length] of a truthy JSON value: strings and arrays have one. *)
Definition js_length (v : value) : option nat :=
  match v with
  | VStr s => Some (Utf8.length16 s)
  | VArr l => Some (length l)
  | _ => None
  end.

(** [a === b] for two values parsed from a body: two arrays are two objects. *)
Definition strict_eq (a b : value) : bool :=
  match a, b with
  | VArr _, _ | _, VArr _ => false
  | _, _ => bool_decide (a = b)
  end.

(** The cast of a truthy scalar to a String path; [None] is the CastError.
    (In the filter of login, register and logout mongoose turns an array
    into [$in]; the three handlers are embedded for scalar values, and the
    embedding answers an array with the cast error.) *)
Definition cast_text (v : value) : option string :=
  match PatientModel.castString v with
  | Some (VStr s) => Some s
  | _ => None
  end.

Definition is_role (role : option value) : bool :=
  bool_decide (role = Some (VStr "doctor")) || bool_decide (role = Some (VStr "caregiver")).

(** [role === 'doctor' ? Doctor : Caregiver] *)
Definition collection_of (role : option value) (accounts : Accounts) : list Account :=
  if bool_decide (role = Some (VStr "doctor")) then doctors accounts else caregivers accounts.

Definition add_account (role : option value) (a : Account) (accounts : Accounts) : Accounts :=
  if bool_decide (role = Some (VStr "doctor"))
  then {| doctors := create a (doctors accounts); caregivers := caregivers accounts |}
  else {| doctors := doctors accounts; caregivers := create a (caregivers accounts) |}.

Definition snapshot (a : Account) : User :=
  {| u_id := a_id a; u_name := a_name a; u_email := a_email a; u_role := a_role a |}.

(** [POST /api/register]; [new_id] is the id the database gives the new
    document. *)
Definition register (now : Z) (new_id : string) (req : request) (accounts : Accounts)
    : response_more * Accounts :=
  let name := body req !! "name" in
  let email := body req !! "email" in
  let password := body req !! "password" in
  let confirmPassword := body req !! "confirmPassword" in
  let role := body req !! "role" in
  match name, email, password, confirmPassword, role with
  | Some name, Some email, Some password, Some confirmPassword, Some role_v =>
      if negb (truthy name && truthy email && truthy password
               && truthy confirmPassword && truthy role_v)
      then (reply_more 400 (Plain (Error "All fields are required")), accounts)
      else if negb (is_role role)
      then (reply_more 400 (Plain (Error "Invalid role. Must be doctor or caregiver")), accounts)
      else if match js_length password with Some n => (n <? 6)%nat | None => false end
      then (reply_more 400 (Plain (Error "Password must be at least 6 characters")), accounts)
      else if negb (strict_eq password confirmPassword)
      then (reply_more 400 (Plain (Error "Passwords do not match")), accounts)
      else if negb (Regex.test Regex.emailRegex (Utf8.decode (toText email)))
      then (reply_more 400 (Plain (Error "Invalid email format")), accounts)
      else
        let failed := (reply_more 500 (Plain (Error "Server error during registration")),
                       accounts) in
        match cast_text email with
        | None => failed
        | Some email_s =>
            match findOne (fun a => bool_decide (a_email a = email_s))
                    (collection_of role accounts) with
            | Some _ => (reply_more 409 (Plain (Error "Email already registered")), accounts)
            | None =>
                match hashPassword password, cast_text name, cast_text role_v with
                | Some hashedPassword, Some name_s, Some role_s =>
                    let user := {| a_id := new_id; a_name := name_s; a_email := email_s;
                                   a_password := hashedPassword; a_role := role_s;
                                   a_createdAt := now |} in
                    (reply_more 201 (Registered "Account created successfully" (snapshot user)),
                     add_account role user accounts)
                | _, _, _ => failed
                end
            end
        end
  | _, _, _, _, _ => (reply_more 400 (Plain (Error "All fields are required")), accounts)
  end.

(** [POST /api/login] *)
Definition login (accounts : Accounts) (now : Z) (randomBytes : list Byte.byte)
    (req : request) (st : State) : response_more * State :=
  let email := body req !! "email" in
  let password := body req !! "password" in
  let role := body req !! "role" in
  match email, password, role with
  | Some email, Some password, Some role_v =>
      if negb (truthy email && truthy password && truthy role_v)
      then (reply_more 400 (Plain (Error "Email, password, and role are required")), st)
      else if negb (is_role role)
      then (reply_more 400 (Plain (Error "Invalid role")), st)
      else
        let failed := (reply_more 500 (Plain (Error "Server error during login")), st) in
        match cast_text email with
        | None => failed
        | Some email_s =>
            match findOne (fun a => bool_decide (a_email a = email_s))
                    (collection_of role accounts) with
            | None => (reply_more 401 (Plain (Error "Invalid credentials")), st)
            | Some user =>
                match verifyPassword password (a_password user) with
                | None => failed
                | Some false => (reply_more 401 (Plain (Error "Invalid credentials")), st)
                | Some true =>
                    let token := generateToken randomBytes in
                    let expiresAt := (now + 24 * 60 * 60 * 1000)%Z in
                    let session := {| token := token; user := snapshot user;
                                      expiresAt := expiresAt |} in
                    (reply_more 200 (LoggedIn token (snapshot user)),
                     set_sessions (create session (sessions st)) st)
                end
            end
        end
  | _, _, _ => (reply_more 400 (Plain (Error "Email, password, and role are required")), st)
  end.

(** [req.headers.authorization?.replace('Bearer ', '') || req.body.token] *)
Definition logout_token (req : request) : option value :=
  match authorization req with
  | Some h =>
      let t := Str.remove_first "Bearer " h in
      if String.eqb t "" then body req !! "token" else Some (VStr t)
  | None => body req !! "token"
  end.

(** [POST /api/logout] *)
Definition logout (req : request) (st : State) : response_more * State :=
  match logout_token req with
  | Some token_v =>
      if truthy token_v then
        match cast_text token_v with
        | Some t =>
            (reply_more 200 (Message "Logged out successfully"),
             set_sessions (deleteOne (fun s => bool_decide (token s = t)) (sessions st)) st)
        | None => (reply_more 500 (Plain (Error "Server error")), st)
        end
      else (reply_more 200 (Message "Logged out successfully"), st)
  | None => (reply_more 200 (Message "Logged out successfully"), st)
  end.

End Auth.

(** ** Reading a stored record *)

(** The createdAt of a log when it is a number. *)
Definition createdAt_num (d : doc) : option Z :=
  match d !! "createdAt" with
  | Some (VNum n) => Some n
  | _ => None
  end.

(** Newest first, for logs whose createdAt is a number. *)
Definition logs_newest_first (l : list doc) : Prop :=
  StronglySorted (fun a b => (default 0 (createdAt_num b) <= default 0 (createdAt_num a))%Z) l.

Definition notes_newest_first (l : list Note) : Prop :=
  StronglySorted (fun a b => (n_createdAt b <= n_createdAt a)%Z) l.


(** The logs that generateAnalysis selects for a patient at time [now]. *)
Definition analysis_selection (E : Env) (id : string) (now : Z) (st : State) : list doc :=
  find (matches (ignoreUndefined E) (recent_logs_of (Some id) (now - week_ms))) (logs st).

(** What the migration's update makes of one patient document. *)
Definition migrated (doctors : list Account) (d : doc) : doc :=
  if matches false Migration.unassigned d
  then <["assignedDoctorIds" := VArr (map VStr (map a_email doctors))]> d
  else d.

(** ** Sample data *)

Module Sample.

(** A process with no text-generation key, the default port and the
    driver's default for undefined filter values. *)
Definition env : Env :=
  {| ignoreUndefined := false; PORT := None; OpenAI := false;
     OPENAI_API_KEY := None; OPENAI_MODEL := None;
     toLocaleDateString := fun _ => "1/1/2025";
     toLocaleTimeString := fun _ => "12:00:00 AM";
     chat := fun _ _ _ => None |}.

Definition cara : User :=
  {| u_id := "u1"; u_name := "Cara"; u_email := "cara@x"; u_role := "caregiver" |}.
Definition dora : User :=
  {| u_id := "u2"; u_name := "Dora"; u_email := "d@x"; u_role := "doctor" |}.

Definition cara_session : Session :=
  {| token := "t1"; user := cara; expiresAt := 86400000 |}.
Definition dora_session : Session :=
  {| token := "t2"; user := dora; expiresAt := 86400000 |}.

Definition request_of (tok : string) (b : doc) : request :=
  {| authorization := Some ("Bearer " +:+ tok); query_token := None; body := b |}.

(** Both users logged in at time 0. *)
Definition logged_in : State := set_sessions [cara_session; dora_session] empty_state.

(** A patient that names Dora in the legacy field and another doctor in
    the list. *)
Definition legacy_patient : doc :=
  <["assignedDoctorId" := VStr "d@x"]>
    (<["assignedDoctorIds" := VArr [VStr "other@x"]]> {[ "id" := VStr "p1" ]}).

(** Cara registers the legacy patient, then a second one. *)
Definition ward1 : State :=
  (POST_patients env (request_of "t1" legacy_patient) 1000 logged_in).2.
Definition ward : State :=
  (POST_patients env (request_of "t1" {[ "id" := VStr "p2" ]}) 2000 ward1).2.


(** A share link of p2 made at time 3000. *)
Definition ward_shared : State :=
  (POST_share env "p2" 3000 "0.4fzyo82mvyr" (request_of "t1" ∅) 3000 ward).2.

(** A log of p2 made at time 5000. *)
Definition ward_logged : State :=
  (POST_logs "p2" 5000 (request_of "t1" {[ "food" := VStr "full" ]}) 5000 ward).2.


(** A formatted log with the given food entry. *)
Definition flog (f : string) : FormattedLog :=
  {| date := "1/1/2025"; time := "12:00:00 AM"; mood := VStr "calm";
     sleep := "Not recorded"; hydration := VStr "drank water"; food := VStr f;
     medication := VStr "given"; antecedent := VStr ""; behavior := VStr "";
     consequence := VStr ""; note := VStr "" |}.

Definition data_of (logs : list FormattedLog) : PatientData :=
  {| pd_patientId := Some (VStr "p2"); patientName := VStr "Pat";
     diagnosis := VStr "Not specified"; daysAnalyzed := length logs; pd_logs := logs |}.

(** 3 of 5 logs with a full meal. *)
Definition three_of_5 : PatientData :=
  data_of (repeat (flog "full") 3 ++ repeat (flog "half") 2).

(** 16 of 23 logs with a full meal: 69.57 per cent. *)
Definition sixteen_of_23 : PatientData :=
  data_of (repeat (flog "full") 16 ++ repeat (flog "half") 7).

End Sample.

(** ** Sample accounts and requests *)

Module Cases.

(** A stand-in for the hash in the examples: it marks the text it is given. *)
Definition marking : Crypto := {| sha256_hex := fun s => "#" +:+ s |}.

(** Dora's account, with the password [secret1]. *)
Definition dora_account : Account :=
  {| a_id := "u2"; a_name := "Dora"; a_email := "d@x"; a_password := "#secret1";
     a_role := "doctor"; a_createdAt := 0 |}.

Definition accounts : Accounts := {| doctors := [dora_account]; caregivers := [] |}.

Definition login_request (password : string) : request :=
  {| authorization := None; query_token := None;
     body := <["email" := VStr "d@x"]>
               (<["password" := VStr password]> {[ "role" := VStr "doctor" ]}) |}.

(** The registration of a caregiver. *)
Definition register_request : request :=
  {| authorization := None; query_token := None;
     body := <["name" := VStr "Eve"]>
               (<["email" := VStr "eve@x.org"]>
                  (<["password" := VStr "opensesame"]>
                     (<["confirmPassword" := VStr "opensesame"]>
                        {[ "role" := VStr "caregiver" ]}))) |}.

Definition eve_account : Account :=
  {| a_id := "u9"; a_name := "Eve"; a_email := "eve@x.org"; a_password := "#opensesame";
     a_role := "caregiver"; a_createdAt := 7000 |}.

Definition eve_login : request :=
  {| authorization := None; query_token := None;
     body := <["email" := VStr "eve@x.org"]>
               (<["password" := VStr "opensesame"]> {[ "role" := VStr "caregiver" ]}) |}.

(** A draw of 32 random bytes. *)
Definition draw : list Byte.byte := repeat Byte.x5a 32.



(** Two requests to POST /api/share/p2, received at 3000 and at 3001, and
    the links they build. *)
Definition first_share : list call :=
  createShareLink_calls Sample.env (route_params "patientId" "p2") 3000 "0.4fzyo82mvyr".
Definition second_share : list call :=
  createShareLink_calls Sample.env (route_params "patientId" "p2") 3001 "0.9k2b7q1xw5c".

Definition first_link : ShareLink := new_link Sample.env "p2" 3000 "0.4fzyo82mvyr".
Definition second_link : ShareLink := new_link Sample.env "p2" 3001 "0.9k2b7q1xw5c".

(** Both requests delete before either creates. *)
Definition overlap : list call :=
  [DeleteLink (Some "p2"); DeleteLink (Some "p2");
   CreateLink first_link; CreateLink second_link].

(** The ward after the two overlapping requests. *)
Definition raced : State := perform_all Sample.env overlap Sample.ward.

End Cases.

(** * Properties *)

(** ** Collections *)

Section CollectionFacts.
Context {A : Type}.
Implicit Types (p : A -> bool) (c : list A).

Lemma deleteOne_no_match p c :
  (forall x, x ∈ c -> p x = false) -> deleteOne p c = c.
Proof.
  induction c as [|y c IH]; intros H; simpl; [done|].
  rewrite (H y) by apply list_elem_of_here.
  f_equal. apply IH. intros x Hx. apply H. by apply list_elem_of_further.
Qed.

Lemma deleteOne_elem_of p c x : x ∈ deleteOne p c -> x ∈ c.
Proof.
  induction c as [|y c IH]; simpl; [done|].
  destruct (p y); rewrite !elem_of_cons; intuition.
Qed.

Lemma deleteOne_Forall (P : A -> Prop) p c : Forall P c -> Forall P (deleteOne p c).
Proof.
  rewrite !Forall_forall. intros H x Hx. apply H. by eapply deleteOne_elem_of.
Qed.

Lemma deleteOne_fmap_sublist {B} (f : A -> B) p c :
  sublist (f <$> deleteOne p c) (f <$> c).
Proof.
  induction c as [|y c IH]; simpl; [done|].
  destruct (p y); simpl.
  - by apply sublist_cons.
  - by apply sublist_skip.
Qed.

Lemma deleteOne_NoDup {B} (f : A -> B) p c :
  NoDup (f <$> c) -> NoDup (f <$> deleteOne p c).
Proof. intros H. eapply sublist_NoDup; [done | apply deleteOne_fmap_sublist]. Qed.

(** When the elements that match all carry one key and keys are not
    repeated, nothing matches after the first match is deleted. *)
Lemma deleteOne_clears {B} (f : A -> B) (k : B) p c :
  NoDup (f <$> c) ->
  (forall x, x ∈ c -> p x = true -> f x = k) ->
  forall x, x ∈ deleteOne p c -> p x = false.
Proof.
  induction c as [|y c IH]; simpl; intros Hnd Hk x Hx; [set_solver|].
  apply NoDup_cons in Hnd as [Hy Hnd].
  destruct (p y) eqn:Hp.
  - destruct (p x) eqn:Hpx; [|done]. exfalso. apply Hy.
    rewrite (Hk y) by set_solver. rewrite <- (Hk x) by set_solver.
    by apply list_elem_of_fmap_2.
  - apply elem_of_cons in Hx as [->|Hx]; [done|].
    apply IH; [done| |done]. intros z Hz. apply Hk. set_solver.
Qed.

Lemma deleteOne_idempotent {B} (f : A -> B) (k : B) p c :
  NoDup (f <$> c) ->
  (forall x, x ∈ c -> p x = true -> f x = k) ->
  deleteOne p (deleteOne p c) = deleteOne p c.
Proof. intros Hnd Hk. apply deleteOne_no_match. by eapply deleteOne_clears. Qed.

Lemma deleteMany_idempotent p c : deleteMany p (deleteMany p c) = deleteMany p c.
Proof.
  unfold deleteMany. induction c as [|y c IH]; simpl; [done|].
  destruct (p y) eqn:Hp; simpl; [done|]. by rewrite Hp, IH.
Qed.

Lemma findOneAt_lookup p c i x : findOneAt p c = Some (i, x) -> c !! i = Some x /\ p x = true.
Proof.
  revert i. induction c as [|y c IH]; simpl; intros i H; [done|].
  destruct (p y) eqn:Hp.
  - by simplify_eq.
  - destruct (findOneAt p c) as [[j z]|]; simplify_eq. by apply IH.
Qed.

Lemma findOne_Some_elem p c x : findOne p c = Some x -> x ∈ c /\ p x = true.
Proof.
  unfold findOne. intros H. apply find_some in H as [H1 H2]. split; [|done].
  by apply list_elem_of_In.
Qed.

Lemma findOne_None_all p c : findOne p c = None -> forall x, x ∈ c -> p x = false.
Proof.
  unfold findOne. intros H x Hx. eapply find_none in H; [done|]. by apply list_elem_of_In.
Qed.



Lemma elem_of_find p c x : x ∈ find p c <-> x ∈ c /\ p x = true.
Proof.
  unfold find. by rewrite !list_elem_of_In, filter_In.
Qed.

End CollectionFacts.

(** ** The collections stay consistent *)

Section Consistency.
Variable E : Env.

Lemma route_params_lookup name segment : route_params name segment !! name = Some segment.
Proof. apply lookup_singleton_eq. Qed.

Lemma route_params_other name segment k : k <> name -> route_params name segment !! k = None.
Proof. intros H. unfold route_params. by rewrite lookup_singleton_ne. Qed.

Lemma consistent_empty : consistent empty_state.
Proof. split; simpl; constructor. Qed.

Lemma authed_consistent handler req t0 st :
  (forall u, consistent st -> consistent (handler u req st).2) ->
  consistent st -> consistent (authed handler req t0 st).2.
Proof.
  intros H Hc. unfold authed. destruct (requireAuth req t0 st); simpl; auto.
Qed.

Lemma create_consistent p c d c' :
  PatientModel.create p c = inr (d, c') ->
  Forall (fun p => exists s, patient_id p = Some (VStr s)) c ->
  NoDup (patient_id <$> c) ->
  Forall (fun p => exists s, patient_id p = Some (VStr s)) c' /\ NoDup (patient_id <$> c').
Proof.
  unfold PatientModel.create. intros H Ht Hu.
  destruct (PatientModel.cast_doc p) as [d0|]; [|done].
  destruct (PatientModel.valid d0) eqn:Hv; simpl in H; [|done].
  destruct (existsb _ c) eqn:Hex; [done|]. simplify_eq.
  unfold Mongo.create. split.
  - apply Forall_app. split; [done|]. constructor; [|constructor].
    unfold PatientModel.valid in Hv. unfold patient_id.
    destruct (d !! "id") as [[]|]; try done. by eexists.
  - rewrite fmap_app. apply NoDup_app. split_and!; [done| |apply NoDup_singleton].
    intros k Hk Hk'. apply list_elem_of_singleton in Hk'. subst k.
    apply list_elem_of_fmap in Hk as (x & Hx1 & Hx2).
    assert (existsb (fun x => bool_decide (x !! "id" = d !! "id")) c = true) as Habs.
    { apply existsb_exists. exists x. split; [by apply list_elem_of_In|].
      apply bool_decide_eq_true. by unfold patient_id in Hx1. }
    congruence.
Qed.

Lemma createPatient_consistent u req st :
  consistent st -> consistent (createPatient E u req st).2.
Proof.
  intros Hc. unfold createPatient.
  destruct (negb _); [done|].
  destruct (PatientModel.by_id _); [|done].
  destruct (findOne _ _); [done|].
  match goal with |- context [PatientModel.create ?p ?c] =>
    destruct (PatientModel.create p c) as [[]|[d c']] eqn:Hcr end; try done.
  destruct Hc as [H1 H2 H3].
  destruct (create_consistent _ _ _ _ Hcr H1 H2) as [H1' H2'].
  by split.
Qed.

Lemma assignPatient_consistent ps u req st :
  consistent st -> consistent (assignPatient E ps u req st).2.
Proof.
  intros Hc. unfold assignPatient.
  destruct (negb _); [done|].
  destruct (body req !! "doctorEmails") as [[| | | |[|e es]]|]; try done.
  destruct (PatientModel.by_id _); [|done].
  destruct (findOneAt _ _) as [[i patient]|] eqn:Hf; [|done].
  destruct (PatientModel.castStringArray _) as [l|]; [|done].
  apply findOneAt_lookup in Hf as [Hi _].
  destruct Hc as [H1 H2 H3].
  assert (patient_id (<["assignedDoctorIds" := l]> patient) = patient_id patient) as Hid.
  { unfold patient_id. by rewrite lookup_insert_ne. }
  split; simpl; try done.
  - unfold save. apply Forall_insert; [done|]. rewrite Hid.
    by eapply Forall_lookup_1 in H1.
  - unfold save. rewrite list_fmap_insert, Hid.
    rewrite list_insert_id; [done|]. by rewrite list_lookup_fmap, Hi.
Qed.

Lemma deletePatient_consistent ps u req st :
  consistent st -> consistent (deletePatient E ps u req st).2.
Proof.
  intros [H1 H2 H3]. unfold deletePatient. split; simpl.
  - by apply deleteOne_Forall.
  - by apply deleteOne_NoDup.
  - by apply deleteOne_NoDup.
Qed.


Lemma createShareLink_links_unique id t r u req st :
  NoDup (sl_patientId <$> shareLinks st) ->
  NoDup (sl_patientId <$>
           shareLinks (createShareLink E (route_params "patientId" id) t r u req st).2).
Proof.
  intros H4. unfold createShareLink. rewrite route_params_lookup. simpl.
  unfold Mongo.create. rewrite fmap_app. apply NoDup_app.
  split_and!; [by apply deleteOne_NoDup| |apply NoDup_singleton].
  intros k Hk Hk'. apply list_elem_of_singleton in Hk'. simpl in Hk'. subst k.
  apply list_elem_of_fmap in Hk as (x & Hx1 & Hx2).
  eapply (deleteOne_clears sl_patientId (Some id)) in Hx2; [|done|].
  - apply bool_decide_eq_false in Hx2. congruence.
  - intros y _ Hy. by apply bool_decide_eq_true in Hy.
Qed.

Lemma createShareLink_consistent id t r u req st :
  consistent st ->
  consistent (createShareLink E (route_params "patientId" id) t r u req st).2.
Proof.
  intros [H1 H2 H3]. split; [done|done|by apply createShareLink_links_unique].
Qed.

Lemma getShareLink_consistent ps t u req st :
  consistent st -> consistent (getShareLink E ps t u req st).2.
Proof.
  intros [H1 H2 H3]. unfold getShareLink.
  destruct (findOne _ _) as [link|]; [|done].
  destruct (_ <? _)%Z; [|done].
  split; simpl; [done|done|by apply deleteOne_NoDup].
Qed.

Lemma step_consistent st st' : consistent st -> step E st st' -> consistent st'.
Proof.
  intros Hc Hs. destruct Hs.
  - by destruct Hc.
  - apply authed_consistent; [|done]. intros. by apply createPatient_consistent.
  - apply authed_consistent; [|done]. intros. by apply assignPatient_consistent.
  - apply authed_consistent; [|done]. intros. by apply deletePatient_consistent.
  - apply authed_consistent; [|done]. intros ? [H1 H2 H3]. by split.
  - apply authed_consistent; [|done]. intros ? [H1 H2 H3]. by split.
  - apply authed_consistent; [|done]. intros. by apply createShareLink_consistent.
  - apply authed_consistent; [|done]. intros. by apply getShareLink_consistent.
Qed.

Lemma reachable_consistent st : reachable E st -> consistent st.
Proof.
  induction 1 as [|st st' _ IH Hs]; [apply consistent_empty|by eapply step_consistent].
Qed.

End Consistency.

(** ** The sample states are reachable *)

Lemma logged_in_reachable : reachable Sample.env Sample.logged_in.
Proof. eapply reachable_step; [apply reachable_init|apply step_sessions]. Qed.

Lemma ward1_reachable : reachable Sample.env Sample.ward1.
Proof. eapply reachable_step; [apply logged_in_reachable|apply step_create]. Qed.

Lemma ward_reachable : reachable Sample.env Sample.ward.
Proof. eapply reachable_step; [apply ward1_reachable|apply step_create]. Qed.

Lemma ward_shared_reachable : reachable Sample.env Sample.ward_shared.
Proof. eapply reachable_step; [apply ward_reachable|apply step_share]. Qed.

Lemma ward_logged_reachable : reachable Sample.env Sample.ward_logged.
Proof. eapply reachable_step; [apply ward_reachable|apply step_log]. Qed.




(** ** Authentication *)

(** C4, as the claim states it, fails at the instant of expiry: a session
    whose expiresAt equals the clock is present, has expiresAt <= now, and
    is accepted. *)
Lemma requireAuth_accepts_at_expiry :
  let st := Sample.logged_in in
  let now := 86400000%Z in
  Sample.cara_session ∈ sessions st
  /\ (expiresAt Sample.cara_session <= now)%Z
  /\ requireAuth (Sample.request_of "t1" ∅) now st = inr Sample.cara.
Proof.
  split_and!; [apply list_elem_of_here | done | reflexivity].
Qed.

(** C4 (amended): requireAuth lets a request through exactly when it carries
    a non-empty token, the session collection has a session under that
    token, and the first such session has expiresAt >= now; the user
    attached is that session's snapshot.  Every refusal is a 401; in
    particular a session with expiresAt < now is refused although its row is
    still stored. *)
Theorem requireAuth_valid_iff (req : request) (now : Z) (st : State) :
  (forall u,
      requireAuth req now st = inr u <->
      exists tok s,
        bearer req = Some tok /\ tok <> ""
        /\ findOne (fun s => bool_decide (token s = tok)) (sessions st) = Some s
        /\ (now <= expiresAt s)%Z /\ u = user s)
  /\ (forall r, requireAuth req now st = inl r -> status r = 401%Z)
  /\ (forall tok s,
        bearer req = Some tok -> tok <> "" ->
        findOne (fun s => bool_decide (token s = tok)) (sessions st) = Some s ->
        (expiresAt s < now)%Z ->
        s ∈ sessions st
        /\ requireAuth req now st = inl (reply 401 (Error "Invalid or expired session"))).
Proof.
  unfold requireAuth. split_and!.
  - intros u. split.
    + destruct (bearer req) as [tok|]; [|done].
      destruct (String.eqb tok "") eqn:Ht; [done|].
      destruct (findOne _ _) as [s|] eqn:Hf; [|done].
      destruct (expiresAt s <? now)%Z eqn:He; [done|].
      intros [= <-]. exists tok, s. split_and!; try done.
      * intros ->. by rewrite String.eqb_refl in Ht.
      * by apply Z.ltb_ge.
    + intros (tok & s & -> & Hne & -> & Hle & ->).
      apply String.eqb_neq in Hne. rewrite Hne.
      apply Z.ltb_ge in Hle. by rewrite Hle.
  - intros r.
    destruct (bearer req) as [tok|]; [|by intros [= <-]].
    destruct (String.eqb tok ""); [by intros [= <-]|].
    destruct (findOne _ _) as [s|]; [|by intros [= <-]].
    destruct (expiresAt s <? now)%Z; [by intros [= <-]|done].
  - intros tok s -> Hne Hf Hlt.
    apply String.eqb_neq in Hne. rewrite Hne, Hf. apply Z.ltb_lt in Hlt. rewrite Hlt.
    split; [|done]. by apply findOne_Some_elem in Hf as [? _].
Qed.

(** ** Patient visibility *)

Lemma eq_value_is_or_holds (fv : option value) (x : value) :
  eq_value fv x = true <-> is_or_holds x fv \/ (fv = None /\ x = VNull).
Proof.
  unfold eq_value, is_or_holds. destruct fv as [y|].
  - rewrite orb_true_iff, bool_decide_eq_true. split.
    + intros [->|H]; [by left; left|]. destruct y; try done.
      apply bool_decide_eq_true in H. left. right. by eexists.
    + intros [[[= ->]|(l & [= ->] & Hl)]|[? _]]; [by left| |done].
      right. by apply bool_decide_eq_true.
  - rewrite bool_decide_eq_true. split; [by right|].
    intros [[?|(l & ? & _)]|[_ ?]]; done.
Qed.

(** What the filter of the doctor branch selects, clause by clause. *)
Lemma visible_to_cases E (email : string) (p : doc) :
  matches (ignoreUndefined E) (visible_to email) p = true <->
  is_or_holds (VStr email) (p !! "assignedDoctorIds") \/ unassigned p \/ holds_null p
  \/ is_or_holds (VStr email) (p !! "assignedDoctorId").
Proof.
  unfold visible_to, unassigned, holds_null.
  cbn [matches existsb holds]. rewrite !orb_true_iff, !eq_value_is_or_holds.
  unfold is_or_holds.
  destruct (p !! "assignedDoctorIds") as [[| | | |l]|] eqn:Hids; simpl;
    rewrite ?bool_decide_eq_true; try naive_solver.
  split.
  - intros [H|[H|[H|[H|H]]]]; try naive_solver.
    right. left. left. by destruct l.
  - intros [H|[[H|[H|H]]|[H|H]]]; naive_solver.
Qed.

(** C1, as the claim states it, fails on the legacy field: a patient
    registered through POST /api/patients whose list names only another
    doctor, and whose legacy field names Dora, is listed for Dora. *)
Lemma listPatients_shows_legacy_assignment :
  let st := Sample.ward1 in
  let p := Sample.legacy_patient in
  p !! "assignedDoctorIds" = Some (VArr [VStr "other@x"])
  /\ (VStr (u_email Sample.dora) ∉ [VStr "other@x"])
  /\ fst (GET_patients Sample.env (Sample.request_of "t2" ∅) 3000 st)
     = reply 200 (Docs [p]).
Proof.
  split_and!; [reflexivity| |reflexivity].
  intros H. apply list_elem_of_singleton in H. discriminate.
Qed.

(** C1 (amended): for a doctor with email e, listPatients answers 200 with
    the stored patients, in stored order, that its filter selects.  A stored
    patient, whatever its fields hold, is in the answer exactly when its
    assignedDoctorIds holds e (or is e), or is empty, null or absent, or
    holds a null element, or its legacy assignedDoctorId is e (or holds e).
    So a patient whose assignedDoctorIds is a non-empty list of strings
    without e, and whose assignedDoctorId is absent, null or another string,
    is never in the answer. *)
Theorem listPatients_doctor (E : Env) (u : User) (req : request) (st : State) :
  u_role u = "doctor" ->
  exists found,
    listPatients E u req st = (reply 200 (Docs found), st)
    /\ found = find (matches (ignoreUndefined E) (visible_to (u_email u))) (patients st)
    /\ (forall p,
          p ∈ found <->
          p ∈ patients st
          /\ (is_or_holds (VStr (u_email u)) (p !! "assignedDoctorIds")
              \/ unassigned p \/ holds_null p
              \/ is_or_holds (VStr (u_email u)) (p !! "assignedDoctorId")))
    /\ (forall p (l : list string),
          p !! "assignedDoctorIds" = Some (VArr (VStr <$> l)) ->
          l <> [] -> u_email u ∉ l -> legacy_other (u_email u) p ->
          p ∉ found).
Proof.
  intros Hr.
  exists (find (matches (ignoreUndefined E) (visible_to (u_email u))) (patients st)).
  split_and!; [unfold listPatients; by rewrite Hr|reflexivity| |].
  - intros p. by rewrite elem_of_find, visible_to_cases.
  - intros p l Hids Hne Hnot Hleg [_ Hin]%elem_of_find.
    apply visible_to_cases in Hin.
    unfold is_or_holds, unassigned, holds_null, legacy_other in *. rewrite Hids in Hin.
    destruct Hin as [[?|(l' & [= <-] & Hin)]|[[?|[?|?]]|[(l' & [= <-] & Hin)|Hin]]];
      try done.
    + apply list_elem_of_fmap in Hin as (s & [= <-] & Hs). done.
    + destruct l; [done|discriminate].
    + apply list_elem_of_fmap in Hin as (s & ? & _). done.
    + destruct Hleg as [Hl|[Hl|(s & Hl & Hs)]]; rewrite Hl in Hin;
        destruct Hin as [?|(? & ? & _)]; try done. congruence.
Qed.

(** Dora lists the patients of the sample ward. *)
Lemma listPatients_doctor_sample :
  u_role Sample.dora = "doctor"
  /\ exists found,
       listPatients Sample.env Sample.dora (Sample.request_of "t2" ∅) Sample.ward
       = (reply 200 (Docs found), Sample.ward)
       /\ found = find (matches false (visible_to "d@x")) (patients Sample.ward)
       /\ (forall p,
             p ∈ found <->
             p ∈ patients Sample.ward
             /\ (is_or_holds (VStr "d@x") (p !! "assignedDoctorIds")
                 \/ unassigned p \/ holds_null p
                 \/ is_or_holds (VStr "d@x") (p !! "assignedDoctorId")))
       /\ (forall p (l : list string),
             p !! "assignedDoctorIds" = Some (VArr (VStr <$> l)) ->
             l <> [] -> "d@x" ∉ l -> legacy_other "d@x" p ->
             p ∉ found).
Proof.
  split; [reflexivity|].
  apply (listPatients_doctor Sample.env Sample.dora (Sample.request_of "t2" ∅) Sample.ward).
  reflexivity.
Defined.

(** ** Logs *)

Lemma log_fields_payload id now (fields : doc) k v :
  fields !! k = Some v -> log_fields id now fields !! k = Some v.
Proof. intros H. unfold log_fields. by apply lookup_union_Some_l. Qed.

Lemma log_fields_patientId id now (fields : doc) :
  fields !! "patientId" = None ->
  log_fields (Some id) now fields !! "patientId" = Some (VStr id).
Proof.
  intros H. unfold log_fields. rewrite lookup_union_r by done.
  rewrite lookup_insert_ne by done. apply lookup_singleton_eq.
Qed.

Lemma log_fields_createdAt id now (fields : doc) :
  fields !! "createdAt" = None ->
  log_fields id now fields !! "createdAt" = Some (VNum now).
Proof.
  intros H. unfold log_fields. rewrite lookup_union_r by done. apply lookup_insert_eq.
Qed.

Lemma log_fields_other id now (fields : doc) k :
  k <> "patientId" -> k <> "createdAt" ->
  log_fields (Some id) now fields !! k = fields !! k.
Proof.
  intros H1 H2. unfold log_fields.
  destruct (fields !! k) as [v|] eqn:Hk.
  - by apply lookup_union_Some_l.
  - rewrite lookup_union_r by done. rewrite lookup_insert_ne by done.
    by rewrite lookup_singleton_ne.
Qed.

(** C2, as the claim states it, fails for a payload with its own patientId
    and createdAt: the log posted to /api/logs/A is stored with the
    payload's patientId B and the payload's createdAt 7, not with the path
    parameter and the clock. *)
Lemma createLog_payload_overrides :
  let fields : doc := <["createdAt" := VNum 7]> {[ "patientId" := VStr "B" ]} in
  exists log,
    logs (createLog (route_params "patientId" "A") 1000 Sample.cara
            (Sample.request_of "t1" fields) Sample.logged_in).2 = [log]
    /\ log !! "patientId" = Some (VStr "B")
    /\ log !! "patientId" <> Some (VStr "A")
    /\ log !! "createdAt" = Some (VNum 7)
    /\ log !! "createdAt" <> Some (VNum 1000).
Proof. eexists. split_and!; [reflexivity|reflexivity|done|reflexivity|done]. Qed.

(** C2 (amended): createLog answers 201 and appends one record to the log
    collection.  Every field of the payload is stored verbatim, and the
    record has no field beyond the payload's, patientId and createdAt.  When
    the payload has no patientId key the record's patientId is the path
    parameter, and when it has no createdAt key the record's createdAt is
    the server clock at insert time; a patientId or createdAt key of the
    payload is stored in place of the path parameter or the clock. *)
Theorem createLog_stores (id : string) (now : Z) (u : User) (req : request) (st : State) :
  let log := log_fields (Some id) now (body req) in
  createLog (route_params "patientId" id) now u req st
  = (reply 201 (Doc log), set_logs (logs st ++ [log]) st)
  /\ (forall k v, body req !! k = Some v -> log !! k = Some v)
  /\ (forall k, k <> "patientId" -> k <> "createdAt" -> log !! k = body req !! k)
  /\ (body req !! "patientId" = None -> log !! "patientId" = Some (VStr id))
  /\ (body req !! "createdAt" = None -> log !! "createdAt" = Some (VNum now)).
Proof.
  intros log. split_and!.
  - unfold createLog. by rewrite route_params_lookup.
  - intros k v. apply log_fields_payload.
  - intros k. apply log_fields_other.
  - apply log_fields_patientId.
  - apply log_fields_createdAt.
Qed.

(** ** Assignment *)

(** The route pattern names its segment [id]; the handler reads
    [patientId], which the pattern does not bind, so the answer is the same
    for every path. *)
Lemma assignPatient_path_independent (E : Env) (id id' : string) u req st :
  assignPatient E (route_params "id" id) u req st
  = assignPatient E (route_params "id" id') u req st.
Proof. unfold assignPatient. by rewrite !route_params_other. Qed.

(** X29: the refusals of the handler: a caller who is not a caregiver gets 403,
    and a caregiver whose body has no non-empty doctorEmails array gets 400. *)
Lemma assignPatient_refusals (E : Env) (ps : params) u req st :
  (u_role u <> "caregiver" ->
   assignPatient E ps u req st
   = (reply 403 (Error "Only caregivers can assign patients"), st))
  /\ (u_role u = "caregiver" ->
      (forall e es, body req !! "doctorEmails" <> Some (VArr (e :: es))) ->
      assignPatient E ps u req st = (reply 400 (Error "doctorEmails array required"), st)).
Proof.
  unfold assignPatient. split.
  - intros Hr. apply String.eqb_neq in Hr. by rewrite Hr.
  - intros -> Hb. simpl.
    destruct (body req !! "doctorEmails") as [[| | | |[|e es]]|]; try done.
    by destruct (Hb e es).
Qed.

(** X28: with the driver's default for undefined filter values, no request to
    the route assigns anything: whatever the path, a caregiver with a
    well-formed list gets 404 and the collections stay as they are. *)
Lemma assignPatient_never_finds (E : Env) (id : string) u req st e es :
  reachable E st ->
  ignoreUndefined E = false ->
  u_role u = "caregiver" ->
  body req !! "doctorEmails" = Some (VArr (e :: es)) ->
  assignPatient E (route_params "id" id) u req st
  = (reply 404 (Error "Patient not found"), st).
Proof.
  intros Hr Hiu Hrole Hb. apply reachable_consistent in Hr as [Hids _ _].
  unfold assignPatient. rewrite Hrole, Hb, route_params_other by done. simpl.
  rewrite Hiu. simpl.
  destruct (findOneAt _ _) as [[i p]|] eqn:Hf; [|done].
  apply findOneAt_lookup in Hf as [Hi Hm].
  apply list_elem_of_lookup_2 in Hi.
  destruct (proj1 (Forall_forall _ _) Hids p Hi) as [s Hs].
  unfold patient_id in Hs. by rewrite Hs in Hm.
Qed.

(** C3 (code defect): Cara, a caregiver, posts the list [a@x] to
    /api/patients/p2/assign while p1 and p2 are stored.  The patient p2 is
    left as it was: with the driver's default the lookup by an undefined id
    finds nothing and the answer is 404; with ignoreUndefined set the lookup
    finds the first stored patient, p1, and p1 receives the list. *)
Theorem assignPatient_misses_patient (E : Env) :
  let req := Sample.request_of "t1" {[ "doctorEmails" := VArr [VStr "a@x"] ]} in
  let r := assignPatient E (route_params "id" "p2") Sample.cara req Sample.ward in
  (exists p1 p2,
      patients Sample.ward = [p1; p2]
      /\ patient_id p1 = Some (VStr "p1") /\ patient_id p2 = Some (VStr "p2")
      /\ p2 !! "assignedDoctorIds" = Some (VArr [])
      /\ patients r.2 !! 1%nat = Some p2)
  /\ (ignoreUndefined E = false ->
      r = (reply 404 (Error "Patient not found"), Sample.ward))
  /\ (ignoreUndefined E = true ->
      status r.1 = 200%Z
      /\ exists p1', patients r.2 !! 0%nat = Some p1'
           /\ patient_id p1' = Some (VStr "p1")
           /\ p1' !! "assignedDoctorIds" = Some (VArr [VStr "a@x"])).
Proof.
  destruct E as [iu ? ? ? ? ? ? ?]. simpl. split_and!.
  - do 2 eexists. split_and!; try reflexivity. by destruct iu.
  - by intros ->.
  - intros ->. split; [reflexivity|]. eexists. split_and!; reflexivity.
Qed.

(** ** Creating a patient *)

Lemma findOne_None_intro {A} (p : A -> bool) (c : list A) :
  (forall x, x ∈ c -> p x = false) -> findOne p c = None.
Proof.
  intros H. destruct (findOne p c) as [x|] eqn:Hf; [|done].
  apply findOne_Some_elem in Hf as [Hx Hp]. by rewrite (H x Hx) in Hp.
Qed.

Lemma eq_value_string_id (p : doc) (s : string) (c : value) :
  patient_id p = Some (VStr s) -> eq_value (p !! "id") c = bool_decide (VStr s = c).
Proof. unfold patient_id. intros ->. simpl. by rewrite orb_false_r. Qed.






(** ** Deleting a patient *)

(** C10, as the claim states it, fails in a store that holds two share
    links of one patient, as two overlapping requests to POST /api/share/p2
    leave it: the first DELETE /api/patients/p2 removes one of the links,
    and the second DELETE changes the store again, removing the other. *)
Lemma deletePatient_twice_differs :
  let first := deletePatient Sample.env (route_params "id" "p2") Sample.cara
                 (Sample.request_of "t1" ∅) Cases.raced in
  let second := deletePatient Sample.env (route_params "id" "p2") Sample.cara
                  (Sample.request_of "t1" ∅) first.2 in
  Cases.raced = perform_all Sample.env Cases.overlap Sample.ward
  /\ interleaved Cases.first_share Cases.second_share Cases.overlap
  /\ shareLinks Cases.raced = [Cases.first_link; Cases.second_link]
  /\ first.1 = reply 200 OkTrue
  /\ shareLinks first.2 = [Cases.second_link]
  /\ second.1 = reply 200 OkTrue
  /\ shareLinks second.2 = []
  /\ second.2 <> first.2.
Proof.
  split_and!; try reflexivity.
  - apply interleaved_left, interleaved_right, interleaved_left, interleaved_right,
      interleaved_nil.
  - intros H. apply (f_equal shareLinks) in H. discriminate H.
Qed.

(** C10 (amended): deletePatient answers 200 with ok for every id, stored
    or not, and never 404; invoked again on the same id, in a store in
    which every patient id is a string, no two patients share an id and no
    two share links belong to one patient, it leaves the patient, log, note
    and share-link collections as the first invocation left them. *)
Theorem deletePatient_idempotent (E : Env) (id : string) (u u' : User)
    (req req' : request) (st : State) :
  let r := deletePatient E (route_params "id" id) u req st in
  r.1 = reply 200 OkTrue
  /\ status r.1 <> 404%Z
  /\ (consistent st ->
      ((forall p, p ∈ patients st -> patient_id p <> Some (VStr id)) ->
       patients r.2 = patients st)
      /\ deletePatient E (route_params "id" id) u' req' r.2 = (reply 200 OkTrue, r.2)).
Proof.
  intros r.
  split_and!; [reflexivity|done|]. intros [H1 H2 H4]. split.
  { intros Hno. unfold r, deletePatient. rewrite route_params_lookup. simpl.
    apply deleteOne_no_match. intros x Hx.
    destruct (proj1 (Forall_forall _ _) H1 x Hx) as [s Hs].
    rewrite (eq_value_string_id x s) by done. apply bool_decide_eq_false.
    intros Heq. apply (Hno x Hx). by rewrite Hs, Heq. }
  unfold r, deletePatient. rewrite route_params_lookup. simpl.
  unfold set_shareLinks, set_notes, set_logs, set_patients. simpl.
  f_equal. f_equal.
  - apply (deleteOne_idempotent patient_id (Some (VStr id))); [done|].
    intros x Hx. destruct (proj1 (Forall_forall _ _) H1 x Hx) as [s Hs].
    rewrite (eq_value_string_id x s) by done. intros Hb%bool_decide_eq_true.
    by rewrite Hs, Hb.
  - apply deleteMany_idempotent.
  - apply (deleteMany_idempotent (fun n => bool_decide (n_patientId n = Some id))).
  - apply (deleteOne_idempotent sl_patientId (Some id)); [done|].
    intros x _ Hb. by apply bool_decide_eq_true in Hb.
Qed.

(** Cara deletes p2 from the ward with a share link; Dora deletes it again. *)
Lemma deletePatient_idempotent_sample :
  let r := deletePatient Sample.env (route_params "id" "p2") Sample.cara
             (Sample.request_of "t1" ∅) Sample.ward_shared in
  consistent Sample.ward_shared
  /\ r.1 = reply 200 OkTrue
  /\ shareLinks Sample.ward_shared <> [] /\ shareLinks r.2 = []
  /\ deletePatient Sample.env (route_params "id" "p2") Sample.dora
       (Sample.request_of "t2" ∅) r.2 = (reply 200 OkTrue, r.2).
Proof.
  intros r.
  assert (consistent Sample.ward_shared) as Hc
    by apply (reachable_consistent Sample.env), ward_shared_reachable.
  destruct (deletePatient_idempotent Sample.env "p2" Sample.cara Sample.dora
              (Sample.request_of "t1" ∅) (Sample.request_of "t2" ∅) Sample.ward_shared)
    as (Hok & _ & Hsecond).
  split_and!; [exact Hc|exact Hok|discriminate|reflexivity|apply (Hsecond Hc)].
Defined.

(** ** Share links *)

Lemma find_no_match {A} (p : A -> bool) (c : list A) :
  (forall x, x ∈ c -> p x = false) -> find p c = [].
Proof.
  induction c as [|y c IH]; intros H; simpl; [done|].
  rewrite (H y) by apply list_elem_of_here.
  apply IH. intros x Hx. apply H. by apply list_elem_of_further.
Qed.

Lemma find_app {A} (p : A -> bool) (c c' : list A) :
  find p (c ++ c') = (find p c ++ find p c')%list.
Proof. apply List.filter_app. Qed.

Lemma findOne_app_no_match {A} (p : A -> bool) (c c' : list A) :
  (forall x, x ∈ c -> p x = false) -> findOne p (c ++ c') = findOne p c'.
Proof.
  induction c as [|y c IH]; intros H; simpl; [done|].
  rewrite (H y) by apply list_elem_of_here.
  apply IH. intros x Hx. apply H. by apply list_elem_of_further.
Qed.

Lemma createShareLink_links E id t r u req st :
  NoDup (sl_patientId <$> shareLinks st) ->
  exists rest,
    createShareLink E (route_params "patientId" id) t r u req st
    = (reply 200 (Link (new_link E id t r)),
       set_shareLinks (rest ++ [new_link E id t r]) st)
    /\ forall x, x ∈ rest -> bool_decide (sl_patientId x = Some id) = false.
Proof.
  intros Hnd.
  exists (deleteOne (fun l => bool_decide (sl_patientId l = Some id)) (shareLinks st)).
  split.
  - unfold createShareLink. by rewrite route_params_lookup.
  - apply (deleteOne_clears sl_patientId (Some id)); [done|].
    intros y _ Hy. by apply bool_decide_eq_true in Hy.
Qed.

(** A request that no other request overlaps: its two calls leave the store
    as the handler, run from its first call to its answer, leaves it. *)
Lemma createShareLink_calls_alone E ps now random36 u req st :
  perform_all E (createShareLink_calls E ps now random36) st
  = (createShareLink E ps now random36 u req st).2.
Proof. reflexivity. Qed.

(** Whatever the store holds: when two requests for one patient both delete
    before either creates, both links end up stored. *)
Lemma overlap_keeps_both E id t1 r1 t2 r2 st :
  let s := [DeleteLink (Some id); DeleteLink (Some id);
            CreateLink (new_link E id t1 r1); CreateLink (new_link E id t2 r2)] in
  interleaved (createShareLink_calls E (route_params "patientId" id) t1 r1)
    (createShareLink_calls E (route_params "patientId" id) t2 r2) s
  /\ exists rest,
       shareLinks (perform_all E s st)
       = (rest ++ [new_link E id t1 r1; new_link E id t2 r2])%list.
Proof.
  split.
  - unfold createShareLink_calls. rewrite route_params_lookup.
    apply interleaved_left, interleaved_right, interleaved_left, interleaved_right,
      interleaved_nil.
  - eexists. simpl. unfold Mongo.create. by rewrite <- app_assoc.
Qed.

(** C8, as the claim states it, fails when two requests overlap.  Two
    requests to POST /api/share/p2 arrive at 3000 and at 3001; each makes
    its deleteOne and then its create, and both deletes come before both
    creates.  Afterwards two links of p2 are stored, and getShareLink
    returns the link of the first request, not the one of the second. *)
Lemma share_links_overlap :
  interleaved Cases.first_share Cases.second_share Cases.overlap
  /\ shareLinks Cases.raced = [Cases.first_link; Cases.second_link]
  /\ sl_patientId Cases.first_link = Some "p2"
  /\ sl_patientId Cases.second_link = Some "p2"
  /\ Cases.first_link <> Cases.second_link
  /\ ~ NoDup (sl_patientId <$> shareLinks Cases.raced)
  /\ getShareLink Sample.env (route_params "patientId" "p2") 3002 Sample.dora
       (Sample.request_of "t2" ∅) Cases.raced
     = (reply 200 (Link Cases.first_link), Cases.raced).
Proof.
  split_and!; try reflexivity.
  - apply interleaved_left, interleaved_right, interleaved_left, interleaved_right,
      interleaved_nil.
  - discriminate.
  - intros Hnd. apply NoDup_cons in Hnd as [Hin _]. apply Hin, list_elem_of_here.
Qed.

(** C8 (amended): in every state that the server reaches when each request
    is handled to its answer before the next one starts, no two share links
    have the same patientId.  createShareLink deletes the patient's link
    before it inserts: after two calls in a row for one patientId the
    collection holds exactly one link of that patient, it carries the code
    and the expiry of the second call, and getShareLink returns it until it
    expires. *)
Theorem share_link_exclusive (E : Env) (st : State) :
  reachable E st ->
  NoDup (sl_patientId <$> shareLinks st)
  /\ forall id t1 r1 u1 req1 t2 r2 u2 req2,
       let st1 := (createShareLink E (route_params "patientId" id) t1 r1 u1 req1 st).2 in
       let st2 := (createShareLink E (route_params "patientId" id) t2 r2 u2 req2 st1).2 in
       let link2 := new_link E id t2 r2 in
       find (fun l => bool_decide (sl_patientId l = Some id)) (shareLinks st2) = [link2]
       /\ sl_code link2 = share_code r2
       /\ sl_expiresAt link2 = (t2 + 24 * 60 * 60 * 1000)%Z
       /\ NoDup (sl_patientId <$> shareLinks st2)
       /\ forall t u req, (t <= sl_expiresAt link2)%Z ->
            getShareLink E (route_params "patientId" id) t u req st2
            = (reply 200 (Link link2), st2).
Proof.
  intros Hr. apply reachable_consistent in Hr as [_ _ Hnd]. split; [done|].
  intros id t1 r1 u1 req1 t2 r2 u2 req2 st1 st2 link2.
  assert (NoDup (sl_patientId <$> shareLinks st1)) as Hnd1
    by by apply createShareLink_links_unique.
  destruct (createShareLink_links E id t2 r2 u2 req2 st1 Hnd1) as (rest & Heq & Hrest).
  assert (shareLinks st2 = (rest ++ [link2])%list) as Hst2.
  { unfold st2. by rewrite Heq. }
  assert (bool_decide (sl_patientId link2 = Some id) = true) as Hown
    by by apply bool_decide_eq_true.
  split_and!; try done.
  - rewrite Hst2, find_app, find_no_match by done.
    unfold find. cbn [List.filter app]. by rewrite Hown.
  - by apply createShareLink_links_unique.
  - intros t u req Ht. unfold getShareLink. rewrite route_params_lookup.
    change (fun l => field_eq (ignoreUndefined E) (Some id) (sl_patientId l))
      with (fun l => bool_decide (sl_patientId l = Some id)).
    rewrite Hst2, findOne_app_no_match by done.
    unfold findOne. cbn [List.find]. rewrite Hown.
    by apply Z.ltb_ge in Ht as ->.
Qed.

(** Two links made in a row, starting from the ward with a share link. *)
Lemma share_link_exclusive_sample :
  NoDup (sl_patientId <$> shareLinks Sample.ward_shared)
  /\ forall id t1 r1 u1 req1 t2 r2 u2 req2,
       let st1 := (createShareLink Sample.env (route_params "patientId" id) t1 r1 u1 req1
                     Sample.ward_shared).2 in
       let st2 := (createShareLink Sample.env (route_params "patientId" id) t2 r2 u2 req2
                     st1).2 in
       let link2 := new_link Sample.env id t2 r2 in
       find (fun l => bool_decide (sl_patientId l = Some id)) (shareLinks st2) = [link2]
       /\ sl_code link2 = share_code r2
       /\ sl_expiresAt link2 = (t2 + 24 * 60 * 60 * 1000)%Z
       /\ NoDup (sl_patientId <$> shareLinks st2)
       /\ forall t u req, (t <= sl_expiresAt link2)%Z ->
            getShareLink Sample.env (route_params "patientId" id) t u req st2
            = (reply 200 (Link link2), st2).
Proof.
  apply (share_link_exclusive Sample.env Sample.ward_shared), ward_shared_reachable.
Defined.

Lemma toUpperCase_length s : String.length (Str.toUpperCase s) = String.length s.
Proof. induction s as [|c s IH]; simpl; [done|by rewrite IH]. Qed.

Lemma substring_length_le n m s : String.length (String.substring n m s) <= m.
Proof.
  revert n m. induction s as [|c s IH]; intros [|n] [|m]; simpl; try lia.
  - specialize (IH 0 m). lia.
  - apply (IH n 0).
  - apply (IH n (S m)).
Qed.

Lemma substring_length_full n m s :
  n + m <= String.length s -> String.length (String.substring n m s) = m.
Proof.
  revert n m. induction s as [|c s IH]; intros [|n] [|m]; simpl; try lia.
  - intros H. rewrite (IH 0 m); lia.
  - intros H. apply (IH n 0). lia.
  - intros H. apply (IH n (S m)). lia.
Qed.

Lemma forallb_prefix p m s :
  Str.forallb p s = true -> Str.forallb p (String.substring 0 m s) = true.
Proof.
  revert m. induction s as [|c s IH]; intros [|m]; simpl; try done.
  intros [Hc Hs]%andb_prop. rewrite Hc. by apply IH.
Qed.

Lemma upper_char_alnum c : base36_digit c = true -> upper_alnum (Str.upper_char c) = true.
Proof.
  destruct c as [[] [] [] [] [] [] [] []]; vm_compute; intros H; try reflexivity;
    discriminate H.
Qed.

Lemma toUpperCase_alnum s :
  Str.forallb base36_digit s = true -> Str.forallb upper_alnum (Str.toUpperCase s) = true.
Proof.
  induction s as [|c s IH]; simpl; [done|].
  intros [Hc Hs]%andb_prop. by rewrite upper_char_alnum, IH.
Qed.

(** C9 (code defect): the code is not always 6 characters long.  When
    Math.random() returns 0.5, which prints as [0.i] in base 36, the code of
    the link that createShareLink stores is the single character I; when it
    returns 0 the code is empty. *)
Lemma share_code_short :
  radix36_fraction "0.i" /\ radix36_fraction "0"
  /\ sl_code (new_link Sample.env "p2" 3000 "0.i") = "I"
  /\ String.length (sl_code (new_link Sample.env "p2" 3000 "0.i")) <> 6
  /\ (createShareLink Sample.env (route_params "patientId" "p2") 3000 "0.i" Sample.cara
        (Sample.request_of "t1" ∅) Sample.ward).1
     = reply 200 (Link (new_link Sample.env "p2" 3000 "0.i"))
  /\ sl_code (new_link Sample.env "p2" 3000 "0") = "".
Proof.
  split_and!; try reflexivity.
  - right. exists "i". split_and!; [reflexivity|discriminate|reflexivity].
  - by left.
  - discriminate.
Qed.

(** X27: what does hold of every invocation of createShareLink: the generated
    code has at most 6 characters, each an uppercase letter or a digit; it
    has exactly 6 when the base-36 rendering of the random number has at
    least 6 digits after the point; and the stored link's expiresAt is the
    creation time plus 24 hours. *)
Theorem share_code_shape (E : Env) (id : string) (t : Z) (r : string)
    (u : User) (req : request) (st : State) :
  radix36_fraction r ->
  let out := createShareLink E (route_params "patientId" id) t r u req st in
  let link := new_link E id t r in
  out.1 = reply 200 (Link link)
  /\ link ∈ shareLinks out.2
  /\ String.length (sl_code link) <= 6
  /\ Str.forallb upper_alnum (sl_code link) = true
  /\ (8 <= String.length r -> String.length (sl_code link) = 6)
  /\ sl_expiresAt link = (t + 24 * 60 * 60 * 1000)%Z.
Proof.
  intros Hr out link. split_and!.
  - unfold out, createShareLink. by rewrite route_params_lookup.
  - unfold out, createShareLink. rewrite route_params_lookup. simpl.
    unfold Mongo.create. apply elem_of_app. right. apply list_elem_of_here.
  - simpl. unfold share_code, Str.slice. rewrite toUpperCase_length.
    apply substring_length_le.
  - simpl. unfold share_code, Str.slice. apply toUpperCase_alnum.
    destruct Hr as [->|(ds & -> & _ & Hds)]; [done|].
    simpl. by apply forallb_prefix.
  - intros Hlen. simpl. unfold share_code, Str.slice. rewrite toUpperCase_length.
    apply substring_length_full. lia.
  - reflexivity.
Qed.

(** A rendering with eleven digits after the point. *)
Lemma share_code_shape_sample :
  let out := createShareLink Sample.env (route_params "patientId" "p2") 3000
               "0.4fzyo82mvyr" Sample.cara (Sample.request_of "t1" ∅) Sample.ward in
  let link := new_link Sample.env "p2" 3000 "0.4fzyo82mvyr" in
  out.1 = reply 200 (Link link)
  /\ link ∈ shareLinks out.2
  /\ String.length (sl_code link) <= 6
  /\ Str.forallb upper_alnum (sl_code link) = true
  /\ (8 <= String.length "0.4fzyo82mvyr" -> String.length (sl_code link) = 6)
  /\ sl_expiresAt link = (3000 + 24 * 60 * 60 * 1000)%Z.
Proof.
  apply (share_code_shape Sample.env "p2" 3000 "0.4fzyo82mvyr" Sample.cara
           (Sample.request_of "t1" ∅) Sample.ward).
  right. exists "4fzyo82mvyr". split_and!; [reflexivity|discriminate|reflexivity].
Defined.

(** ** The basic analysis *)

Lemma lt_ge_exclusive f k : Num.lt f k = true -> Num.ge f k = false.
Proof. destruct f as [|[]|z]; simpl; try done. lia. Qed.

Lemma recommendations_flags fp mp hp :
  let recs := Basic.recommendations fp mp hp in
  Str.includes Basic.food_flag recs = Num.lt fp 70
  /\ Str.includes Basic.med_flag recs = Num.lt mp 90
  /\ Str.includes Basic.hydration_flag recs = Num.lt hp 60
  /\ Str.includes Basic.good_plan recs
     = Num.ge fp 70 && Num.ge mp 90 && Num.ge hp 60
  /\ (Num.ge fp 70 && Num.ge mp 90 && Num.ge hp 60 = true -> recs = Basic.good_plan).
Proof.
  unfold Basic.recommendations.
  pose proof (lt_ge_exclusive fp 70) as Hf.
  pose proof (lt_ge_exclusive mp 90) as Hm.
  pose proof (lt_ge_exclusive hp 60) as Hh.
  destruct (Num.lt fp 70), (Num.lt mp 90), (Num.lt hp 60);
    try rewrite Hf by done; try rewrite Hm by done; try rewrite Hh by done;
    destruct (Num.ge fp 70), (Num.ge mp 90), (Num.ge hp 60);
    vm_compute; split_and!; try reflexivity; intros; try reflexivity; discriminate.
Qed.

Lemma hydrationCompliance_total (logs : list FormattedLog) :
  Forall (fun l => exists s, hydration l = VStr s) logs ->
  is_Some (Basic.hydrationCompliance logs).
Proof.
  intros H. unfold Basic.hydrationCompliance.
  assert (is_Some (mapM Basic.hydrated logs)) as [bs ->]; [|by eexists].
  induction H as [|l logs [s Hs] _ [bs IH]]; [by eexists|].
  assert (is_Some (Basic.hydrated l)) as [b Hb].
  { unfold Basic.hydrated. rewrite Hs. destruct (truthy (VStr s)); by eexists. }
  exists (b :: bs). simpl. rewrite Hb. simpl. by rewrite IH.
Qed.

(** Up to 200 logs, the rounded percentage that the float computation
    [((c / n) * 100).toFixed(0)] prints is below a threshold of the analysis
    exactly when the exact percentage is more than a half below it. *)
Lemma percent_thresholds_200 :
  forallb (fun n =>
     forallb (fun c =>
        let p := Num.percent c n in
        Bool.eqb (Num.lt p 70) (rounds_below 70 c n)
        && Bool.eqb (Num.lt p 90) (rounds_below 90 c n)
        && Bool.eqb (Num.lt p 60) (rounds_below 60 c n)
        && Bool.eqb (Num.ge p 70) (negb (rounds_below 70 c n))
        && Bool.eqb (Num.ge p 90) (negb (rounds_below 90 c n))
        && Bool.eqb (Num.ge p 60) (negb (rounds_below 60 c n)))
       (seq 0 (S n)))
    (seq 1 200) = true.
Proof. vm_compute. reflexivity. Qed.

Lemma percent_thresholds c n :
  0 < n <= 200 -> c <= n ->
  Num.lt (Num.percent c n) 70 = rounds_below 70 c n
  /\ Num.lt (Num.percent c n) 90 = rounds_below 90 c n
  /\ Num.lt (Num.percent c n) 60 = rounds_below 60 c n.
Proof.
  intros Hn Hc. pose proof percent_thresholds_200 as H.
  rewrite forallb_forall in H. specialize (H n ltac:(apply in_seq; lia)).
  rewrite forallb_forall in H. specialize (H c ltac:(apply in_seq; lia)).
  cbv zeta in H. rewrite !andb_true_iff in H.
  destruct H as [[[[[H1 H2] H3] _] _] _].
  by rewrite (eqb_prop _ _ H1), (eqb_prop _ _ H2), (eqb_prop _ _ H3).
Qed.

Lemma hydrationCompliance_le logs hc :
  Basic.hydrationCompliance logs = Some hc -> hc <= length logs.
Proof.
  unfold Basic.hydrationCompliance. destruct (mapM Basic.hydrated logs) as [bs|] eqn:Hbs; [|done].
  intros [= <-]. apply length_mapM in Hbs. rewrite Hbs. apply List.filter_length_le.
Qed.

Lemma foodCompliance_le logs : Basic.foodCompliance logs <= length logs.
Proof. apply List.filter_length_le. Qed.

Lemma medCompliance_le logs : Basic.medCompliance logs <= length logs.
Proof. apply List.filter_length_le. Qed.

(** C5, as the claim states it, fails between 69.5 and 70 per cent: with a
    full meal in 16 of 23 logs the percentage is 69.57, below 70, yet the
    report prints 70 per cent and has no food flag (it has the sentence to
    continue the current plan instead). *)
Lemma food_flag_absent_below_70 :
  let pd := Sample.sixteen_of_23 in
  let logs := pd_logs pd in
  length logs = 23
  /\ Basic.foodCompliance logs = 16
  /\ (100 * 16 < 70 * 23)%Z
  /\ Basic.foodPercent pd = Num.FInt 70
  /\ Basic.hydrationPercent pd = Some (Num.FInt 100)
  /\ Basic.recommendations (Basic.foodPercent pd) (Basic.medPercent pd) (Num.FInt 100)
     = Basic.good_plan
  /\ Basic.generateBasicAnalysis pd
     = Some (Basic.report_head pd (Num.FInt 100) +:+ Basic.good_plan +:+ Basic.report_tail)
  /\ Str.includes Basic.food_flag Basic.good_plan = false.
Proof. vm_compute. split_and!; reflexivity. Qed.

(** C5 (amended): for every list of selected logs whose hydration entries
    are strings, generateBasicAnalysis returns the report, and the text
    after its Recommendations heading includes the food flag iff the
    percentage of logs with food = full, rounded to the nearest integer as
    the report prints it, is below 70, the medication flag iff the rounded
    percentage with medication = given is below 90, and the hydration flag
    iff the rounded hydration percentage is below 60; when all three rounded
    percentages meet their thresholds the text is the single sentence to
    continue the current plan.  For up to 200 logs the food flag is present
    iff the exact percentage is below 69.5 (89.5 and 59.5 for the other
    two).  With food = full in 3 of 5 logs the food flag is present, and in
    8 of 10 logs it is not. *)
Theorem basic_analysis_flags (pd : PatientData) :
  Forall (fun l => exists s, hydration l = VStr s) (pd_logs pd) ->
  let logs := pd_logs pd in
  let fp := Basic.foodPercent pd in
  let mp := Basic.medPercent pd in
  exists hc,
    Basic.hydrationCompliance logs = Some hc /\ hc <= length logs /\
    let hp := Num.percent hc (length logs) in
    let recs := Basic.recommendations fp mp hp in
    Basic.generateBasicAnalysis pd
    = Some (Basic.report_head pd hp +:+ recs +:+ Basic.report_tail)
    /\ (Str.includes Basic.food_flag recs = true <-> Num.lt fp 70 = true)
    /\ (Str.includes Basic.med_flag recs = true <-> Num.lt mp 90 = true)
    /\ (Str.includes Basic.hydration_flag recs = true <-> Num.lt hp 60 = true)
    /\ (Num.ge fp 70 = true -> Num.ge mp 90 = true -> Num.ge hp 60 = true ->
        recs = Basic.good_plan)
    /\ (Str.includes Basic.good_plan recs = true <->
        Num.ge fp 70 = true /\ Num.ge mp 90 = true /\ Num.ge hp 60 = true)
    /\ (0 < length logs <= 200 ->
        (Str.includes Basic.food_flag recs = true <->
         (200 * Z.of_nat (Basic.foodCompliance logs) < 139 * Z.of_nat (length logs))%Z)
        /\ (Str.includes Basic.med_flag recs = true <->
            (200 * Z.of_nat (Basic.medCompliance logs) < 179 * Z.of_nat (length logs))%Z)
        /\ (Str.includes Basic.hydration_flag recs = true <->
            (200 * Z.of_nat hc < 119 * Z.of_nat (length logs))%Z))
    /\ (length logs = 5 -> Basic.foodCompliance logs = 3 ->
        Str.includes Basic.food_flag recs = true)
    /\ (length logs = 10 -> Basic.foodCompliance logs = 8 ->
        Str.includes Basic.food_flag recs = false).
Proof.
  intros Htyped logs fp mp.
  destruct (hydrationCompliance_total logs Htyped) as [hc Hhc].
  exists hc. split; [done|]. split; [by eapply hydrationCompliance_le|].
  intros hp recs.
  destruct (recommendations_flags fp mp hp) as (Hf & Hm & Hh & Hg & Hall).
  fold recs in Hf, Hm, Hh, Hg, Hall.
  split_and!.
  - unfold Basic.generateBasicAnalysis, Basic.hydrationPercent. fold logs.
    by rewrite Hhc.
  - by rewrite Hf.
  - by rewrite Hm.
  - by rewrite Hh.
  - intros H1 H2 H3. apply Hall. by rewrite H1, H2, H3.
  - rewrite Hg, !andb_true_iff. tauto.
  - intros Hn. rewrite Hf, Hm, Hh. unfold fp, mp, hp, Basic.foodPercent, Basic.medPercent.
    fold logs.
    destruct (percent_thresholds (Basic.foodCompliance logs) (length logs) Hn
                (foodCompliance_le _)) as (-> & _ & _).
    destruct (percent_thresholds (Basic.medCompliance logs) (length logs) Hn
                (medCompliance_le _)) as (_ & -> & _).
    destruct (percent_thresholds hc (length logs) Hn ltac:(by eapply hydrationCompliance_le))
      as (_ & _ & ->).
    unfold rounds_below. rewrite !Z.ltb_lt. split_and!; lia.
  - intros H5 H3. rewrite Hf. unfold fp, Basic.foodPercent. fold logs. by rewrite H5, H3.
  - intros H10 H8. rewrite Hf. unfold fp, Basic.foodPercent. fold logs. by rewrite H10, H8.
Qed.

(** Five logs, three of them with a full meal. *)
Lemma basic_analysis_flags_sample :
  exists recs,
    Basic.generateBasicAnalysis Sample.three_of_5
    = Some (Basic.report_head Sample.three_of_5 (Num.FInt 100) +:+ recs +:+ Basic.report_tail)
    /\ Str.includes Basic.food_flag recs = true.
Proof.
  destruct (basic_analysis_flags Sample.three_of_5) as (hc & Hhc & _ & H).
  - repeat (constructor; [by eexists|]). constructor.
  - injection Hhc as <-. cbv zeta in H.
    destruct H as (Hgen & _ & _ & _ & _ & _ & _ & H35 & _).
    eexists. split; [exact Hgen|]. by apply H35.
Defined.

(** ** The analysis route *)




(** * Further properties of the handlers *)

(** ** Sorting *)

Section SortFacts.
Context {A : Type}.
Implicit Types (before : A -> A -> bool) (c : list A).

Lemma insert_before_Permutation before x c : insert_before before x c ≡ₚ x :: c.
Proof.
  induction c as [|y c IH]; simpl; [done|].
  destruct (before y x); [|done]. rewrite IH. apply Permutation_swap.
Qed.

Lemma sort_by_Permutation before c : sort_by before c ≡ₚ c.
Proof.
  induction c as [|x c IH]; simpl; [done|].
  fold (sort_by before c). by rewrite insert_before_Permutation, IH.
Qed.

Lemma sort_by_elem_of before c x : x ∈ sort_by before c <-> x ∈ c.
Proof. by rewrite sort_by_Permutation. Qed.

(** When [before] is the strict order of a numeric key on the elements of
    the list, the result goes down along the key. *)
Lemma insert_before_sorted (key : A -> Z) before x c :
  (forall y, y ∈ c -> before y x = (key x <? key y)%Z) ->
  StronglySorted (fun a b => (key b <= key a)%Z) c ->
  StronglySorted (fun a b => (key b <= key a)%Z) (insert_before before x c).
Proof.
  induction c as [|y c IH]; intros Hb Hs; simpl.
  - repeat constructor.
  - apply StronglySorted_inv in Hs as [Hs Hy].
    rewrite (Hb y) by apply list_elem_of_here.
    destruct (key x <? key y)%Z eqn:Hlt.
    + constructor.
      * apply IH; [|done]. intros z Hz. apply Hb. by apply list_elem_of_further.
      * apply Forall_forall. intros z Hz.
        rewrite insert_before_Permutation in Hz.
        apply elem_of_cons in Hz as [->|Hz]; [apply Z.ltb_lt in Hlt; lia|].
        by eapply Forall_forall in Hy.
    + apply Z.ltb_ge in Hlt. constructor; [by constructor|].
      constructor; [done|]. eapply Forall_impl; [exact Hy|]. simpl. intros z Hz. lia.
Qed.

Lemma sort_by_sorted (key : A -> Z) before c :
  (forall x y, x ∈ c -> y ∈ c -> before y x = (key x <? key y)%Z) ->
  StronglySorted (fun a b => (key b <= key a)%Z) (sort_by before c).
Proof.
  induction c as [|x c IH]; intros Hb; simpl; [constructor|].
  fold (sort_by before c). apply insert_before_sorted.
  - intros y Hy. apply sort_by_elem_of in Hy.
    apply Hb; [apply list_elem_of_here|by apply list_elem_of_further].
  - apply IH. intros y z Hy Hz. apply Hb; by apply list_elem_of_further.
Qed.

End SortFacts.

(** ** Notes *)

Lemma find_Permutation_filter {A} (p : A -> bool) (c c' : list A) :
  c ≡ₚ c' -> find p c ≡ₚ find p c'.
Proof.
  unfold find. induction 1 as [|x l l' _ IH|x y l|l l' l'' _ IH1 _ IH2]; simpl.
  - done.
  - destruct (p x); by rewrite IH.
  - destruct (p x), (p y); try done. apply Permutation_swap.
  - by rewrite IH1.
Qed.

(** X1: listNotes answers 200 with exactly the stored notes of the patient,
    each as often as it is stored, ordered from the newest to the oldest. *)
Theorem listNotes_newest_first (E : Env) (id : string) (u : User) (req : request)
    (st : State) :
  exists found,
    listNotes E (route_params "patientId" id) u req st = reply_more 200 (Notes found)
    /\ found ≡ₚ find (fun n => bool_decide (n_patientId n = Some id)) (notes st)
    /\ (forall n, n ∈ found <-> n ∈ notes st /\ n_patientId n = Some id)
    /\ notes_newest_first found.
Proof.
  exists (sort_by note_newer
            (find (fun n => bool_decide (n_patientId n = Some id)) (notes st))).
  split; [unfold listNotes; by rewrite route_params_lookup|].
  split_and!.
  - apply sort_by_Permutation.
  - intros n. by rewrite sort_by_elem_of, elem_of_find, bool_decide_eq_true.
  - apply (sort_by_sorted n_createdAt). done.
Qed.

(** X2: a note that createNote stores is returned by listNotes for the
    patient of the path; its text is the body's note, or the empty string
    when the body has none; its createdAt is the clock; and the notes listed
    for every other patient are the same as before. *)
Theorem createNote_then_listNotes (E : Env) (id : string) (t : Z) (u u' : User)
    (req req' : request) (st : State) :
  let out := createNote (route_params "patientId" id) t u req st in
  exists note found,
    out.1 = reply 201 (NoteDoc note)
    /\ n_patientId note = Some id /\ n_createdAt note = t
    /\ n_note note = or_default (body req !! "note") ""
    /\ (body req !! "note" = None -> n_note note = VStr "")
    /\ listNotes E (route_params "patientId" id) u' req' out.2 = reply_more 200 (Notes found)
    /\ note ∈ found
    /\ length found = S (length (find (fun n => bool_decide (n_patientId n = Some id)) (notes st)))
    /\ forall id', id' <> id ->
         listNotes E (route_params "patientId" id') u' req' out.2
         = listNotes E (route_params "patientId" id') u' req' st.
Proof.
  intros out. unfold out, createNote. rewrite route_params_lookup. simpl.
  set (note := {| n_patientId := Some id; n_note := or_default (body req !! "note") "";
                  n_createdAt := t |}).
  exists note, (sort_by note_newer
                  (find (fun n => bool_decide (n_patientId n = Some id))
                     (create note (notes st)))).
  split_and!; try reflexivity.
  - intros Hn. unfold note. simpl. by rewrite Hn.
  - rewrite sort_by_elem_of, elem_of_find. split; [|by apply bool_decide_eq_true].
    unfold Mongo.create. apply elem_of_app. right. apply list_elem_of_here.
  - rewrite (Permutation_length (sort_by_Permutation _ _)).
    unfold Mongo.create, find. rewrite List.filter_app, length_app. simpl.
    rewrite bool_decide_eq_true_2 by done. simpl. lia.
  - intros id' Hne. unfold listNotes. rewrite route_params_lookup. simpl.
    unfold Mongo.create, find. rewrite List.filter_app. simpl.
    rewrite bool_decide_eq_false_2 by congruence. by rewrite app_nil_r.
Qed.

(** ** Logs *)

Lemma log_newer_numeric (x y : doc) nx ny :
  createdAt_num x = Some nx -> createdAt_num y = Some ny ->
  log_newer y x = (nx <? ny)%Z.
Proof.
  unfold createdAt_num, log_newer. intros Hx Hy.
  destruct (x !! "createdAt") as [[]|]; simplify_eq.
  destruct (y !! "createdAt") as [[]|]; simplify_eq. simpl.
  destruct (Z.compare_spec ny nx); symmetry; [apply Z.ltb_ge|apply Z.ltb_ge|apply Z.ltb_lt]; lia.
Qed.

Lemma eq_value_string_cases (fv : option value) (s : string) :
  eq_value fv (VStr s) = true <->
  fv = Some (VStr s) \/ exists a, fv = Some (VArr a) /\ VStr s ∈ a.
Proof.
  unfold eq_value. destruct fv as [x|]; [|rewrite bool_decide_eq_true; naive_solver].
  rewrite orb_true_iff, bool_decide_eq_true. split.
  - intros [->|H]; [by left|]. destruct x; try done. right. eexists. split; [done|].
    by apply bool_decide_eq_true in H.
  - intros [[= ->]|(a & [= ->] & Ha)]; [by left|right]. by apply bool_decide_eq_true.
Qed.

(** X3: listLogs answers 200 with exactly the stored logs that the filter on
    patientId selects (a log whose patientId is the path parameter, or an
    array holding it), each as often as it is stored, and leaves the
    collections alone; when the selected logs carry numeric createdAt
    values they are ordered from the newest to the oldest. *)
Theorem listLogs_newest_first (E : Env) (id : string) (u : User) (req : request)
    (st : State) :
  exists found,
    listLogs E (route_params "patientId" id) u req st = (reply 200 (Docs found), st)
    /\ found ≡ₚ find (fun d => eq_value (d !! "patientId") (VStr id)) (logs st)
    /\ (forall d, d ∈ found <->
          d ∈ logs st
          /\ (d !! "patientId" = Some (VStr id)
              \/ exists a, d !! "patientId" = Some (VArr a) /\ VStr id ∈ a))
    /\ ((forall d, d ∈ found -> is_Some (createdAt_num d)) -> logs_newest_first found).
Proof.
  exists (sort_by log_newer (find (fun d => eq_value (d !! "patientId") (VStr id)) (logs st))).
  split; [unfold listLogs; by rewrite route_params_lookup|].
  split_and!.
  - apply sort_by_Permutation.
  - intros d. by rewrite sort_by_elem_of, elem_of_find, eq_value_string_cases.
  - intros Hnum. apply (sort_by_sorted (fun d => default 0%Z (createdAt_num d))).
    intros x y Hx Hy.
    destruct (Hnum x) as [nx Hnx]; [by apply sort_by_elem_of|].
    destruct (Hnum y) as [ny Hny]; [by apply sort_by_elem_of|].
    rewrite Hnx, Hny. simpl. by apply log_newer_numeric.
Qed.

(** X4: a log that createLog stores for a payload without a patientId key
    is returned by listLogs for the patient of the path and for no other
    patient, whose list stays as it was. *)
Theorem createLog_then_listLogs (E : Env) (id : string) (t : Z) (u u' : User)
    (req req' : request) (st : State) :
  body req !! "patientId" = None ->
  let out := createLog (route_params "patientId" id) t u req st in
  exists log found,
    out.1 = reply 201 (Doc log)
    /\ listLogs E (route_params "patientId" id) u' req' out.2
       = (reply 200 (Docs found), out.2)
    /\ log ∈ found
    /\ length found
       = S (length (find (fun d => eq_value (d !! "patientId") (VStr id)) (logs st)))
    /\ forall id', id' <> id ->
         (listLogs E (route_params "patientId" id') u' req' out.2).1
         = (listLogs E (route_params "patientId" id') u' req' st).1.
Proof.
  intros Hp out. unfold out, createLog. rewrite route_params_lookup. simpl.
  set (log := log_fields (Some id) t (body req)).
  assert (log !! "patientId" = Some (VStr id)) as Hlog by by apply log_fields_patientId.
  exists log, (sort_by log_newer
                 (find (fun d => eq_value (d !! "patientId") (VStr id))
                    (create log (logs st)))).
  split_and!; try reflexivity.
  - rewrite sort_by_elem_of, elem_of_find. split.
    + unfold Mongo.create. apply elem_of_app. right. apply list_elem_of_here.
    + apply eq_value_string_cases. by left.
  - rewrite (Permutation_length (sort_by_Permutation _ _)).
    unfold Mongo.create, find. rewrite List.filter_app, length_app. simpl.
    rewrite Hlog. simpl. rewrite bool_decide_eq_true_2 by done. simpl. lia.
  - intros id' Hne. unfold listLogs. rewrite route_params_lookup. simpl.
    unfold Mongo.create, find. rewrite List.filter_app. simpl.
    rewrite Hlog. simpl. rewrite bool_decide_eq_false_2 by congruence.
    by rewrite app_nil_r.
Qed.

(** ** Who sees a patient *)

Lemma find_all {A} (c : list A) : find (fun _ => true) c = c.
Proof. unfold find. induction c as [|x c IH]; simpl; [done|by rewrite IH]. Qed.

(** X5: a caregiver is shown every stored patient, in stored order; a user
    whose role is neither caregiver nor doctor is shown none; listing never
    changes a collection. *)
Theorem listPatients_by_role (E : Env) (u : User) (req : request) (st : State) :
  (u_role u = "caregiver" ->
   listPatients E u req st = (reply 200 (Docs (patients st)), st))
  /\ (u_role u <> "caregiver" -> u_role u <> "doctor" ->
      listPatients E u req st = (reply 200 (Docs []), st))
  /\ (listPatients E u req st).2 = st.
Proof.
  unfold listPatients. split_and!; [| |done].
  - intros ->. simpl. by rewrite find_all.
  - intros H1%String.eqb_neq H2%String.eqb_neq. by rewrite H1, H2.
Qed.






(** ** What a deletion removes and what it keeps *)

Section DeleteFacts.
Context {A : Type}.
Implicit Types (p q : A -> bool) (c : list A).

Lemma deleteOne_keeps p c x : p x = false -> (x ∈ deleteOne p c <-> x ∈ c).
Proof.
  intros Hx. induction c as [|y c IH]; simpl; [done|].
  destruct (p y) eqn:Hy.
  - rewrite elem_of_cons. split; [by right|]. intros [->|H]; [congruence|done].
  - by rewrite !elem_of_cons, IH.
Qed.

Lemma find_deleteOne_other p q c :
  (forall x, q x = true -> p x = false) -> find q (deleteOne p c) = find q c.
Proof.
  intros H. unfold find. induction c as [|y c IH]; simpl; [done|].
  destruct (p y) eqn:Hy.
  - destruct (q y) eqn:Hq; [|done]. apply H in Hq. congruence.
  - simpl. by rewrite IH.
Qed.

Lemma findOne_deleteOne_other p q c :
  (forall x, q x = true -> p x = false) -> findOne q (deleteOne p c) = findOne q c.
Proof.
  intros H. unfold findOne. induction c as [|y c IH]; simpl; [done|].
  destruct (p y) eqn:Hy.
  - destruct (q y) eqn:Hq; [|done]. apply H in Hq. congruence.
  - simpl. by rewrite IH.
Qed.

Lemma find_deleteMany_other p q c :
  (forall x, q x = true -> p x = false) -> find q (deleteMany p c) = find q c.
Proof.
  intros H. unfold find, deleteMany. induction c as [|y c IH]; simpl; [done|].
  destruct (p y) eqn:Hy; simpl.
  - destruct (q y) eqn:Hq; [|done]. apply H in Hq. congruence.
  - by rewrite IH.
Qed.

Lemma find_deleteMany_same p c : find p (deleteMany p c) = [].
Proof.
  unfold find, deleteMany. induction c as [|y c IH]; simpl; [done|].
  destruct (p y) eqn:Hy; simpl; [done|]. by rewrite Hy.
Qed.

End DeleteFacts.

(** X8: in a store in which every patient id is a string, no two patients
    share an id and no two share links belong to one patient, after
    deletePatient(id) no stored patient has that id, listLogs and listNotes
    for it are empty, getShareLink and generateAnalysis for it answer 404,
    and the sessions are as before. *)
Theorem deletePatient_cascade (E : Env) (id : string) (u : User) (req : request)
    (st : State) :
  consistent st ->
  let st' := (deletePatient E (route_params "id" id) u req st).2 in
  (forall p, p ∈ patients st' -> patient_id p <> Some (VStr id))
  /\ (forall u' req',
        listLogs E (route_params "patientId" id) u' req' st' = (reply 200 (Docs []), st'))
  /\ (forall u' req',
        listNotes E (route_params "patientId" id) u' req' st' = reply_more 200 (Notes []))
  /\ (forall t u' req',
        getShareLink E (route_params "patientId" id) t u' req' st'
        = (reply 404 EmptyObject, st'))
  /\ (forall now later u' req',
        status (generateAnalysis E (route_params "patientId" id) now later u' req' st').1
        = 404%Z
        /\ (generateAnalysis E (route_params "patientId" id) now later u' req' st').2 = [])
  /\ sessions st' = sessions st.
Proof.
  intros [H1 H2 H3] st'.
  assert (forall p, p ∈ patients st' ->
            matches (ignoreUndefined E) (QField "id" (CEq (Some (VStr id)))) p = false) as Hgone.
  { unfold st', deletePatient. rewrite route_params_lookup. simpl.
    apply (deleteOne_clears patient_id (Some (VStr id))); [done|].
    intros x Hx. destruct (proj1 (Forall_forall _ _) H1 x Hx) as [s Hs].
    rewrite (eq_value_string_id x s) by done. intros Hb%bool_decide_eq_true.
    by rewrite Hs, Hb. }
  split_and!.
  - intros p Hp Hid. specialize (Hgone p Hp). simpl in Hgone.
    rewrite (eq_value_string_id p id) in Hgone by done.
    by apply bool_decide_eq_false in Hgone.
  - intros u' req'. unfold listLogs, st', deletePatient. rewrite !route_params_lookup.
    simpl. by rewrite find_deleteMany_same.
  - intros u' req'. unfold listNotes, st', deletePatient. rewrite !route_params_lookup.
    simpl. by rewrite find_deleteMany_same.
  - intros t u' req'. unfold getShareLink. rewrite route_params_lookup.
    rewrite findOne_None_intro; [done|].
    unfold st', deletePatient. rewrite route_params_lookup. simpl.
    apply (deleteOne_clears sl_patientId (Some id)); [done|].
    intros y _ Hy. by apply bool_decide_eq_true in Hy.
  - intros now later u' req'. unfold generateAnalysis. rewrite route_params_lookup.
    change (PatientModel.by_id (VStr <$> Some id))
      with (Some (QField "id" (CEq (Some (VStr id))))).
    cbv iota. by rewrite findOne_None_intro.
  - done.
Qed.

(** X9: deletePatient(id) keeps what belongs to other patients: every
    patient with another string id stays stored, and the notes, the share
    link and (when no stored log has an array as patientId) the logs that
    the read routes return for another patient id are the same as before. *)
Theorem deletePatient_frame (E : Env) (id id' : string) (u u' : User)
    (req req' : request) (st : State) :
  id' <> id ->
  let st' := (deletePatient E (route_params "id" id) u req st).2 in
  (forall p, patient_id p = Some (VStr id') -> (p ∈ patients st' <-> p ∈ patients st))
  /\ listNotes E (route_params "patientId" id') u' req' st'
     = listNotes E (route_params "patientId" id') u' req' st
  /\ (forall t,
        (getShareLink E (route_params "patientId" id') t u' req' st').1
        = (getShareLink E (route_params "patientId" id') t u' req' st).1)
  /\ (Forall log_typed (logs st) ->
      (listLogs E (route_params "patientId" id') u' req' st').1
      = (listLogs E (route_params "patientId" id') u' req' st).1).
Proof.
  intros Hne st'. unfold st', deletePatient. rewrite route_params_lookup. simpl.
  split_and!.
  - intros p Hp. apply deleteOne_keeps. simpl.
    rewrite (eq_value_string_id p id') by done. apply bool_decide_eq_false. congruence.
  - unfold listNotes. rewrite route_params_lookup. simpl.
    rewrite find_deleteMany_other; [done|].
    intros x Hx%bool_decide_eq_true. apply bool_decide_eq_false. congruence.
  - intros t. unfold getShareLink. rewrite route_params_lookup. simpl.
    rewrite findOne_deleteOne_other.
    2:{ intros x Hx%bool_decide_eq_true. apply bool_decide_eq_false. congruence. }
    destruct (findOne _ (shareLinks st)); [|done]. by destruct (_ <? _)%Z.
  - intros Htyped. unfold listLogs. rewrite route_params_lookup. simpl.
    f_equal. f_equal. f_equal.
    induction Htyped as [|d c [Hd _] _ IH]; simpl; [done|].
    destruct (eq_value (d !! "patientId") (VStr id)) eqn:Hid; simpl.
    + rewrite IH. apply eq_value_string_cases in Hid as [Hid|(a & Ha & _)].
      * rewrite Hid. simpl. rewrite bool_decide_eq_false_2 by congruence. done.
      * by destruct (Hd a).
    + by rewrite IH.
Qed.

(** ** Share links: reading *)

(** X10: getShareLink answers 200 or 404 and never hands out an expired
    link: a 200 carries the first stored link of the patient, that link
    expires at the time of the call or later, and the store is left as it
    was; a 404 leaves every link of any other owner in place. *)
Theorem getShareLink_never_expired (E : Env) (id : string) (t : Z) (u : User)
    (req : request) (st : State) :
  let out := getShareLink E (route_params "patientId" id) t u req st in
  (forall j, payload out.1 = j -> status out.1 = 200%Z ->
     exists l, j = Link l /\ l ∈ shareLinks st /\ sl_patientId l = Some id
               /\ (t <= sl_expiresAt l)%Z /\ out.2 = st)
  /\ (status out.1 = 200%Z \/ out.1 = reply 404 EmptyObject)
  /\ (forall l, sl_patientId l <> Some id -> (l ∈ shareLinks out.2 <-> l ∈ shareLinks st))
  /\ patients out.2 = patients st /\ logs out.2 = logs st
  /\ notes out.2 = notes st /\ sessions out.2 = sessions st.
Proof.
  intros out. unfold out, getShareLink. rewrite route_params_lookup. simpl.
  destruct (findOne _ (shareLinks st)) as [l|] eqn:Hf; simpl.
  - apply findOne_Some_elem in Hf as [Hl Hown%bool_decide_eq_true].
    destruct (sl_expiresAt l <? t)%Z eqn:Hexp; simpl.
    + split_and!; try done; [by right|].
      intros l' Hl'. apply deleteOne_keeps. by apply bool_decide_eq_false.
    + apply Z.ltb_ge in Hexp. split_and!; try done; [|by left].
      intros j <- _. by exists l.
  - split_and!; try done. by right.
Qed.

(** X11: in a store in which no two share links belong to one patient, a
    link made by createShareLink at time [now] is what getShareLink
    returns, with the store unchanged, at every time up to [now] plus 24
    hours; at any later time getShareLink answers 404 and removes it, so
    that no link of the patient is left and every later read answers 404 as
    well. *)
Theorem share_link_lifetime (E : Env) (id random36 : string) (now t : Z)
    (u u' : User) (req req' : request) (st : State) :
  NoDup (sl_patientId <$> shareLinks st) ->
  let st1 := (createShareLink E (route_params "patientId" id) now random36 u req st).2 in
  let out := getShareLink E (route_params "patientId" id) t u' req' st1 in
  ((t <= now + 24 * 60 * 60 * 1000)%Z ->
     out = (reply 200 (Link (new_link E id now random36)), st1))
  /\ ((now + 24 * 60 * 60 * 1000 < t)%Z ->
        out.1 = reply 404 EmptyObject
        /\ (forall l, l ∈ shareLinks out.2 -> sl_patientId l <> Some id)
        /\ forall t' u'' req'',
             getShareLink E (route_params "patientId" id) t' u'' req'' out.2
             = (reply 404 EmptyObject, out.2)).
Proof.
  intros Hnd st1 out.
  destruct (createShareLink_links E id now random36 u req st Hnd) as (rest & Heq & Hrest).
  assert (shareLinks st1 = (rest ++ [new_link E id now random36])%list) as Hst1.
  { unfold st1. by rewrite Heq. }
  assert (bool_decide (sl_patientId (new_link E id now random36) = Some id) = true) as Hown
    by by apply bool_decide_eq_true.
  assert (findOne (fun l => bool_decide (sl_patientId l = Some id)) (shareLinks st1)
          = Some (new_link E id now random36)) as Hfind.
  { rewrite Hst1, findOne_app_no_match.
    - unfold findOne. cbn [List.find]. by rewrite Hown.
    - done. }
  assert (deleteOne (fun l => bool_decide (sl_patientId l = Some id)) (shareLinks st1) = rest)
    as Hdel.
  { rewrite Hst1. clear -Hrest. induction rest as [|y rest IH]; simpl.
    - by rewrite bool_decide_eq_true_2.
    - rewrite (Hrest y) by apply list_elem_of_here.
      f_equal. apply IH. intros x Hx. apply Hrest. by apply list_elem_of_further. }
  clearbody st1. unfold out, getShareLink. rewrite route_params_lookup. simpl.
  rewrite Hfind. cbn [sl_expiresAt new_link].
  change day_ms with (24 * 60 * 60 * 1000)%Z. split.
  - intros Ht. by apply Z.ltb_ge in Ht as ->.
  - intros Ht. apply Z.ltb_lt in Ht as ->. simpl. rewrite Hdel.
    assert (forall l, l ∈ rest -> sl_patientId l <> Some id) as Hno.
    { intros l Hl. specialize (Hrest l Hl). by apply bool_decide_eq_false in Hrest. }
    split_and!; [done|done|].
    intros t' u'' req''. rewrite findOne_None_intro; [done|].
    intros x Hx. apply bool_decide_eq_false. by apply Hno.
Qed.

(** ** The analysis route: what is sent, and when it fails *)

Lemma insert_by_insert_before {A} (key : A -> Z) x (c : list A) :
  insert_by key x c = insert_before (fun y x => (key y <? key x)%Z) x c.
Proof. induction c as [|y c IH]; simpl; [done|]. by rewrite IH. Qed.

Lemma sort_asc_sort_by {A} (key : A -> Z) (c : list A) :
  sort_asc key c = sort_by (fun y x => (key y <? key x)%Z) c.
Proof.
  induction c as [|x c IH]; simpl; [done|].
  fold (sort_asc key c) (sort_by (fun y x => (key y <? key x)%Z) c).
  by rewrite IH, insert_by_insert_before.
Qed.

Lemma sort_asc_Permutation {A} (key : A -> Z) (c : list A) : sort_asc key c ≡ₚ c.
Proof. rewrite sort_asc_sort_by. apply sort_by_Permutation. Qed.

Lemma StronglySorted_weaken {A} (R R' : A -> A -> Prop) (l : list A) :
  (forall a b, R a b -> R' a b) -> StronglySorted R l -> StronglySorted R' l.
Proof.
  intros H. induction 1 as [|x l _ IH Hx]; constructor; [done|].
  eapply Forall_impl; [exact Hx|]. apply H.
Qed.

Lemma sort_asc_sorted {A} (key : A -> Z) (c : list A) :
  StronglySorted (fun a b => (key a <= key b)%Z) (sort_asc key c).
Proof.
  rewrite sort_asc_sort_by.
  eapply StronglySorted_weaken;
    [|apply (sort_by_sorted (fun a => (- key a)%Z) (fun y x => (key y <? key x)%Z))].
  - simpl. intros a b. lia.
  - intros x y _ _. destruct (key y <? key x)%Z eqn:H1, (- key x <? - key y)%Z eqn:H2;
      try done; lia.
Qed.



(** X12: generateAnalysis contacts the text-generation service at most
    once, and only when the client library is loaded and OPENAI_API_KEY is
    set.  The one prompt it sends is built from a stored patient whose id
    matches the route parameter and from exactly the stored logs that the
    seven-day filter selects for that patient, in ascending order of
    createdAt; there is at least one such log. *)
Theorem generateAnalysis_prompt (E : Env) (id : string) (now later : Z) (u : User)
    (req : request) (st : State) :
  let out := generateAnalysis E (route_params "patientId" id) now later u req st in
  out.2 = []
  \/ (OpenAI E = true /\ env_set (OPENAI_API_KEY E) = true
      /\ exists patient selected,
           out.2 = [prompt_of (patient_data E patient selected)]
           /\ patient ∈ patients st
           /\ eq_value (patient !! "id") (VStr id) = true
           /\ selected <> []
           /\ selected ≡ₚ analysis_selection E id now st
           /\ StronglySorted (fun a b => (createdAt_key a <= createdAt_key b)%Z) selected).
Proof.
  intros out. unfold out, generateAnalysis. rewrite route_params_lookup.
  change (PatientModel.by_id (VStr <$> Some id))
    with (Some (QField "id" (CEq (Some (VStr id))))).
  cbv iota.
  destruct (findOne _ (patients st)) as [patient|] eqn:Hf; [|by left].
  apply findOne_Some_elem in Hf as [Hp Hm].
  fold (analysis_selection E id now st).
  set (selected := sort_asc createdAt_key (analysis_selection E id now st)).
  destruct (length selected =? 0)%nat eqn:Hlen; [by left|].
  destruct (OpenAI E) eqn:Ho; [|by left].
  destruct (env_set (OPENAI_API_KEY E)) eqn:Hk; [|by left].
  right. split_and!; try done. exists patient, selected.
  split_and!; try done.
  - simpl. by destruct (chat E _ _ _).
  - intros Hs. by rewrite Hs in Hlen.
  - apply sort_asc_Permutation.
  - apply sort_asc_sorted.
Qed.


(** ** The migration script *)

Lemma updateMany_spec (p : doc -> bool) (key : string) (v : value) (c : list doc) :
  Migration.updateMany p key v c
  = (map (fun d => if p d then <[key := v]> d else d) c,
     length (find p c),
     length (find (fun d => p d && negb (bool_decide (d !! key = Some v))) c)).
Proof.
  unfold find. induction c as [|d c IH]; simpl; [done|].
  rewrite IH. destruct (p d); simpl; [|done].
  by destruct (bool_decide (d !! key = Some v)).
Qed.

Lemma unassigned_cases (d : doc) :
  matches false Migration.unassigned d = true
  <-> d !! "assignedDoctorIds" = None \/ d !! "assignedDoctorIds" = Some VNull
      \/ exists l, d !! "assignedDoctorIds" = Some (VArr l) /\ (l = [] \/ VNull ∈ l).
Proof.
  simpl. destruct (d !! "assignedDoctorIds") as [[| | | |l]|]; simpl;
    try (split; [done|by intros [|[|(l' & ? & _)]]]).
  - split; [by right; left|done].
  - rewrite orb_false_r. rewrite orb_true_iff, !bool_decide_eq_true. split.
    + intros [Hl|Hl]; right; right; exists l; split; try done;
        [left; by destruct l|by right].
    + intros [|[|(l' & [= <-] & [->|Hl])]]; try done; [by left|by right].
  - split; [by left|done].
Qed.

Lemma migrated_assigned (doctors : list Account) (d : doc) :
  doctors <> [] -> matches false Migration.unassigned (migrated doctors d) = false.
Proof.
  intros Hne. unfold migrated.
  destruct (matches false Migration.unassigned d) eqn:Hd; [|done].
  apply not_true_is_false. intros H. apply unassigned_cases in H.
  rewrite lookup_insert_eq in H. destruct H as [|[|(l & [= <-] & [Hl|Hl])]]; try done.
  - destruct doctors; [done|discriminate Hl].
  - apply list_elem_of_In, in_map_iff in Hl as (? & ? & _). done.
Qed.

Lemma find_map_none {A} (p : A -> bool) (f : A -> A) (c : list A) :
  (forall x, p (f x) = false) -> find p (map f c) = [].
Proof. intros H. unfold find. induction c as [|x c IH]; simpl; [done|]. by rewrite H. Qed.

Lemma map_id_on {A} (f : A -> A) (c : list A) :
  (forall x, x ∈ c -> f x = x) -> map f c = c.
Proof.
  induction c as [|x c IH]; intros H; simpl; [done|].
  rewrite (H x) by apply list_elem_of_here.
  f_equal. apply IH. intros y Hy. apply H. by apply list_elem_of_further.
Qed.

Lemma find_nil_none {A} (p : A -> bool) (c : list A) :
  find p c = [] -> forall x, x ∈ c -> p x = false.
Proof.
  unfold find. induction c as [|y c IH]; simpl; intros H x Hx; [by apply elem_of_nil in Hx|].
  destruct (p y) eqn:Hy; [done|].
  apply elem_of_cons in Hx as [->|Hx]; [done|by apply IH].
Qed.

Lemma updateMany_unassigned (doctors : list Account) (patients : list doc) :
  doctors <> [] ->
  Migration.updateMany (matches false Migration.unassigned) "assignedDoctorIds"
    (VArr (map VStr (map a_email doctors))) patients
  = (map (migrated doctors) patients,
     length (find (matches false Migration.unassigned) patients),
     length (find (matches false Migration.unassigned) patients)).
Proof.
  intros Hne. rewrite updateMany_spec. f_equal. f_equal. unfold find.
  apply List.filter_ext_in. intros d _.
  destruct (matches false Migration.unassigned d) eqn:Hd; [|done].
  rewrite bool_decide_eq_false_2; [done|]. intros Heq.
  pose proof (migrated_assigned doctors d Hne) as Hm.
  unfold migrated in Hm. rewrite Hd, insert_id in Hm by done. congruence.
Qed.

Lemma migratePatients_after (doctors : list Account) (patients : list doc) :
  doctors <> [] ->
  Migration.patients_after (Migration.migratePatients doctors patients)
  = map (migrated doctors) patients.
Proof.
  intros Hne. unfold Migration.migratePatients.
  destruct doctors as [|a doctors]; [done|].
  change (length (a :: doctors) =? 0)%nat with false. cbv iota.
  destruct (length _ =? 0)%nat eqn:Hk.
  - simpl. symmetry. apply map_id_on. intros d Hd. unfold migrated.
    rewrite (find_nil_none (matches false Migration.unassigned) patients); try done.
    apply length_zero_iff_nil. by apply Nat.eqb_eq.
  - by rewrite (updateMany_unassigned (a :: doctors) patients).
Qed.

(** X14: what a run of migratePatients does.  Without any doctor it exits
    with code 1 and leaves the patients alone.  Otherwise it exits with code
    0, gives every patient whose assignedDoctorIds is missing, null, empty
    or contains null the list of all doctor emails, changes no other
    document and no other field, keeps the stored order, and reports as
    Updated and as Matched the number of unassigned patients it found. *)
Theorem migratePatients_effect (doctors : list Account) (patients : list doc) :
  let r := Migration.migratePatients doctors patients in
  let k := length (find (matches false Migration.unassigned) patients) in
  (doctors = [] ->
     Migration.exit_code r = 1%Z /\ Migration.patients_after r = patients
     /\ Migration.updated_matched r = None)
  /\ (doctors <> [] ->
        Migration.exit_code r = 0%Z
        /\ Migration.doctors_found r = length doctors
        /\ Migration.unassigned_found r = Some k
        /\ Migration.patients_after r = map (migrated doctors) patients
        /\ Migration.updated_matched r = (if (k =? 0)%nat then None else Some (k, k))).
Proof.
  intros r k. split.
  - by intros ->.
  - intros Hne. unfold r, Migration.migratePatients.
    destruct doctors as [|a doctors]; [done|].
    change (length (a :: doctors) =? 0)%nat with false. cbv iota.
    fold k. destruct (k =? 0)%nat eqn:Hk.
    + apply Nat.eqb_eq in Hk. split_and!; try done; [by rewrite Hk|].
      simpl. symmetry. apply map_id_on. intros d Hd. unfold migrated.
      rewrite (find_nil_none (matches false Migration.unassigned) patients); try done.
      by apply length_zero_iff_nil.
    + rewrite (updateMany_unassigned (a :: doctors) patients) by done. by fold k.
Qed.

(** X15: after a run with at least one doctor no stored patient is
    unassigned, and a second run, with whatever doctors there are then,
    finds nothing to update and leaves the patients as they are. *)
Theorem migratePatients_idempotent (doctors doctors' : list Account) (patients : list doc) :
  doctors <> [] ->
  let r := Migration.migratePatients doctors patients in
  let r' := Migration.migratePatients doctors' (Migration.patients_after r) in
  (forall d, d ∈ Migration.patients_after r -> matches false Migration.unassigned d = false)
  /\ Migration.patients_after r' = Migration.patients_after r
  /\ Migration.updated_matched r' = None
  /\ (doctors' <> [] -> Migration.exit_code r' = 0%Z
                        /\ Migration.unassigned_found r' = Some 0).
Proof.
  intros Hne r r'.
  assert (Migration.patients_after r = map (migrated doctors) patients) as Hafter.
  { by apply migratePatients_after. }
  assert (find (matches false Migration.unassigned) (Migration.patients_after r) = []) as Hnone.
  { rewrite Hafter. apply find_map_none. intros d. by apply migrated_assigned. }
  split_and!.
  - by apply find_nil_none.
  - unfold r', Migration.migratePatients. destruct (length doctors' =? 0)%nat; [done|].
    by rewrite Hnone.
  - unfold r', Migration.migratePatients. destruct (length doctors' =? 0)%nat; [done|].
    by rewrite Hnone.
  - intros Hne'. unfold r', Migration.migratePatients.
    destruct doctors' as [|a' doctors']; [done|].
    change (length (a' :: doctors') =? 0)%nat with false. cbv iota.
    by rewrite Hnone.
Qed.

Lemma find_map {A} (p : A -> bool) (f : A -> A) (c : list A) :
  find p (map f c) = map f (find (fun x => p (f x)) c).
Proof.
  unfold find. induction c as [|x c IH]; simpl; [done|].
  destruct (p (f x)); simpl; by rewrite IH.
Qed.

Lemma visible_unassigned E (email : string) (d : doc) :
  matches false Migration.unassigned d = true ->
  matches (ignoreUndefined E) (visible_to email) d = true.
Proof. simpl. intros ->. by rewrite !orb_true_r. Qed.

Lemma visible_migrated E (doctors : list Account) (email : string) (d : doc) :
  doctors <> [] ->
  matches false Migration.unassigned d = true ->
  matches (ignoreUndefined E) (visible_to email) (migrated doctors d)
  = eq_value (d !! "assignedDoctorId") (VStr email)
    || bool_decide (email ∈ map a_email doctors).
Proof.
  intros Hne Hd. unfold migrated. rewrite Hd.
  pose proof (migrated_assigned doctors d Hne) as Hm. unfold migrated in Hm. rewrite Hd in Hm.
  cbn [matches visible_to existsb holds].
  rewrite lookup_insert_ne by done. rewrite lookup_insert_eq.
  f_equal.
  assert (bool_decide (VStr email ∈ map VStr (map a_email doctors))
          = bool_decide (email ∈ map a_email doctors)) as Hin.
  { apply bool_decide_ext. rewrite !list_elem_of_In, in_map_iff. split.
    - by intros (e & [= ->] & He).
    - intros He. by exists email. }
  cbn [matches Migration.unassigned existsb holds] in Hm.
  rewrite lookup_insert_eq in Hm. rewrite Hm, orb_false_r.
  cbn [eq_value]. by rewrite Hin.
Qed.

(** X16: how the migration changes what doctors are shown.  A doctor whose
    email is on the doctor list of the run is shown the same patients as
    before, in the same order, the formerly unassigned ones now carrying
    the list.  For a doctor whose email is not on it (one who registers
    later, say), every unassigned patient was shown before the run, and
    after it is shown only when its legacy field assignedDoctorId names
    that doctor. *)
Theorem migration_visibility (E : Env) (doctors : list Account) (u : User)
    (req : request) (st : State) :
  doctors <> [] ->
  u_role u = "doctor" ->
  let st' := set_patients
               (Migration.patients_after (Migration.migratePatients doctors (patients st)))
               st in
  let found := find (matches (ignoreUndefined E) (visible_to (u_email u))) (patients st) in
  listPatients E u req st = (reply 200 (Docs found), st)
  /\ (u_email u ∈ map a_email doctors ->
      listPatients E u req st' = (reply 200 (Docs (map (migrated doctors) found)), st'))
  /\ (u_email u ∉ map a_email doctors ->
      exists found',
        listPatients E u req st' = (reply 200 (Docs found'), st')
        /\ forall d, d ∈ patients st -> matches false Migration.unassigned d = true ->
             d ∈ found
             /\ (migrated doctors d ∈ found'
                 <-> eq_value (d !! "assignedDoctorId") (VStr (u_email u)) = true)).
Proof.
  intros Hne Hrole st' found.
  assert (patients st' = map (migrated doctors) (patients st)) as Hafter.
  { unfold st'. simpl. by apply migratePatients_after. }
  assert (forall s, listPatients E u req s
                    = (reply 200 (Docs (find (matches (ignoreUndefined E)
                                                (visible_to (u_email u))) (patients s))), s))
    as Hlist.
  { intros s. unfold listPatients. rewrite Hrole. done. }
  split_and!.
  - apply Hlist.
  - intros Hin. rewrite Hlist, Hafter, find_map. do 3 f_equal.
    unfold found, find. f_equal. apply List.filter_ext. intros d.
    destruct (matches false Migration.unassigned d) eqn:Hd.
    + rewrite visible_migrated, (visible_unassigned E _ d) by done.
      rewrite (bool_decide_eq_true_2 _ Hin). by rewrite orb_true_r.
    + unfold migrated. by rewrite Hd.
  - intros Hout. eexists. split; [apply Hlist|].
    intros d Hd Hun. split.
    + apply elem_of_find. split; [done|]. by apply visible_unassigned.
    + rewrite elem_of_find, Hafter, visible_migrated by done.
      rewrite (bool_decide_eq_false_2 _ Hout), orb_false_r.
      split; [by intros [_ ?]|]. intros Hleg. split; [|done].
      apply list_elem_of_In, in_map, list_elem_of_In. done.
Qed.

(** ** Session tokens *)

Lemma hex_byte (b : Byte.byte) :
  Byte.of_nat (16 * Hex.value_of (Hex.digit (Byte.to_nat b / 16))
               + Hex.value_of (Hex.digit (Byte.to_nat b mod 16))) = Some b
  /\ Hex.is_digit (Hex.digit (Byte.to_nat b / 16)) = true
  /\ Hex.is_digit (Hex.digit (Byte.to_nat b mod 16)) = true.
Proof. destruct b; vm_compute; done. Qed.

Lemma hex_decode_encode (bytes : list Byte.byte) : Hex.decode (Hex.encode bytes) = bytes.
Proof.
  induction bytes as [|b bytes IH]; [done|].
  cbn [Hex.encode Hex.decode]. destruct (hex_byte b) as (-> & _). by rewrite IH.
Qed.

(** X17: generateToken prints two lowercase hexadecimal digits per random
    byte, so that the 32 bytes it draws give a token of 64 characters, and
    two different draws never give the same token. *)
Theorem generateToken_shape (randomBytes : list Byte.byte) :
  String.length (generateToken randomBytes) = 2 * length randomBytes
  /\ Str.forallb Hex.is_digit (generateToken randomBytes) = true
  /\ (forall randomBytes', generateToken randomBytes' = generateToken randomBytes ->
        randomBytes' = randomBytes)
  /\ (generateToken randomBytes = "" <-> randomBytes = []).
Proof.
  unfold generateToken. split_and!.
  - induction randomBytes as [|b l IH]; simpl; [done|]. rewrite IH. lia.
  - induction randomBytes as [|b l IH]; [done|].
    cbn [Hex.encode Str.forallb]. destruct (hex_byte b) as (_ & -> & ->). by rewrite IH.
  - intros l' H. by rewrite <- (hex_decode_encode l'), H, hex_decode_encode.
  - by destruct randomBytes.
Qed.

(** ** Logging in and out *)

Ltac refused := right; repeat first [done | eexists | split].

(** X18: for a request whose email is a string, login changes the store
    only when it answers 200, and it answers 200 only for a password that
    is a string whose hash is the stored hash of an account of the
    requested role under that email.  It then appends one session with the
    token drawn, that account's public fields and an expiry 24 hours after
    the call, and returns the same token and fields.  Every other answer is
    an error message under 400, 401 or 500 and leaves the store as it
    was. *)
Theorem login_outcomes (C : Crypto) (accounts : Accounts) (now : Z)
    (randomBytes : list Byte.byte) (req : request) (st : State) (e : string) :
  body req !! "email" = Some (VStr e) ->
  let out := login C accounts now randomBytes req st in
  (exists a pw,
     a_email a = e
     /\ body req !! "password" = Some (VStr pw)
     /\ is_role (body req !! "role") = true
     /\ a ∈ collection_of (body req !! "role") accounts
     /\ a_password a = sha256_hex C pw
     /\ out.1 = reply_more 200 (LoggedIn (generateToken randomBytes) (snapshot a))
     /\ out.2 = set_sessions
                  (sessions st ++ [{| token := generateToken randomBytes;
                                     user := snapshot a;
                                     expiresAt := (now + 24 * 60 * 60 * 1000)%Z |}])%list st)
  \/ (exists code msg,
        out = (reply_more code (Plain (Error msg)), st)
        /\ (code = 400 \/ code = 401 \/ code = 500)%Z).
Proof.
  intros He out. unfold out, login. rewrite He.
  destruct (body req !! "password") as [password|]; [|refused; by left].
  destruct (body req !! "role") as [role_v|] eqn:Hrole; [|refused; by left].
  destruct (negb _); [refused; by left|].
  destruct (is_role (Some role_v)) eqn:Hr; simpl; [|refused; by left].
  change (cast_text (VStr e)) with (Some e). cbv iota.
  destruct (findOne _ _) as [a|] eqn:Hf; [|refused; by right; left].
  apply findOne_Some_elem in Hf as [Ha Hae%bool_decide_eq_true].
  unfold verifyPassword, hashPassword.
  destruct password as [| | |pw|]; simpl; try (refused; by right; right).
  destruct (String.eqb (sha256_hex C pw) (a_password a)) eqn:Hpw;
    [|refused; by right; left].
  apply String.eqb_eq in Hpw. left.
  exists a, pw. split_and!; done.
Qed.

Lemma findOne_unique {A B} `{EqDecision B} (f : A -> B) (k : B) (c : list A) (a : A) :
  NoDup (f <$> c) -> a ∈ c -> f a = k ->
  findOne (fun x => bool_decide (f x = k)) c = Some a.
Proof.
  induction c as [|y c IH]; simpl; intros Hnd Ha Hk; [by apply elem_of_nil in Ha|].
  apply NoDup_cons in Hnd as [Hy Hnd].
  apply elem_of_cons in Ha as [->|Ha].
  - by rewrite bool_decide_eq_true_2.
  - rewrite bool_decide_eq_false_2; [by apply IH|].
    intros Hyk. apply Hy. rewrite Hyk, <- Hk. by apply list_elem_of_fmap_2.
Qed.

(** X19: for a login request with a non-empty string as email and as
    password and a valid role, an email that no account of that role has
    and a password whose hash differs from the stored one get the same
    answer, 401 Invalid credentials, and change nothing; and when the emails
    of the role's accounts are pairwise different, the stored account's own
    credentials are always accepted. *)
Theorem login_credentials (C : Crypto) (accounts : Accounts) (now : Z)
    (randomBytes : list Byte.byte) (req : request) (st : State) (e pw : string) :
  body req !! "email" = Some (VStr e) -> e <> "" ->
  body req !! "password" = Some (VStr pw) -> pw <> "" ->
  is_role (body req !! "role") = true ->
  let out := login C accounts now randomBytes req st in
  let coll := collection_of (body req !! "role") accounts in
  let refusal := (reply_more 401 (Plain (Error "Invalid credentials")), st) in
  ((forall a, a ∈ coll -> a_email a <> e) -> out = refusal)
  /\ (forall a, findOne (fun a => bool_decide (a_email a = e)) coll = Some a ->
        a_password a <> sha256_hex C pw -> out = refusal)
  /\ (forall a, NoDup (a_email <$> coll) -> a ∈ coll -> a_email a = e ->
        a_password a = sha256_hex C pw ->
        out.1 = reply_more 200 (LoggedIn (generateToken randomBytes) (snapshot a))).
Proof.
  intros He Hne Hp Hpne Hrole out coll refusal.
  assert (exists role_v, body req !! "role" = Some role_v /\ truthy role_v = true)
    as (role_v & Hrv & Htr).
  { unfold is_role in Hrole. apply orb_prop in Hrole as [H|H];
      apply bool_decide_eq_true in H; rewrite H; by eexists. }
  assert (out = match findOne (fun a => bool_decide (a_email a = e)) coll with
                | None => refusal
                | Some a =>
                    if String.eqb (sha256_hex C pw) (a_password a)
                    then (reply_more 200 (LoggedIn (generateToken randomBytes) (snapshot a)),
                          set_sessions
                            (create {| token := generateToken randomBytes; user := snapshot a;
                                       expiresAt := (now + 24 * 60 * 60 * 1000)%Z |}
                               (sessions st)) st)
                    else refusal
                end) as Hout.
  { unfold out, login, coll. rewrite He, Hp. rewrite Hrv in Hrole |- *.
    rewrite Hrole, Htr. simpl.
    apply String.eqb_neq in Hne, Hpne. rewrite Hne, Hpne. simpl.
    destruct (findOne _ _) as [a|]; [|done].
    by destruct (String.eqb _ _). }
  split_and!.
  - intros Hno. rewrite Hout, findOne_None_intro; [done|].
    intros a Ha. apply bool_decide_eq_false. by apply Hno.
  - intros a Hf Hbad. rewrite Hout, Hf.
    destruct (String.eqb _ _) eqn:Heq; [|done]. apply String.eqb_eq in Heq. congruence.
  - intros a Hnd Ha Hae Hgood. rewrite Hout.
    rewrite (findOne_unique a_email e coll a) by done.
    rewrite Hgood, String.eqb_refl. done.
Qed.

Lemma remove_first_header (tok : string) :
  Str.remove_first "Bearer " ("Bearer " +:+ tok) = tok.
Proof. by destruct tok. Qed.

Lemma bearer_header (tok : string) (q : option string) (b : gmap string value) :
  tok <> "" ->
  bearer {| authorization := Some ("Bearer " +:+ tok); query_token := q; body := b |}
  = Some tok.
Proof.
  intros Hne. by destruct tok.
Qed.

Lemma login_200 (C : Crypto) (accounts : Accounts) (now : Z)
    (randomBytes : list Byte.byte) (req : request) (st st1 : State)
    (tok : string) (u : User) :
  login C accounts now randomBytes req st = (reply_more 200 (LoggedIn tok u), st1) ->
  tok = generateToken randomBytes
  /\ st1 = set_sessions
             (sessions st ++ [{| token := generateToken randomBytes; user := u;
                                 expiresAt := (now + 24 * 60 * 60 * 1000)%Z |}])%list st.
Proof.
  unfold login.
  destruct (body req !! "email") as [email_v|]; [|done].
  destruct (body req !! "password") as [password|]; [|done].
  destruct (body req !! "role") as [role_v|]; [|done].
  destruct (negb _); [done|]. destruct (negb _); [done|].
  destruct (cast_text email_v); [|done].
  destruct (findOne _ _) as [a|]; [|done].
  destruct (verifyPassword C password (a_password a)) as [[]|]; try done.
  by intros [= <- <- <-].
Qed.

(** X20: the token that a successful login returns, sent as a Bearer
    header, is accepted by the routes behind requireAuth up to and
    including the instant 24 hours after the login, with GET /api/me
    returning the user of the login answer, and is refused with 401 after
    it; provided the draw was not empty and no stored session already had
    that token. *)
Theorem login_then_me (C : Crypto) (accounts : Accounts) (now t : Z)
    (randomBytes : list Byte.byte) (req : request) (st st1 : State)
    (tok : string) (u : User) (q : option string) (b : gmap string value) :
  login C accounts now randomBytes req st = (reply_more 200 (LoggedIn tok u), st1) ->
  randomBytes <> [] ->
  (forall s, s ∈ sessions st -> token s <> tok) ->
  let req' := {| authorization := Some ("Bearer " +:+ tok); query_token := q; body := b |} in
  ((t <= now + 24 * 60 * 60 * 1000)%Z ->
     requireAuth req' t st1 = inr u /\ GET_me req' t st1 = reply_more 200 (Me u))
  /\ ((now + 24 * 60 * 60 * 1000 < t)%Z ->
        GET_me req' t st1 = reply_more 401 (Plain (Error "Invalid or expired session"))).
Proof.
  intros Hlogin Hbytes Hfresh req'.
  apply login_200 in Hlogin as (-> & ->).
  assert (generateToken randomBytes <> "") as Hne by by destruct randomBytes.
  assert (findOne (fun s => bool_decide (token s = generateToken randomBytes))
            (sessions st ++ [{| token := generateToken randomBytes; user := u;
                                expiresAt := (now + 24 * 60 * 60 * 1000)%Z |}])%list
          = Some {| token := generateToken randomBytes; user := u;
                    expiresAt := (now + 24 * 60 * 60 * 1000)%Z |}) as Hfind.
  { rewrite findOne_app_no_match.
    - unfold findOne. cbn [List.find token]. by rewrite bool_decide_eq_true_2.
    - intros s Hs. apply bool_decide_eq_false. by apply Hfresh. }
  assert (forall st0, requireAuth req' t
            (set_sessions (sessions st ++ [{| token := generateToken randomBytes; user := u;
                                             expiresAt := (now + 24 * 60 * 60 * 1000)%Z |}])%list
               st0)
          = if (now + 24 * 60 * 60 * 1000 <? t)%Z
            then inl (reply 401 (Error "Invalid or expired session")) else inr u) as Hauth.
  { intros st0. unfold requireAuth, req'. rewrite bearer_header by done.
    apply String.eqb_neq in Hne. rewrite Hne.
    change (sessions (set_sessions ?c st0)) with c. by rewrite Hfind. }
  split.
  - intros Ht. apply Z.ltb_ge in Ht. unfold GET_me, authed_read. rewrite Hauth, Ht. done.
  - intros Ht. apply Z.ltb_lt in Ht. unfold GET_me, authed_read. by rewrite Hauth, Ht.
Qed.

Lemma deleteOne_first {A} (p : A -> bool) (before after : list A) (x : A) :
  p x = true -> (forall y, y ∈ before -> p y = false) ->
  deleteOne p (before ++ x :: after) = (before ++ after)%list.
Proof.
  intros Hx. induction before as [|y before IH]; intros Hb; simpl.
  - by rewrite Hx.
  - rewrite (Hb y) by apply list_elem_of_here. f_equal.
    apply IH. intros z Hz. apply Hb. by apply list_elem_of_further.
Qed.

(** X21: logout with a non-empty Bearer token answers 200 and changes only
    the sessions: when no session is stored under the token nothing
    changes; otherwise the first session stored under it is removed and all
    others are kept in the stored order.  When the stored tokens are
    pairwise different, no session of the token is left, the token is
    refused by requireAuth from then on and a second logout changes
    nothing. *)
Theorem logout_revokes (tok : string) (q : option string) (b : gmap string value)
    (st : State) :
  tok <> "" ->
  let req := {| authorization := Some ("Bearer " +:+ tok); query_token := q; body := b |} in
  let out := logout req st in
  out.1 = reply_more 200 (Message "Logged out successfully")
  /\ ((forall s, s ∈ sessions st -> token s <> tok) -> out.2 = st)
  /\ (forall before s after,
        sessions st = (before ++ s :: after)%list -> token s = tok ->
        (forall x, x ∈ before -> token x <> tok) ->
        sessions out.2 = (before ++ after)%list)
  /\ patients out.2 = patients st /\ logs out.2 = logs st
  /\ notes out.2 = notes st /\ shareLinks out.2 = shareLinks st
  /\ (NoDup (token <$> sessions st) ->
      (forall s, s ∈ sessions out.2 -> token s <> tok)
      /\ (forall t, requireAuth req t out.2
                    = inl (reply 401 (Error "Invalid or expired session")))
      /\ logout req out.2 = (out.1, out.2)).
Proof.
  intros Hne req out.
  assert (forall st0, logout req st0
            = (reply_more 200 (Message "Logged out successfully"),
               set_sessions (deleteOne (fun s => bool_decide (token s = tok)) (sessions st0)) st0))
    as Hout.
  { intros st0. unfold logout, logout_token, req. cbn [authorization].
    rewrite remove_first_header.
    apply String.eqb_neq in Hne. rewrite Hne. cbn [truthy]. by rewrite Hne. }
  unfold out. rewrite Hout. cbn [fst snd]. split_and!; try done.
  - intros Hno. destruct st as [ps ls ns ks ss]. unfold set_sessions. simpl in *.
    f_equal. apply deleteOne_no_match. intros s Hs. apply bool_decide_eq_false.
    by apply Hno.
  - intros before s after Hst Hs Hbefore. simpl. rewrite Hst.
    apply deleteOne_first; [by apply bool_decide_eq_true|].
    intros x Hx. apply bool_decide_eq_false. by apply Hbefore.
  - intros Hnd.
    assert (forall s, s ∈ deleteOne (fun s => bool_decide (token s = tok)) (sessions st) ->
                      bool_decide (token s = tok) = false) as Hgone.
    { apply (deleteOne_clears token tok); [done|].
      intros s _ H. by apply bool_decide_eq_true in H. }
    split_and!.
    + intros s Hs. simpl in Hs. apply Hgone in Hs. by apply bool_decide_eq_false in Hs.
    + intros t. unfold requireAuth, req. rewrite bearer_header by done.
      apply String.eqb_neq in Hne. rewrite Hne. simpl.
      by rewrite findOne_None_intro.
    + rewrite Hout. simpl. by rewrite (deleteOne_no_match _ _ Hgone).
Qed.

(** ** Registration *)

Lemma toText_cast_text (v : value) (s : string) : cast_text v = Some s -> toText v = s.
Proof.
  unfold cast_text. destruct v as [|[]| | |]; simpl; try done; by intros [= <-].
Qed.

(** What a 201 of register means. *)
Lemma register_201 (C : Crypto) (now : Z) (new_id : string) (req : request)
    (accounts accounts' : Accounts) (message : string) (u : User) :
  register C now new_id req accounts = (reply_more 201 (Registered message u), accounts') ->
  exists name_v email_v pw role_v a,
    body req !! "name" = Some name_v /\ body req !! "email" = Some email_v
    /\ body req !! "password" = Some (VStr pw)
    /\ body req !! "confirmPassword" = Some (VStr pw)
    /\ body req !! "role" = Some role_v
    /\ truthy name_v = true /\ truthy email_v = true /\ truthy role_v = true /\ pw <> ""
    /\ is_role (Some role_v) = true
    /\ 6 <= Utf8.length16 pw
    /\ Regex.test Regex.emailRegex (Utf8.decode (a_email a)) = true
    /\ findOne (fun x => bool_decide (a_email x = a_email a)) (collection_of (Some role_v) accounts)
       = None
    /\ cast_text name_v = Some (a_name a) /\ cast_text email_v = Some (a_email a)
    /\ cast_text role_v = Some (a_role a)
    /\ a_id a = new_id /\ a_password a = sha256_hex C pw /\ a_createdAt a = now
    /\ u = snapshot a /\ accounts' = add_account (Some role_v) a accounts.
Proof.
  unfold register.
  destruct (body req !! "name") as [name_v|]; [|done].
  destruct (body req !! "email") as [email_v|]; [|done].
  destruct (body req !! "password") as [password|]; [|done].
  destruct (body req !! "confirmPassword") as [confirm|]; [|done].
  destruct (body req !! "role") as [role_v|]; [|done].
  destruct (truthy name_v) eqn:Hn; [|done].
  destruct (truthy email_v) eqn:He; [|done].
  destruct (truthy password) eqn:Hp; [|done].
  destruct (truthy confirm) eqn:Hc; [|done].
  destruct (truthy role_v) eqn:Hr; [|done]. cbn [andb negb].
  destruct (is_role (Some role_v)) eqn:Hrole; [|done]. cbn [negb].
  destruct (match js_length password with Some n => (n <? 6)%nat | None => false end)
    eqn:Hlen; [done|].
  destruct (strict_eq password confirm) eqn:Heq; [|done]. cbn [negb].
  destruct (Regex.test _ _) eqn:Hre; [|done]. cbn [negb].
  destruct (cast_text email_v) as [email_s|] eqn:Hce; [|done].
  destruct (findOne _ _) eqn:Hf; [done|].
  destruct (hashPassword C password) as [h|] eqn:Hh; [|done].
  destruct (cast_text name_v) as [name_s|] eqn:Hcn; [|done].
  destruct (cast_text role_v) as [role_s|] eqn:Hcr; [|done].
  intros [= <- <- <-].
  destruct password as [| | |pw|]; try done. injection Hh as <-.
  destruct confirm as [| | |pw'|]; try done.
  apply bool_decide_eq_true in Heq as [= <-].
  rewrite (toText_cast_text _ _ Hce) in Hre.
  exists name_v, email_v, pw, role_v,
    {| a_id := new_id; a_name := name_s; a_email := email_s;
       a_password := sha256_hex C pw; a_role := role_s; a_createdAt := now |}.
  split_and!; try done.
  - intros ->. done.
  - simpl in Hlen. apply Nat.ltb_ge in Hlen. done.
Qed.

(** X22: register adds an account only when it answers 201.  It then adds
    exactly one, to the collection of the requested role, under an email
    that matches the email pattern and that no account of that collection
    had, with the hash of a password of at least 6 UTF-16 code units that
    equals its confirmation; the answer carries the account's id, name,
    email and role.  Every other answer is an error message under 400, 409
    or 500 and leaves the accounts as they were. *)
Theorem register_outcomes (C : Crypto) (now : Z) (new_id : string) (req : request)
    (accounts : Accounts) :
  let out := register C now new_id req accounts in
  (exists a pw,
     out = (reply_more 201 (Registered "Account created successfully" (snapshot a)),
            add_account (body req !! "role") a accounts)
     /\ body req !! "password" = Some (VStr pw)
     /\ body req !! "confirmPassword" = Some (VStr pw)
     /\ 6 <= Utf8.length16 pw
     /\ a_password a = sha256_hex C pw
     /\ (a_role a = "doctor" \/ a_role a = "caregiver")
     /\ body req !! "role" = Some (VStr (a_role a))
     /\ Regex.test Regex.emailRegex (Utf8.decode (a_email a)) = true
     /\ (forall x, x ∈ collection_of (body req !! "role") accounts -> a_email x <> a_email a)
     /\ a_id a = new_id /\ a_createdAt a = now)
  \/ (exists code msg,
        out = (reply_more code (Plain (Error msg)), accounts)
        /\ (code = 400 \/ code = 409 \/ code = 500)%Z).
Proof.
  intros out. unfold out, register.
  destruct (body req !! "name") as [name_v|]; [|refused; by left].
  destruct (body req !! "email") as [email_v|]; [|refused; by left].
  destruct (body req !! "password") as [password|]; [|refused; by left].
  destruct (body req !! "confirmPassword") as [confirm|]; [|refused; by left].
  destruct (body req !! "role") as [role_v|]; [|refused; by left].
  destruct (negb _); [refused; by left|].
  destruct (is_role (Some role_v)) eqn:Hrole; [|refused; by left]. cbn [negb].
  destruct (match js_length password with Some n => (n <? 6)%nat | None => false end)
    eqn:Hlen; [refused; by left|].
  destruct (strict_eq password confirm) eqn:Heq; [|refused; by left]. cbn [negb].
  destruct (Regex.test _ _) eqn:Hre; [|refused; by left]. cbn [negb].
  destruct (cast_text email_v) as [email_s|] eqn:Hce; [|refused; by right; right].
  destruct (findOne _ _) eqn:Hf; [refused; by right; left|].
  destruct (hashPassword C password) as [h|] eqn:Hh; [|refused; by right; right].
  destruct (cast_text name_v) as [name_s|] eqn:Hcn; [|refused; by right; right].
  destruct (cast_text role_v) as [role_s|] eqn:Hcr; [|refused; by right; right].
  left.
  destruct password as [| | |pw|]; try done. injection Hh as <-.
  destruct confirm as [| | |pw'|]; try done.
  apply bool_decide_eq_true in Heq as [= <-].
  rewrite (toText_cast_text _ _ Hce) in Hre.
  assert (role_v = VStr role_s /\ (role_s = "doctor" \/ role_s = "caregiver")) as [-> Hrs].
  { unfold is_role in Hrole. apply orb_prop in Hrole as [H|H];
      apply bool_decide_eq_true in H; injection H as ->; injection Hcr as <-; auto. }
  exists {| a_id := new_id; a_name := name_s; a_email := email_s;
            a_password := sha256_hex C pw; a_role := role_s; a_createdAt := now |}, pw.
  split_and!; try done.
  - simpl in Hlen. by apply Nat.ltb_ge in Hlen.
  - intros x Hx. pose proof (findOne_None_all _ _ Hf x Hx) as Hno.
    by apply bool_decide_eq_false in Hno.
Qed.

Lemma register_changes (C : Crypto) (now : Z) (new_id : string) (req : request)
    (accounts : Accounts) :
  (register C now new_id req accounts).2 = accounts
  \/ exists message u accounts',
       register C now new_id req accounts = (reply_more 201 (Registered message u), accounts').
Proof.
  unfold register.
  destruct (body req !! "name") as [name_v|]; [|by left].
  destruct (body req !! "email") as [email_v|]; [|by left].
  destruct (body req !! "password") as [password|]; [|by left].
  destruct (body req !! "confirmPassword") as [confirm|]; [|by left].
  destruct (body req !! "role") as [role_v|]; [|by left].
  destruct (negb _); [by left|]. destruct (negb _); [by left|].
  destruct (match js_length password with Some n => (n <? 6)%nat | None => false end);
    [by left|].
  destruct (negb _); [by left|]. destruct (negb _); [by left|].
  destruct (cast_text email_v); [|by left].
  destruct (findOne _ _); [by left|].
  destruct (hashPassword C password); [|by left].
  destruct (cast_text name_v); [|by left].
  destruct (cast_text role_v); [|by left].
  right. by repeat eexists.
Qed.

Lemma NoDup_snoc_fresh {A B} (f : A -> B) (c : list A) (a : A) :
  NoDup (f <$> c) -> (forall x, x ∈ c -> f x <> f a) -> NoDup (f <$> (c ++ [a])%list).
Proof.
  intros Hnd Hfresh. rewrite fmap_app. apply NoDup_app. split_and!; [done| |].
  - intros y Hy Hy'. simpl in Hy'. apply list_elem_of_singleton in Hy' as ->.
    apply list_elem_of_fmap in Hy as (x & Hx & Hin). by apply (Hfresh x Hin).
  - simpl. apply NoDup_singleton.
Qed.

(** X23: registration keeps the emails of the doctors pairwise different,
    and likewise those of the caregivers, and touches only the collection
    of the requested role: registering a caregiver never changes the
    doctors, and the other way round. *)
Theorem register_emails_unique (C : Crypto) (now : Z) (new_id : string) (req : request)
    (accounts : Accounts) :
  NoDup (a_email <$> doctors accounts) ->
  NoDup (a_email <$> caregivers accounts) ->
  let out := register C now new_id req accounts in
  NoDup (a_email <$> doctors out.2)
  /\ NoDup (a_email <$> caregivers out.2)
  /\ (body req !! "role" = Some (VStr "doctor") -> caregivers out.2 = caregivers accounts)
  /\ (body req !! "role" <> Some (VStr "doctor") -> doctors out.2 = doctors accounts).
Proof.
  intros Hd Hc out. unfold out.
  destruct (register_changes C now new_id req accounts) as [->|(m & u & accounts' & Heq)];
    [done|].
  rewrite Heq. cbn [snd].
  apply register_201 in Heq
    as (name_v & email_v & pw & role_v & a & _ & _ & _ & _ & Hrole & _ & _ & _ & _ & _ & _ & _
        & Hf & _ & _ & _ & _ & _ & _ & _ & ->).
  rewrite Hrole. unfold add_account, collection_of in *.
  assert (forall x, x ∈ (if bool_decide (Some role_v = Some (VStr "doctor"))
                         then doctors accounts else caregivers accounts) ->
                    a_email x <> a_email a) as Hfresh.
  { intros x Hx. pose proof (findOne_None_all _ _ Hf x Hx) as Hno.
    by apply bool_decide_eq_false in Hno. }
  destruct (bool_decide (Some role_v = Some (VStr "doctor"))) eqn:Hdoc; simpl.
  - apply bool_decide_eq_true in Hdoc. split_and!; try done. by apply NoDup_snoc_fresh.
  - apply bool_decide_eq_false in Hdoc. split_and!; try done. by apply NoDup_snoc_fresh.
Qed.

(** X24: an account that register has just created can log in: a login
    request with the email, password and role of the registration request
    is answered 200 with the user of the registration answer. *)
Theorem register_then_login (C : Crypto) (now now' : Z) (new_id : string)
    (randomBytes : list Byte.byte) (req req' : request) (accounts accounts' : Accounts)
    (message : string) (u : User) (st : State) :
  register C now new_id req accounts = (reply_more 201 (Registered message u), accounts') ->
  body req' !! "email" = body req !! "email" ->
  body req' !! "password" = body req !! "password" ->
  body req' !! "role" = body req !! "role" ->
  (login C accounts' now' randomBytes req' st).1
  = reply_more 200 (LoggedIn (generateToken randomBytes) u).
Proof.
  intros Hreg He Hp Hr.
  apply register_201 in Hreg
    as (name_v & email_v & pw & role_v & a & _ & Hemail & Hpw & _ & Hrole & _ & Hte & Htr & Hpne
        & Hisrole & _ & _ & Hf & _ & Hce & _ & _ & Hhash & _ & -> & ->).
  unfold login. rewrite He, Hp, Hr, Hemail, Hpw, Hrole. rewrite Hisrole, Hte, Htr.
  cbn [truthy]. apply String.eqb_neq in Hpne. rewrite Hpne. cbn [negb andb].
  rewrite Hce.
  assert (findOne (fun x => bool_decide (a_email x = a_email a))
            (collection_of (Some role_v) (add_account (Some role_v) a accounts)) = Some a)
    as ->.
  { unfold collection_of, add_account in *.
    destruct (bool_decide (Some role_v = Some (VStr "doctor"))); cbn [doctors caregivers];
      unfold create;
      (rewrite findOne_app_no_match; [by simpl; rewrite bool_decide_eq_true_2|];
       by apply findOne_None_all). }
  unfold verifyPassword, hashPassword. simpl. by rewrite Hhash, String.eqb_refl.
Qed.

(** ** The email pattern *)

Section RegexFacts.
Import Regex.

Lemma nullable_lang r : nullable r = true <-> lang r [].
Proof.
  split.
  - induction r; simpl; intros H; try done.
    + constructor.
    + apply andb_prop in H as [H1 H2]. apply (lang_cat _ _ [] []); auto.
    + apply orb_prop in H as [H|H]; [apply lang_alt_l|apply lang_alt_r]; auto.
    + constructor.
  - intros H. remember [] as w eqn:Hw. induction H; simpl; try done.
    + apply app_eq_nil in Hw as [-> ->]. by rewrite IHlang1, IHlang2.
    + by rewrite IHlang.
    + rewrite IHlang by done. apply orb_true_r.
Qed.

Lemma lang_star_cons_inv r c w :
  lang (Star r) (c :: w) ->
  exists w1 w2, w = (w1 ++ w2)%list /\ lang r (c :: w1) /\ lang (Star r) w2.
Proof.
  intros H. remember (Star r) as s eqn:Hs. remember (c :: w) as cw eqn:Hcw.
  revert w Hcw. induction H as [| | | | | |r' w1 w2 H1 _ H2 IH2]; intros w' Hcw; try done.
  injection Hs as ->.
  destruct w1 as [|c' w1]; simpl in Hcw.
  - by apply IH2.
  - injection Hcw as -> <-. by exists w1, w2.
Qed.

Lemma deriv_lang c r w : lang (deriv c r) w <-> lang r (c :: w).
Proof.
  revert w. induction r as [| |p|r1 IH1 r2 IH2|r1 IH1 r2 IH2|r IH]; intros w; simpl.
  - split; inversion 1.
  - split; inversion 1.
  - destruct (p c) eqn:Hp; split; inversion 1; subst.
    + by constructor.
    + constructor.
    + congruence.
  - assert (lang (Cat (deriv c r1) r2) w -> lang (Cat r1 r2) (c :: w)) as Hcat.
    { inversion 1 as [| |? ? w1 w2 H1 H2| | | |]; subst. apply IH1 in H1.
      by apply (lang_cat _ _ (c :: w1) w2). }
    assert (lang (Cat r1 r2) (c :: w) ->
            lang (Cat (deriv c r1) r2) w \/ (lang r1 [] /\ lang r2 (c :: w))) as Hinv.
    { inversion 1 as [| |? ? w1 w2 H1 H2 [Hr1 Hr2] Heq| | | |]; subst.
      destruct w1 as [|c' w1]; simpl in Heq.
      - right. by subst.
      - injection Heq as -> <-. left. constructor; [by apply IH1|done]. }
    destruct (nullable r1) eqn:Hn.
    + split.
      * inversion 1; subst; [by apply Hcat|].
        apply nullable_lang in Hn. apply (lang_cat _ _ [] (c :: w)); [done|by apply IH2].
      * intros H. destruct (Hinv H) as [?|[_ ?]]; [by apply lang_alt_l|].
        apply lang_alt_r. by apply IH2.
    + split; [apply Hcat|].
      intros H. destruct (Hinv H) as [?|[Hnil _]]; [done|].
      apply nullable_lang in Hnil. congruence.
  - split.
    + inversion 1; subst; [apply lang_alt_l; by apply IH1|apply lang_alt_r; by apply IH2].
    + inversion 1; subst; [apply lang_alt_l; by apply IH1|apply lang_alt_r; by apply IH2].
  - split.
    + inversion 1 as [| |? ? w1 w2 H1 H2| | | |]; subst. apply IH in H1.
      by apply (lang_star_cons _ (c :: w1) w2).
    + intros H. apply lang_star_cons_inv in H as (w1 & w2 & -> & H1 & H2).
      constructor; [by apply IH|done].
Qed.

(** The derivative matcher decides membership. *)
Lemma test_lang r w : test r w = true <-> lang r w.
Proof.
  unfold test. revert r. induction w as [|c w IH]; intros r; simpl.
  - apply nullable_lang.
  - by rewrite IH, deriv_lang.
Qed.

Lemma lang_plus_cls p w : lang (Plus (Cls p)) w <-> w <> [] /\ Forall (fun c => p c = true) w.
Proof.
  assert (forall w, lang (Star (Cls p)) w <-> Forall (fun c => p c = true) w) as Hstar.
  { clear w. intros w. split.
    - intros H. remember (Star (Cls p)) as s eqn:Hs. induction H; try done.
      injection Hs as ->. apply Forall_app. split; [|by apply IHlang2].
      inversion H; subst. by repeat constructor.
    - induction 1 as [|c w Hc _ IH]; [constructor|].
      apply (lang_star_cons _ [c] w); [by constructor|done]. }
  unfold Plus. split.
  - inversion 1 as [| |? ? w1 w2 H1 H2| | | |]; subst. inversion H1; subst. simpl.
    split; [done|]. constructor; [done|]. by apply Hstar.
  - intros [Hne Hall]. destruct w as [|c w]; [done|].
    apply Forall_cons in Hall as [Hc Hall].
    apply (lang_cat _ _ [c] w); [by constructor|by apply Hstar].
Qed.

End RegexFacts.

(** X25: the email pattern of register accepts exactly the texts of the
    form local@domain.tld in which each of the three parts is non-empty
    and free of white space and of the at sign (the domain and the tld may
    themselves contain dots); so an accepted text has exactly one at sign
    and no white space. *)
Theorem emailRegex_shape (w : list N) :
  Regex.test Regex.emailRegex w = true
  <-> exists loc domain tld,
        w = (loc ++ [Regex.at_sign] ++ domain ++ [Regex.dot] ++ tld)%list
        /\ loc <> [] /\ domain <> [] /\ tld <> []
        /\ Forall (fun c => Regex.word c = true) loc
        /\ Forall (fun c => Regex.word c = true) domain
        /\ Forall (fun c => Regex.word c = true) tld.
Proof.
  rewrite test_lang. unfold Regex.emailRegex. split.
  - inversion 1 as [| |? ? loc w1 Hl H1| | | |]; subst.
    inversion H1 as [| |? ? at' w2 Ha H2| | | |]; subst.
    inversion H2 as [| |? ? domain w3 Hd H3| | | |]; subst.
    inversion H3 as [| |? ? dot' tld Hdot Ht| | | |]; subst.
    inversion Ha; subst. inversion Hdot; subst.
    apply lang_plus_cls in Hl as [? ?], Hd as [? ?], Ht as [? ?].
    match goal with H : (Regex.at_sign =? _)%N = true |- _ => apply N.eqb_eq in H as <- end.
    match goal with H : (Regex.dot =? _)%N = true |- _ => apply N.eqb_eq in H as <- end.
    by exists loc, domain, tld.
  - intros (loc & domain & tld & -> & ? & ? & ? & ? & ? & ?).
    repeat first [apply Regex.lang_cat | apply lang_plus_cls; by split
                 | apply Regex.lang_cls; apply N.eqb_refl].
Qed.

(** ** Where the token is read from *)

Lemma remove_first_absent (pat s : string) :
  Str.includes pat s = false -> Str.remove_first pat s = s.
Proof.
  induction s as [|c s IH]; intros H.
  - cbn [Str.remove_first]. destruct (String.prefix pat ""); [|done].
    by destruct (String.length pat).
  - change (Str.includes pat (String c s))
      with (String.prefix pat (String c s) || Str.includes pat s) in H.
    apply orb_false_elim in H as [Hp Hs].
    change (Str.remove_first pat (String c s))
      with (if String.prefix pat (String c s)
            then Str.drop (String.length pat) (String c s)
            else String c (Str.remove_first pat s)).
    by rewrite Hp, IH.
Qed.

(** X26: the forms of the token that requireAuth reads.  Without an
    Authorization header, and likewise when what is left of the header
    after removing the first [Bearer ] is empty, the token is the query
    parameter.  A header [Bearer ] followed by a non-empty text gives that
    text; and a non-empty header that does not contain [Bearer ] at all is
    taken as the token itself, so the prefix is not required. *)
Theorem bearer_forms (h tok : string) (q : option string) (b : gmap string value) :
  bearer {| authorization := None; query_token := q; body := b |} = q
  /\ bearer {| authorization := Some "Bearer "; query_token := q; body := b |} = q
  /\ bearer {| authorization := Some ""; query_token := q; body := b |} = q
  /\ (tok <> "" ->
      bearer {| authorization := Some ("Bearer " +:+ tok); query_token := q; body := b |}
      = Some tok)
  /\ (h <> "" -> Str.includes "Bearer " h = false ->
      bearer {| authorization := Some h; query_token := q; body := b |} = Some h).
Proof.
  split_and!; try done.
  - apply bearer_header.
  - intros Hne Hno. unfold bearer. cbn [authorization query_token].
    rewrite remove_first_absent by done. apply String.eqb_neq in Hne. by rewrite Hne.
Qed.

(** ** The properties at sample inputs *)

(** Cara logs a meal of p2 in the ward. *)
Lemma createLog_then_listLogs_sample :
  body (Sample.request_of "t1" {[ "food" := VStr "full" ]}) !! "patientId" = None
  /\ let out := createLog (route_params "patientId" "p2") 5000 Sample.cara
                  (Sample.request_of "t1" {[ "food" := VStr "full" ]}) Sample.ward in
     exists log found,
       out.1 = reply 201 (Doc log)
       /\ listLogs Sample.env (route_params "patientId" "p2") Sample.dora
            (Sample.request_of "t2" ∅) out.2
          = (reply 200 (Docs found), out.2)
       /\ log ∈ found
       /\ length found
          = S (length (find (fun d => eq_value (d !! "patientId") (VStr "p2"))
                         (logs Sample.ward)))
       /\ forall id', id' <> "p2" ->
            (listLogs Sample.env (route_params "patientId" id') Sample.dora
               (Sample.request_of "t2" ∅) out.2).1
            = (listLogs Sample.env (route_params "patientId" id') Sample.dora
                 (Sample.request_of "t2" ∅) Sample.ward).1.
Proof.
  split; [reflexivity|].
  apply (createLog_then_listLogs Sample.env "p2" 5000 Sample.cara Sample.dora
           (Sample.request_of "t1" {[ "food" := VStr "full" ]})
           (Sample.request_of "t2" ∅) Sample.ward).
  reflexivity.
Defined.



(** p2 is deleted from the ward in which it has a log. *)
Lemma deletePatient_cascade_sample :
  consistent Sample.ward_logged
  /\ let st' := (deletePatient Sample.env (route_params "id" "p2") Sample.cara
                   (Sample.request_of "t1" ∅) Sample.ward_logged).2 in
     (forall p, p ∈ patients st' -> patient_id p <> Some (VStr "p2"))
     /\ (forall u' req',
           listLogs Sample.env (route_params "patientId" "p2") u' req' st'
           = (reply 200 (Docs []), st'))
     /\ (forall u' req',
           listNotes Sample.env (route_params "patientId" "p2") u' req' st'
           = reply_more 200 (Notes []))
     /\ (forall t u' req',
           getShareLink Sample.env (route_params "patientId" "p2") t u' req' st'
           = (reply 404 EmptyObject, st'))
     /\ (forall now later u' req',
           status (generateAnalysis Sample.env (route_params "patientId" "p2") now later
                     u' req' st').1 = 404%Z
           /\ (generateAnalysis Sample.env (route_params "patientId" "p2") now later
                 u' req' st').2 = [])
     /\ sessions st' = sessions Sample.ward_logged.
Proof.
  assert (consistent Sample.ward_logged) as Hc
    by apply (reachable_consistent Sample.env), ward_logged_reachable.
  split; [exact Hc|].
  apply (deletePatient_cascade Sample.env "p2" Sample.cara (Sample.request_of "t1" ∅)
           Sample.ward_logged Hc).
Defined.

(** p2 is deleted; what is read for p1 stays. *)
Lemma deletePatient_frame_sample :
  "p1" <> "p2"
  /\ let st' := (deletePatient Sample.env (route_params "id" "p2") Sample.cara
                   (Sample.request_of "t1" ∅) Sample.ward_logged).2 in
     (forall p, patient_id p = Some (VStr "p1") ->
                (p ∈ patients st' <-> p ∈ patients Sample.ward_logged))
     /\ listNotes Sample.env (route_params "patientId" "p1") Sample.dora
          (Sample.request_of "t2" ∅) st'
        = listNotes Sample.env (route_params "patientId" "p1") Sample.dora
            (Sample.request_of "t2" ∅) Sample.ward_logged
     /\ (forall t,
           (getShareLink Sample.env (route_params "patientId" "p1") t Sample.dora
              (Sample.request_of "t2" ∅) st').1
           = (getShareLink Sample.env (route_params "patientId" "p1") t Sample.dora
                (Sample.request_of "t2" ∅) Sample.ward_logged).1)
     /\ (Forall log_typed (logs Sample.ward_logged) ->
         (listLogs Sample.env (route_params "patientId" "p1") Sample.dora
            (Sample.request_of "t2" ∅) st').1
         = (listLogs Sample.env (route_params "patientId" "p1") Sample.dora
              (Sample.request_of "t2" ∅) Sample.ward_logged).1).
Proof.
  split; [discriminate|].
  apply (deletePatient_frame Sample.env "p2" "p1" Sample.cara Sample.dora
           (Sample.request_of "t1" ∅) (Sample.request_of "t2" ∅) Sample.ward_logged).
  discriminate.
Defined.

(** The link of p2 is replaced at 6000 and read at 7000. *)
Lemma share_link_lifetime_sample :
  NoDup (sl_patientId <$> shareLinks Sample.ward_shared)
  /\ let st1 := (createShareLink Sample.env (route_params "patientId" "p2") 6000
                   "0.9k2b7q1xw5c" Sample.cara (Sample.request_of "t1" ∅)
                   Sample.ward_shared).2 in
     let out := getShareLink Sample.env (route_params "patientId" "p2") 7000 Sample.dora
                  (Sample.request_of "t2" ∅) st1 in
     ((7000 <= 6000 + 24 * 60 * 60 * 1000)%Z ->
        out = (reply 200 (Link (new_link Sample.env "p2" 6000 "0.9k2b7q1xw5c")), st1))
     /\ ((6000 + 24 * 60 * 60 * 1000 < 7000)%Z ->
           out.1 = reply 404 EmptyObject
           /\ (forall l, l ∈ shareLinks out.2 -> sl_patientId l <> Some "p2")
           /\ forall t' u'' req'',
                getShareLink Sample.env (route_params "patientId" "p2") t' u'' req'' out.2
                = (reply 404 EmptyObject, out.2)).
Proof.
  assert (NoDup (sl_patientId <$> shareLinks Sample.ward_shared)) as Hnd
    by apply (links_unique _ (reachable_consistent Sample.env _ ward_shared_reachable)).
  split; [exact Hnd|].
  apply (share_link_lifetime Sample.env "p2" "0.9k2b7q1xw5c" 6000 7000 Sample.cara
           Sample.dora (Sample.request_of "t1" ∅) (Sample.request_of "t2" ∅)
           Sample.ward_shared Hnd).
Defined.

(** The migration is run twice on the patients of the ward, of which p2 is
    unassigned. *)
Lemma migratePatients_idempotent_sample :
  [Cases.dora_account] <> []
  /\ let r := Migration.migratePatients [Cases.dora_account] (patients Sample.ward) in
     let r' := Migration.migratePatients [Cases.dora_account] (Migration.patients_after r) in
     (forall d, d ∈ Migration.patients_after r -> matches false Migration.unassigned d = false)
     /\ Migration.patients_after r' = Migration.patients_after r
     /\ Migration.updated_matched r' = None
     /\ ([Cases.dora_account] <> [] ->
         Migration.exit_code r' = 0%Z /\ Migration.unassigned_found r' = Some 0).
Proof.
  split; [discriminate|].
  apply (migratePatients_idempotent [Cases.dora_account] [Cases.dora_account]
           (patients Sample.ward)).
  discriminate.
Defined.

(** Dora is on the doctor list when the migration runs on the ward. *)
Lemma migration_visibility_sample :
  u_role Sample.dora = "doctor"
  /\ u_email Sample.dora ∈ map a_email [Cases.dora_account]
  /\ let st' := set_patients
                  (Migration.patients_after
                     (Migration.migratePatients [Cases.dora_account] (patients Sample.ward)))
                  Sample.ward in
     let found := find (matches (ignoreUndefined Sample.env) (visible_to (u_email Sample.dora)))
                    (patients Sample.ward) in
     listPatients Sample.env Sample.dora (Sample.request_of "t2" ∅) st'
     = (reply 200 (Docs (map (migrated [Cases.dora_account]) found)), st').
Proof.
  split; [reflexivity|]. split; [apply list_elem_of_here|].
  apply (migration_visibility Sample.env [Cases.dora_account] Sample.dora
           (Sample.request_of "t2" ∅) Sample.ward); [discriminate|reflexivity|].
  apply list_elem_of_here.
Defined.

(** Dora logs in with her password. *)
Lemma login_outcomes_sample :
  body (Cases.login_request "secret1") !! "email" = Some (VStr "d@x")
  /\ let out := login Cases.marking Cases.accounts 1000 Cases.draw
                  (Cases.login_request "secret1") Sample.logged_in in
     (exists a pw,
        a_email a = "d@x"
        /\ body (Cases.login_request "secret1") !! "password" = Some (VStr pw)
        /\ is_role (body (Cases.login_request "secret1") !! "role") = true
        /\ a ∈ collection_of (body (Cases.login_request "secret1") !! "role") Cases.accounts
        /\ a_password a = sha256_hex Cases.marking pw
        /\ out.1 = reply_more 200 (LoggedIn (generateToken Cases.draw) (snapshot a))
        /\ out.2 = set_sessions
                     (sessions Sample.logged_in
                      ++ [{| token := generateToken Cases.draw;
                             user := snapshot a;
                             expiresAt := (1000 + 24 * 60 * 60 * 1000)%Z |}])%list
                     Sample.logged_in)
     \/ (exists code msg,
           out = (reply_more code (Plain (Error msg)), Sample.logged_in)
           /\ (code = 400 \/ code = 401 \/ code = 500)%Z).
Proof.
  split; [reflexivity|].
  apply (login_outcomes Cases.marking Cases.accounts 1000 Cases.draw
           (Cases.login_request "secret1") Sample.logged_in "d@x").
  reflexivity.
Defined.

(** Dora logs in with a wrong password. *)
Lemma login_credentials_sample :
  is_role (body (Cases.login_request "guess") !! "role") = true
  /\ Cases.dora_account ∈ collection_of (body (Cases.login_request "guess") !! "role")
                            Cases.accounts
  /\ a_password Cases.dora_account <> sha256_hex Cases.marking "guess"
  /\ login Cases.marking Cases.accounts 1000 Cases.draw (Cases.login_request "guess")
       Sample.logged_in
     = (reply_more 401 (Plain (Error "Invalid credentials")), Sample.logged_in).
Proof.
  split; [reflexivity|]. split; [apply list_elem_of_here|]. split; [discriminate|].
  destruct (login_credentials Cases.marking Cases.accounts 1000 Cases.draw
              (Cases.login_request "guess") Sample.logged_in "d@x" "guess"
              eq_refl ltac:(discriminate) eq_refl ltac:(discriminate) eq_refl)
    as (_ & Hwrong & _).
  apply (Hwrong Cases.dora_account); [reflexivity|discriminate].
Defined.

(** Dora logs in at 1000 and asks who she is at 2000. *)
Lemma login_then_me_sample :
  login Cases.marking Cases.accounts 1000 Cases.draw (Cases.login_request "secret1")
    Sample.logged_in
  = (reply_more 200 (LoggedIn (generateToken Cases.draw) Sample.dora),
     (login Cases.marking Cases.accounts 1000 Cases.draw (Cases.login_request "secret1")
        Sample.logged_in).2)
  /\ GET_me (Sample.request_of (generateToken Cases.draw) ∅) 2000
       (login Cases.marking Cases.accounts 1000 Cases.draw (Cases.login_request "secret1")
          Sample.logged_in).2
     = reply_more 200 (Me Sample.dora).
Proof.
  split; [reflexivity|].
  apply (login_then_me Cases.marking Cases.accounts 1000 2000 Cases.draw
           (Cases.login_request "secret1") Sample.logged_in _ (generateToken Cases.draw)
           Sample.dora None ∅).
  - reflexivity.
  - discriminate.
  - intros s Hs. unfold Sample.logged_in in Hs. simpl in Hs.
    apply elem_of_cons in Hs as [->|Hs]; [discriminate|].
    apply list_elem_of_singleton in Hs as ->. discriminate.
  - done.
Defined.

(** Cara logs out. *)
Lemma logout_revokes_sample :
  "t1" <> ""
  /\ NoDup (token <$> sessions Sample.logged_in)
  /\ (logout (Sample.request_of "t1" ∅) Sample.logged_in).1
     = reply_more 200 (Message "Logged out successfully")
  /\ sessions (logout (Sample.request_of "t1" ∅) Sample.logged_in).2 = [Sample.dora_session]
  /\ forall t,
       requireAuth (Sample.request_of "t1" ∅) t
         (logout (Sample.request_of "t1" ∅) Sample.logged_in).2
       = inl (reply 401 (Error "Invalid or expired session")).
Proof.
  assert (NoDup (token <$> sessions Sample.logged_in)) as Hnd.
  { simpl. apply NoDup_cons. split; [|apply NoDup_singleton].
    intros H%list_elem_of_singleton. discriminate. }
  split; [discriminate|]. split; [exact Hnd|].
  destruct (logout_revokes "t1" None ∅ Sample.logged_in ltac:(discriminate))
    as (Hok & _ & Hfirst & _ & _ & _ & _ & Hunique).
  split; [exact Hok|]. split.
  - apply (Hfirst [] Sample.cara_session [Sample.dora_session]); [reflexivity..|].
    intros x Hx. by apply elem_of_nil in Hx.
  - apply (Hunique Hnd).
Defined.

(** Eve registers as a caregiver. *)
Lemma register_emails_unique_sample :
  NoDup (a_email <$> doctors Cases.accounts)
  /\ NoDup (a_email <$> caregivers Cases.accounts)
  /\ let out := register Cases.marking 7000 "u9" Cases.register_request Cases.accounts in
     NoDup (a_email <$> doctors out.2)
     /\ NoDup (a_email <$> caregivers out.2)
     /\ (body Cases.register_request !! "role" = Some (VStr "doctor") ->
         caregivers out.2 = caregivers Cases.accounts)
     /\ (body Cases.register_request !! "role" <> Some (VStr "doctor") ->
         doctors out.2 = doctors Cases.accounts).
Proof.
  assert (NoDup (a_email <$> doctors Cases.accounts)) as Hd by apply NoDup_singleton.
  assert (NoDup (a_email <$> caregivers Cases.accounts)) as Hc by apply NoDup_nil_2.
  split; [exact Hd|]. split; [exact Hc|].
  apply (register_emails_unique Cases.marking 7000 "u9" Cases.register_request
           Cases.accounts Hd Hc).
Defined.

(** Eve registers at 7000 and logs in at 8000. *)
Lemma register_then_login_sample :
  register Cases.marking 7000 "u9" Cases.register_request Cases.accounts
  = (reply_more 201 (Registered "Account created successfully" (snapshot Cases.eve_account)),
     {| doctors := [Cases.dora_account]; caregivers := [Cases.eve_account] |})
  /\ (login Cases.marking
        {| doctors := [Cases.dora_account]; caregivers := [Cases.eve_account] |}
        8000 Cases.draw Cases.eve_login Sample.logged_in).1
     = reply_more 200 (LoggedIn (generateToken Cases.draw) (snapshot Cases.eve_account)).
Proof.
  split; [reflexivity|].
  apply (register_then_login Cases.marking 7000 8000 "u9" Cases.draw
           Cases.register_request Cases.eve_login Cases.accounts
           {| doctors := [Cases.dora_account]; caregivers := [Cases.eve_account] |}
           "Account created successfully" (snapshot Cases.eve_account) Sample.logged_in);
    reflexivity.
Defined.

(** Cara assigns a doctor on the path of p2 in the ward. *)
Lemma assignPatient_never_finds_sample :
  reachable Sample.env Sample.ward
  /\ ignoreUndefined Sample.env = false
  /\ assignPatient Sample.env (route_params "id" "p2") Sample.cara
       (Sample.request_of "t1" {[ "doctorEmails" := VArr [VStr "a@x"] ]}) Sample.ward
     = (reply 404 (Error "Patient not found"), Sample.ward).
Proof.
  split; [apply ward_reachable|]. split; [reflexivity|].
  apply (assignPatient_never_finds Sample.env "p2" Sample.cara
           (Sample.request_of "t1" {[ "doctorEmails" := VArr [VStr "a@x"] ]}) Sample.ward
           (VStr "a@x") [] ward_reachable); reflexivity.
Defined.
